(** * Multimodal taxi/traffic data analysis: the daily-aggregation pipeline

    A shallow embedding of the archive scripts
    ([utils.py], [audio_quality_daily.py], [image_quality_daily.py],
    [audio_quality.py], [audio_amplitude_scan_sampled.py],
    [parse_logs_to_csv.py], [daily_join.py],
    [join_audio_quality_and_sensor_daily.py]) and the properties the
    specification states about them.

    Conventions.
    - A Python [str] is a Rocq [string]; its characters are the code points
      below 256, on which [\d] is [0-9] and [str.isspace] is the set listed
      in [is_space].
    - A Python exception is a constructor of [exn]; a function that can
      raise returns a [result].
    - The file system is a tree of [node]s; a path that does not exist is
      [None]. *)

From Stdlib Require Import String Ascii List ZArith QArith Qround Bool Lia.
From Stdlib Require Import Permutation Sorted.
From Stdlib Require Import Floats.SpecFloat PrimFloat.
Import ListNotations.

Local Open Scope string_scope.
Local Open Scope list_scope.
Local Open Scope Z_scope.

Set Implicit Arguments.
Set Warnings "-register-all,-inexact-float".

(** ** Exceptions and results *)

Inductive exn : Type :=
| FileNotFoundError
| NotADirectoryError
| ValueError
| TypeError
| KeyError
| IndexError
| AttributeError
| AssertionError
| RuntimeError
| JSONDecodeError.

Inductive result (A : Type) : Type :=
| Ok (a : A)
| Raise (e : exn).

Arguments Ok {A} a.
Arguments Raise {A} e.

Definition bind {A B : Type} (r : result A) (k : A -> result B) : result B :=
  match r with
  | Ok a => k a
  | Raise e => Raise e
  end.

Notation "x <- r ;; k" := (bind r (fun x => k))
  (at level 61, r at next level, right associativity).
Notation "' p <- r ;; k" := (bind r (fun p => k))
  (at level 61, p pattern, r at next level, right associativity).

(** ** Sorting

    Python's [sorted] and pandas' [sort_values] are stable; so is insertion
    into a list kept in order. *)

Module Sort.
Section By.
Variable A : Type.
Variable leb : A -> A -> bool.

Fixpoint insert (x : A) (l : list A) : list A :=
  match l with
  | [] => [x]
  | y :: l' => if leb x y then x :: l else y :: insert x l'
  end.

Definition sort (l : list A) : list A := fold_right insert [] l.
End By.
End Sort.

(** ** Strings *)

Module Str.

Definition newline : ascii := "010"%char.

(** [str.isspace] on the code points below 256. *)
Definition is_space (c : ascii) : bool :=
  let n := nat_of_ascii c in
  ((9 <=? n) && (n <=? 13))%nat
  || ((28 <=? n) && (n <=? 32))%nat
  || (n =? 133)%nat || (n =? 160)%nat.

(** [\d] on the code points below 256. *)
Definition is_digit (c : ascii) : bool :=
  let n := nat_of_ascii c in ((48 <=? n) && (n <=? 57))%nat.

Definition digit_value (c : ascii) : Z := Z.of_nat (nat_of_ascii c) - 48.

(** [c in s] for a one-character [c]. *)
Fixpoint contains (c : ascii) (s : string) : bool :=
  match s with
  | EmptyString => false
  | String a s' => Ascii.eqb a c || contains c s'
  end.

(** [s.split(sep)] for a one-character separator: never empty. *)
Fixpoint split (sep : ascii) (s : string) : list string :=
  match s with
  | EmptyString => [EmptyString]
  | String a s' =>
      if Ascii.eqb a sep then EmptyString :: split sep s'
      else match split sep s' with
           | [] => [String a EmptyString]
           | w :: ws => String a w :: ws
           end
  end.

(** [s.split()]: the maximal runs of non-space characters. *)
Fixpoint split_ws_aux (cur : string) (s : string) : list string :=
  match s with
  | EmptyString => if (String.length cur =? 0)%nat then [] else [cur]
  | String a s' =>
      if is_space a
      then (if (String.length cur =? 0)%nat then split_ws_aux EmptyString s'
            else cur :: split_ws_aux EmptyString s')
      else split_ws_aux (cur ++ String a EmptyString) s'
  end.

Definition split_ws (s : string) : list string := split_ws_aux EmptyString s.

Fixpoint lstrip (s : string) : string :=
  match s with
  | EmptyString => EmptyString
  | String a s' => if is_space a then lstrip s' else s
  end.

Fixpoint rev (s : string) : string :=
  match s with
  | EmptyString => EmptyString
  | String a s' => rev s' ++ String a EmptyString
  end.

(** [s.strip()] *)
Definition strip (s : string) : string := rev (lstrip (rev (lstrip s))).

(** [s[:n]] *)
Definition take (n : nat) (s : string) : string := substring 0 n s.

(** [int(s)] on a string of digits. *)
Definition int_of_digits (s : string) : Z :=
  fold_left (fun acc c => 10 * acc + digit_value c) (list_ascii_of_string s) 0.

(** [sorted] on strings: code-point order. *)
Definition sorted (l : list string) : list string := Sort.sort String.leb l.

End Str.

(** ** Regular expressions, as Python's [re] runs them

    A backtracking matcher: [run r st] lists, in the order [re] tries them,
    the states in which a match of [r] started in [st] can end.  A state is
    the number of characters consumed and the rest of the subject. *)

Module Re.

Inductive regex : Type :=
| Bol                          (* ^ *)
| Eol                          (* $ *)
| Digit                        (* \d *)
| Chr (c : ascii)              (* a literal character *)
| Range (lo hi : ascii)        (* [lo-hi] *)
| OneOf (cs : list ascii)      (* [abc] *)
| Cat (r1 r2 : regex)          (* r1r2 *)
| Alt (r1 r2 : regex)          (* r1|r2 *)
| Opt (r : regex)              (* r?, greedy *)
| Rep (n : nat) (r : regex).   (* r{n} *)

Definition state : Type := (nat * string)%type.

Definition step (p : ascii -> bool) (st : state) : list state :=
  match st with
  | (pos, String c rest) => if p c then [(S pos, rest)] else []
  | (_, EmptyString) => []
  end.

Fixpoint iter (n : nat) (f : state -> list state) (st : state) : list state :=
  match n with
  | O => [st]
  | S n' => flat_map (iter n' f) (f st)
  end.

(** [$] without [re.MULTILINE]: at the end of the subject, or just before
    a newline that is its last character. *)
Definition at_eol (rest : string) : bool :=
  match rest with
  | EmptyString => true
  | String c EmptyString => Ascii.eqb c Str.newline
  | _ => false
  end.

Fixpoint run (r : regex) (st : state) : list state :=
  match r with
  | Bol => match fst st with O => [st] | S _ => [] end
  | Eol => if at_eol (snd st) then [st] else []
  | Digit => step Str.is_digit st
  | Chr c => step (fun a => Ascii.eqb a c) st
  | Range lo hi =>
      step (fun a => (nat_of_ascii lo <=? nat_of_ascii a)%nat
                     && (nat_of_ascii a <=? nat_of_ascii hi)%nat) st
  | OneOf cs => step (fun a => existsb (Ascii.eqb a) cs) st
  | Cat r1 r2 => flat_map (run r2) (run r1 st)
  | Alt r1 r2 => run r1 st ++ run r2 st
  | Opt r' => run r' st ++ [st]
  | Rep n r' => iter n (run r') st
  end.

(** [pattern.match(s)]: the first way to match a prefix of [s], as the
    number of characters it consumes ([m.end()]). *)
Definition match_ (r : regex) (s : string) : option nat :=
  match run r (O, s) with
  | [] => None
  | (pos, _) :: _ => Some pos
  end.

(** A sequence of groups: the text each group matched, for every way the
    sequence can match, in the order [re] tries them. *)
Fixpoint groups (rs : list regex) (st : state) : list (list string * state) :=
  match rs with
  | [] => [([], st)]
  | r :: rs' =>
      flat_map
        (fun st' =>
           map (fun '(caps, st'') =>
                  (Str.take (fst st' - fst st) (snd st) :: caps, st''))
               (groups rs' st'))
        (run r st)
  end.

Fixpoint seq (rs : list regex) : regex :=
  match rs with
  | [] => Rep 0 Digit
  | [r] => r
  | r :: rs' => Cat r (seq rs')
  end.

End Re.

(** ** Calendar dates, as [datetime] builds them *)

Record calendar_date : Type := mkDate { year : Z; month : Z; day : Z }.

Definition is_leap (y : Z) : bool :=
  (y mod 4 =? 0) && (negb (y mod 100 =? 0) || (y mod 400 =? 0)).

Definition days_in_month (y m : Z) : Z :=
  match m with
  | 2 => if is_leap y then 29 else 28
  | 4 | 6 | 9 | 11 => 30
  | _ => 31
  end.

(** [datetime.date(y, m, d)]: raises [ValueError] outside
    [MINYEAR..MAXYEAR], [1..12] and the month's days. *)
Definition make_date (y m d : Z) : result calendar_date :=
  if (1 <=? y) && (y <=? 9999) && (1 <=? m) && (m <=? 12)
     && (1 <=? d) && (d <=? days_in_month y m)
  then Ok (mkDate y m d)
  else Raise ValueError.

(** [datetime.strptime(s, "%Y-%m-%d")].  The format compiles to
    [(?P<Y>\d\d\d\d)-(?P<m>1[0-2]|0[1-9]|[1-9])-(?P<d>3[0-1]|[1-2]\d|0[1-9]|[1-9]| [1-9])];
    the subject must match it as a whole, and the fields must make a date. *)
Module Strptime.
Import Re.

Definition re_Y : regex := Rep 4 Digit.
Definition re_m : regex :=
  Alt (Cat (Chr "1") (Range "0" "2"))
      (Alt (Cat (Chr "0") (Range "1" "9")) (Range "1" "9")).
Definition re_d : regex :=
  Alt (Cat (Chr "3") (Range "0" "1"))
      (Alt (Cat (Range "1" "2") Digit)
           (Alt (Cat (Chr "0") (Range "1" "9"))
                (Alt (Range "1" "9") (Cat (Chr " ") (Range "1" "9"))))).

Definition format_groups : list regex := [re_Y; Chr "-"; re_m; Chr "-"; re_d].

Definition strptime (s : string) : result calendar_date :=
  match groups format_groups (O, s) with
  | ([Y; _; m; _; d], (pos, _)) :: _ =>
      if (pos =? String.length s)%nat
      then make_date (Str.int_of_digits Y) (Str.int_of_digits (Str.lstrip m))
                     (Str.int_of_digits (Str.lstrip d))
      else Raise ValueError              (* unconverted data remains *)
  | _ => Raise ValueError                (* does not match format *)
  end.

(** *** The month and day fields of a date-shaped text *)

Definition digits : list ascii :=
["0"; "1"; "2"; "3"; "4"; "5"; "6"; "7"; "8"; "9"]%char.

Definition num2 (a b : ascii) : Z := 10 * Str.digit_value a + Str.digit_value b.

Definition num4 (a b c d : ascii) : Z :=
10 * (10 * (10 * Str.digit_value a + Str.digit_value b) + Str.digit_value c)
+ Str.digit_value d.

Definition md_text (m1 m2 d1 d2 : ascii) : string :=
String "-" (String m1 (String m2 (String "-" (String d1 (String d2 ""))))).

(** What the format's groups after the year read in [-MM-DD]. *)
Definition md_parsed (m1 m2 d1 d2 : ascii) : option (Z * Z) :=
match groups [Chr "-"; re_m; Chr "-"; re_d] (4%nat, md_text m1 m2 d1 d2) with
| ([_; m; _; d], (pos, _)) :: _ =>
    if (pos =? 10)%nat
    then Some (Str.int_of_digits (Str.lstrip m), Str.int_of_digits (Str.lstrip d))
    else None
| _ => None
end.

(** What they should read: a month in [1..12] and a day in [1..31]. *)
Definition md_expected (m1 m2 d1 d2 : ascii) : option (Z * Z) :=
let m := num2 m1 m2 in
let d := num2 d1 d2 in
if (1 <=? m) && (m <=? 12) && (1 <=? d) && (d <=? 31) then Some (m, d) else None.

Definition md_agree (m1 m2 d1 d2 : ascii) : bool :=
match md_parsed m1 m2 d1 d2, md_expected m1 m2 d1 d2 with
| Some (m, d), Some (m', d') => (m =? m') && (d =? d')
| None, None => true
| _, _ => false
end.

Definition md_agree_all : bool :=
forallb (fun m1 =>
  forallb (fun m2 =>
    forallb (fun d1 =>
      forallb (fun d2 => md_agree m1 m2 d1 d2) digits) digits) digits) digits.

End Strptime.

(** ** The file system seen by the scripts *)

Inductive node : Type :=
| File (size : option Z)                 (* [None]: [getsize] raises OSError *)
| Dir (entries : list (string * node)).

Module Fs.

(** A path is [None] when nothing exists there. *)
Definition exists_ (p : option node) : bool :=
  match p with Some _ => true | None => false end.

Definition isdir (p : option node) : bool :=
  match p with Some (Dir _) => true | _ => false end.

Definition isfile (p : option node) : bool :=
  match p with Some (File _) => true | _ => false end.

(** [os.listdir] *)
Definition listdir (p : option node) : result (list string) :=
  match p with
  | None => Raise FileNotFoundError
  | Some (File _) => Raise NotADirectoryError
  | Some (Dir es) => Ok (map fst es)
  end.

Fixpoint lookup (name : string) (es : list (string * node)) : option node :=
  match es with
  | [] => None
  | (n, x) :: es' => if String.eqb n name then Some x else lookup name es'
  end.

(** [os.path.join(p, name)] *)
Definition join (p : option node) (name : string) : option node :=
  match p with
  | Some (Dir es) => lookup name es
  | _ => None
  end.

End Fs.

(** ** utils.py *)

Module Utils.
Import Re.

Definition VALID_YEAR_MIN : Z := 2022.
Definition VALID_YEAR_MAX : Z := 2025.

(** [re.compile(r"^\d{4}-\d{2}-\d{2}(_[hl])?$")] *)
Definition FOLDER_PATTERN : regex :=
  seq [Bol; Rep 4 Digit; Chr "-"; Rep 2 Digit; Chr "-"; Rep 2 Digit;
       Opt (Cat (Chr "_") (OneOf ["h"%char; "l"%char])); Eol].

Definition parse_folder_name (folder_name : string) : result (string * string) :=
  if Str.contains "_" folder_name
  then match Str.split "_" folder_name with
       | [date_str; q] => Ok (date_str, q)
       | _ => Raise ValueError
       end
  else Ok (folder_name, "u").

Definition extract_date (folder_name : string) : string :=
  hd EmptyString (Str.split "_" folder_name).

Definition extract_quality (folder_name : string) : result string :=
  if Str.contains "_" folder_name
  then match Str.split "_" folder_name with
       | _ :: q :: _ => Ok q
       | _ => Raise IndexError
       end
  else Ok "u".

Definition is_valid_folder_name (folder_name : string) : bool :=
  match match_ FOLDER_PATTERN folder_name with
  | Some _ => true
  | None => false
  end.

Definition is_valid_date (date_str : string) : bool :=
  match Strptime.strptime date_str with
  | Ok d => (VALID_YEAR_MIN <=? year d) && (year d <=? VALID_YEAR_MAX)
  | Raise _ => false
  end.

Definition list_candidate_folders (root : option node) : result (list string) :=
  match Fs.listdir root with
  | Raise FileNotFoundError => Ok []
  | Raise e => Raise e
  | Ok entries =>
      Ok (Str.sorted
            (filter (fun d => is_valid_folder_name d && Fs.isdir (Fs.join root d))
                    entries))
  end.

(** The loop body of [compute_folder_stats] over one directory entry. *)
Definition stats_step (folder : option node) (acc : Z * Z) (f : string) : Z * Z :=
  let '(file_count, total_size) := acc in
  let fp := Fs.join folder f in
  if Fs.isfile fp
  then match fp with
       | Some (File (Some sz)) => (file_count + 1, total_size + sz)
       | _ => (file_count + 1, total_size)
       end
  else acc.

Definition compute_folder_stats (folder : option node) : Z * Z :=
  match Fs.listdir folder with
  | Raise _ => (0, 0)
  | Ok files => fold_left (stats_step folder) files (0, 0)
  end.

Inductive modality : Type := image | audio.

Record valid_record : Type := mkValid {
  v_date : string;
  v_modality : modality;
  v_quality : string;
  v_file_count : Z;
  v_total_size : Z
}.

Record invalid_record : Type := mkInvalid {
  i_folder_name : string;
  i_parsed_date : string;
  i_modality : modality;
  i_quality : string;
  i_file_count : Z;
  i_total_size : Z;
  i_reason : string
}.

(** The loop body of [scan_modality_root] over one candidate folder. *)
Definition scan_step (root : option node) (m : modality)
           (acc : list valid_record * list invalid_record) (folder : string)
  : result (list valid_record * list invalid_record) :=
  let '(valid_records, invalid_records) := acc in
  let folder_path := Fs.join root folder in
  '(date_str, quality) <- parse_folder_name folder ;;
  let '(file_count, total_size) := compute_folder_stats folder_path in
  if is_valid_date date_str
  then Ok (valid_records ++ [mkValid date_str m quality file_count total_size],
           invalid_records)
  else Ok (valid_records,
           invalid_records ++
             [mkInvalid folder date_str m quality file_count total_size
                        "invalid_year_or_bad_date"]).

Fixpoint scan_loop (root : option node) (m : modality) (candidates : list string)
         (acc : list valid_record * list invalid_record)
  : result (list valid_record * list invalid_record) :=
  match candidates with
  | [] => Ok acc
  | folder :: rest =>
      acc' <- scan_step root m acc folder ;;
      scan_loop root m rest acc'
  end.

Definition scan_modality_root (root : option node) (m : modality)
  : result (list valid_record * list invalid_record) :=
  candidates <- list_candidate_folders root ;;
  scan_loop root m candidates ([], []).

(** What [scan_step] records for a folder whose name parses. *)
Definition quality_of (folder : string) : string :=
match parse_folder_name folder with
| Ok (_, q) => q
| Raise _ => EmptyString
end.

Definition valid_of (root : option node) (m : modality) (folder : string)
  : valid_record :=
let '(file_count, total_size) := compute_folder_stats (Fs.join root folder) in
mkValid (extract_date folder) m (quality_of folder) file_count total_size.

Definition invalid_of (root : option node) (m : modality) (folder : string)
  : invalid_record :=
let '(file_count, total_size) := compute_folder_stats (Fs.join root folder) in
mkInvalid folder (extract_date folder) m (quality_of folder)
          file_count total_size "invalid_year_or_bad_date".

(** A real calendar date whose year lies in the valid range. *)
Definition real_date_in_range (y m d : Z) : Prop :=
VALID_YEAR_MIN <= y <= VALID_YEAR_MAX /\
1 <= m <= 12 /\
1 <= d <= days_in_month y m.

(** The forms the comment above [FOLDER_PATTERN] lists: [YYYY-MM-DD],
    [YYYY-MM-DD_h], [YYYY-MM-DD_l]. *)
Definition date_shaped (s : string) : Prop :=
  exists y1 y2 y3 y4 m1 m2 d1 d2 : ascii,
    forallb Str.is_digit [y1; y2; y3; y4; m1; m2; d1; d2] = true /\
    s = string_of_list_ascii
          [y1; y2; y3; y4; "-"%char; m1; m2; "-"%char; d1; d2].

Definition folder_form (s : string) : Prop :=
  exists d : string,
    date_shaped d /\ (s = d \/ s = (d ++ "_h")%string \/ s = (d ++ "_l")%string).

End Utils.

(** ** JSON values, as [json.loads] returns them

    A [dict] is an association list in which the first binding of a key is
    the value the dict holds for it. *)

Inductive json : Type :=
| JNull
| JBool (b : bool)
| JInt (z : Z)
| JFloat (f : float)
| JStr (s : string)
| JList (l : list json)
| JDict (kvs : list (string * json)).

Module Py.

(** [bool(v)] *)
Definition truthy (v : json) : bool :=
  match v with
  | JNull => false
  | JBool b => b
  | JInt z => negb (z =? 0)
  | JFloat f => negb (PrimFloat.eqb f 0%float)
  | JStr s => negb (String.length s =? 0)%nat
  | JList l => negb (length l =? 0)%nat
  | JDict kvs => negb (length kvs =? 0)%nat
  end.

(** [v or []] *)
Definition or_empty_list (v : json) : json :=
  if truthy v then v else JList [].

Fixpoint assoc (k : string) (kvs : list (string * json)) : option json :=
  match kvs with
  | [] => None
  | (k', v) :: kvs' => if String.eqb k' k then Some v else assoc k kvs'
  end.

(** [d.get(k)] on a dict. *)
Definition get (kvs : list (string * json)) (k : string) : json :=
  match assoc k kvs with
  | Some v => v
  | None => JNull
  end.

(** [len(v)] *)
Definition len (v : json) : result nat :=
  match v with
  | JStr s => Ok (String.length s)
  | JList l => Ok (length l)
  | JDict kvs => Ok (length kvs)
  | _ => Raise TypeError
  end.

(** [v[i]] for a non-negative integer [i]; the keys of a JSON object are
    strings, so indexing one with an integer is a [KeyError]. *)
Definition index (v : json) (i : nat) : result json :=
  match v with
  | JList l =>
      match nth_error l i with
      | Some x => Ok x
      | None => Raise IndexError
      end
  | JStr s =>
      match String.get i s with
      | Some c => Ok (JStr (String c EmptyString))
      | None => Raise IndexError
      end
  | JDict _ => Raise KeyError
  | _ => Raise TypeError
  end.

Definition is_list (v : json) : bool :=
  match v with JList _ => true | _ => false end.

(** [v[i] if len(v) > i else None] *)
Definition index_or_none (v : json) (i : nat) : result json :=
  n <- len v ;;
  if (i <? n)%nat then index v i else Ok JNull.

Definition of_option (o : option string) : json :=
  match o with
  | Some s => JStr s
  | None => JNull
  end.

End Py.

(** ** parse_logs_to_csv.py *)

Module ParseLogs.
Import Py.

Definition fieldnames : list string :=
  [ "date"; "time"; "frame_dto"; "dto";
    "img_path"; "img_file";
    "dba"; "dba_dto";
    "intersection_0"; "intersection_1";
    "cross_0_0"; "cross_0_1"; "cross_1_0"; "cross_1_1";
    "probs"; "cls"; "point_len";
    "box_x1"; "box_y1"; "box_x2"; "box_y2";
    "tid"; "seq_len"; "seq_path";
    "log_file" ].

Definition row : Type := list (string * json).

(** [date_str, time_str = frame_dto.split()[:2]] *)
Definition date_time_of_frame_dto (frame_dto : json)
  : result (option string * option string) :=
  match frame_dto with
  | JStr s =>
      if Str.contains " " s
      then match firstn 2 (Str.split_ws s) with
           | [d; t] => Ok (Some d, Some t)
           | _ => Raise ValueError
           end
      else Ok (None, None)
  | _ => Ok (None, None)
  end.

(** [date_str = dto.split()[0]], when no date was found so far. *)
Definition date_of_dto (date_str : option string) (dto : json)
  : result (option string) :=
  match date_str, dto with
  | None, JStr s =>
      if Str.contains " " s
      then match Str.split_ws s with
           | d :: _ => Ok (Some d)
           | [] => Raise IndexError
           end
      else Ok None
  | _, _ => Ok date_str
  end.

(** [img_path.split("/")[-1]] *)
Definition img_file_of (img_path : json) : option string :=
  match img_path with
  | JStr s => Some (last (Str.split "/" s) EmptyString)
  | _ => None
  end.

(** The date taken from the first component of the image path. *)
Definition date_of_img (date_str : option string) (img_path : json)
  : option string :=
  match img_path with
  | JStr s =>
      let folder := hd EmptyString (Str.split "/" s) in
      match date_str with
      | None =>
          if (10 <=? String.length folder)%nat
          then match String.get 4 folder, String.get 7 folder with
               | Some c4, Some c7 =>
                   if Ascii.eqb c4 "-" && Ascii.eqb c7 "-"
                   then Some (Str.take 10 folder)
                   else None
               | _, _ => None
               end
          else None
      | Some _ => date_str
      end
  | _ => date_str
  end.

(** The pair [(cross[i][0], cross[i][1])], when [cross[i]] is a list. *)
Definition cross_pair (cross : json) (i : nat) : result (json * json) :=
  n <- len cross ;;
  if (i <? n)%nat
  then ci <- index cross i ;;
       if is_list ci
       then a <- index_or_none ci 0 ;;
            b <- index_or_none ci 1 ;;
            Ok (a, b)
       else Ok (JNull, JNull)
  else Ok (JNull, JNull).

Definition flatten_log_record (rec : json) (log_file : string) : result row :=
  match rec with
  | JDict kvs =>
      let frame_dto := get kvs "frame_dto" in
      let dto := get kvs "dto" in
      '(date_str, time_str) <- date_time_of_frame_dto frame_dto ;;
      date_str <- date_of_dto date_str dto ;;
      let img_path := get kvs "img" in
      let img_file := img_file_of img_path in
      let date_str := date_of_img date_str img_path in
      let dba := get kvs "dba" in
      let dba_dto := get kvs "dba_dto" in
      let intersection := or_empty_list (get kvs "intersection") in
      let cross := or_empty_list (get kvs "cross") in
      intersection_0 <- index_or_none intersection 0 ;;
      intersection_1 <- index_or_none intersection 1 ;;
      '(cross_0_0, cross_0_1) <- cross_pair cross 0 ;;
      '(cross_1_0, cross_1_1) <- cross_pair cross 1 ;;
      let probs := get kvs "probs" in
      let cls := get kvs "cls" in
      let point_len := get kvs "point_len" in
      let tid := get kvs "tid" in
      let seq_len := get kvs "seq_len" in
      let seq_path := get kvs "seq_path" in
      let box := or_empty_list (get kvs "box") in
      let box := if is_list box then box else JList [] in
      box_x1 <- index_or_none box 0 ;;
      box_y1 <- index_or_none box 1 ;;
      box_x2 <- index_or_none box 2 ;;
      box_y2 <- index_or_none box 3 ;;
      Ok [ ("date", of_option date_str);
           ("time", of_option time_str);
           ("frame_dto", frame_dto);
           ("dto", dto);
           ("img_path", img_path);
           ("img_file", of_option img_file);
           ("dba", dba);
           ("dba_dto", dba_dto);
           ("intersection_0", intersection_0);
           ("intersection_1", intersection_1);
           ("cross_0_0", cross_0_0);
           ("cross_0_1", cross_0_1);
           ("cross_1_0", cross_1_0);
           ("cross_1_1", cross_1_1);
           ("probs", probs);
           ("cls", cls);
           ("point_len", point_len);
           ("box_x1", box_x1);
           ("box_y1", box_y1);
           ("box_x2", box_x2);
           ("box_y2", box_y2);
           ("tid", tid);
           ("seq_len", seq_len);
           ("seq_path", seq_path);
           ("log_file", JStr log_file) ]
  | _ => Raise AttributeError          (* [rec.get] on a non-dict *)
  end.

(** *** The shape of a record that flattens

    [elem v i] is the [i]-th element of the array [v], null when [v] is not
    an array or is too short. *)
Definition elem (v : json) (i : nat) : json :=
match v with
| JList l => nth i l JNull
| _ => JNull
end.

Definition array_or_null (v : json) : bool :=
match v with
| JNull | JList _ => true
| _ => false
end.

(** A string with a space splits on whitespace into at least [n] tokens. *)
Definition tokens_at_least (n : nat) (v : json) : bool :=
match v with
| JStr s =>
    if Str.contains " " s then (n <=? length (Str.split_ws s))%nat else true
| _ => true
end.

Definition well_shaped (kvs : list (string * json)) : bool :=
tokens_at_least 2 (get kvs "frame_dto")
&& tokens_at_least 1 (get kvs "dto")
&& array_or_null (get kvs "intersection")
&& array_or_null (get kvs "cross").

End ParseLogs.

(** ** How a script run ends *)

Inductive outcome (T : Type) : Type :=
| Wrote (out : T)        (* the output file holds [out]; exit status 0 *)
| Failed (e : exn)       (* uncaught exception, no output file; exit status 1 *)
| SysExit (code : Z).    (* [sys.exit(code)], no output file *)

Arguments Wrote {T} out.
Arguments Failed {T} e.
Arguments SysExit {T} code.

Definition exit_status {T : Type} (o : outcome T) : Z :=
  match o with
  | Wrote _ => 0
  | Failed _ => 1
  | SysExit c => c
  end.

Definition written {T : Type} (o : outcome T) : option T :=
  match o with
  | Wrote out => Some out
  | _ => None
  end.

Module ParseLogsMain.
Import ParseLogs.

Record log_state : Type := mkState {
  total_lines : Z;
  parsed : Z;
  errors : Z;
  rows : list row              (* the rows handed to [writer.writerow] *)
}.

Definition init : log_state := mkState 0 0 0 [].

(** [args.max_lines and total_lines >= args.max_lines] *)
Definition cap_reached (max_lines : option Z) (st : log_state) : bool :=
  match max_lines with
  | Some n => negb (n =? 0) && (n <=? total_lines st)
  | None => false
  end.

Definition starts_with (p s : string) : bool := String.prefix p s.

(** [sorted(glob.glob(str(logs_root / "traffic.txt*")))], for a folder
    whose path holds none of the characters [*], [?] and [[], which [glob]
    would read as a pattern, and whose entries of that name are text
    files: [logs_root] is the folder's entries, each with its lines, or
    [None] when the folder is missing, which globs to nothing.  The
    pattern's [*] matches any sequence of characters, so an entry is found
    when its name starts with [traffic.txt]; the paths found share the
    folder's path, so their order is the order of the names. *)
Definition sort_files (l : list (string * list string))
  : list (string * list string) :=
  Sort.sort (fun f g => String.leb (fst f) (fst g)) l.

Definition iter_log_files (logs_root : option (list (string * list string)))
  : list (string * list string) :=
  match logs_root with
  | None => []
  | Some entries =>
      sort_files (filter (fun f => starts_with "traffic.txt" (fst f)) entries)
  end.

Section Loop.
(** [json.loads], which raises on malformed text. *)
Variable json_loads : string -> result json.

(** The body of [for line in fin], after the cap test. *)
Definition process_line (lf_name : string) (st : log_state) (line : string)
  : log_state :=
  let total := total_lines st + 1 in
  let line := Str.strip line in
  if (String.length line =? 0)%nat
  then mkState total (parsed st) (errors st) (rows st)
  else match (rec <- json_loads line ;; flatten_log_record rec lf_name) with
       | Ok r => mkState total (parsed st + 1) (errors st) (rows st ++ [r])
       | Raise _ => mkState total (parsed st) (errors st + 1) (rows st)
       end.

(** [for line in fin]; the flag says that [main] returned at the cap. *)
Fixpoint lines_loop (max_lines : option Z) (lf_name : string)
         (lines : list string) (st : log_state) : log_state * bool :=
  match lines with
  | [] => (st, false)
  | line :: rest =>
      if cap_reached max_lines st then (st, true)
      else lines_loop max_lines lf_name rest (process_line lf_name st line)
  end.

(** [for lf in log_files] *)
Fixpoint files_loop (max_lines : option Z)
         (log_files : list (string * list string)) (st : log_state)
  : log_state :=
  match log_files with
  | [] => st
  | (name, lines) :: rest =>
      let '(st', returned) := lines_loop max_lines name lines st in
      if returned then st' else files_loop max_lines rest st'
  end.

(** [main]: the output is opened, and its header written, before the
    first line is read. *)
Definition main (max_lines : option Z)
           (logs_root : option (list (string * list string)))
  : outcome (list string * log_state) :=
  match iter_log_files logs_root with
  | [] => SysExit 1
  | log_files => Wrote (fieldnames, files_loop max_lines log_files init)
  end.

(** Every line of every file, with the name of its file. *)
Definition all_lines (log_files : list (string * list string))
  : list (string * string) :=
  flat_map (fun f => map (pair (fst f)) (snd f)) log_files.

Definition process_all (ls : list (string * string)) (st : log_state)
  : log_state :=
  fold_left (fun st l => process_line (fst l) st (snd l)) ls st.

End Loop.

End ParseLogsMain.

(** ** pandas: group-by and the reductions the daily scripts use

    A cell that pandas shows as NaN, NaT or None is [None].  Numbers are
    rationals; a [Timestamp] is its count of nanoseconds since the epoch.
    [mean], [quantile] and [std] give the exact value of the reduction, of
    which pandas computes a binary64 approximation: what is proved of them
    below is only that the same cells give the same value.  The counts and
    the dates are exact in pandas as they are here. *)

Module Pd.

Definition Timestamp : Type := Z.

Definition day_ns : Z := 86400 * 1000000000.

(** [Series.dt.normalize()]: the midnight of the same day. *)
Definition normalize (t : Timestamp) : Timestamp := t - t mod day_ns.

(** Insertion into a list of keys kept in increasing order and free of
    duplicates. *)
Fixpoint insert_key (k : Z) (l : list Z) : list Z :=
  match l with
  | [] => [k]
  | y :: l' =>
      if k <? y then k :: l
      else if k =? y then l
      else y :: insert_key k l'
  end.

(** [Series.notna()] on one cell. *)
Definition notna {A : Type} (o : option A) : bool :=
  match o with Some _ => true | None => false end.

Fixpoint dropna {A : Type} (l : list (option A)) : list A :=
  match l with
  | [] => []
  | Some a :: l' => a :: dropna l'
  | None :: l' => dropna l'
  end.

Section GroupBy.
Variable R : Type.
Variable key : R -> option Z.

(** The group keys: the distinct non-null keys, in increasing order. *)
Definition keys (df : list R) : list Z :=
  fold_right insert_key [] (dropna (map key df)).

Definition has_key (k : Z) (r : R) : bool :=
  match key r with
  | Some k' => k' =? k
  | None => false
  end.

(** The rows of one group, in the order of the frame. *)
Definition group (k : Z) (df : list R) : list R := filter (has_key k) df.

(** [df.groupby(key)]: rows whose key is null belong to no group. *)
Definition groupby (df : list R) : list (Z * list R) :=
  map (fun k => (k, group k df)) (keys df).
End GroupBy.

(** ["count"]: the cells that are not null. *)
Definition count {A : Type} (col : list (option A)) : Z :=
  Z.of_nat (length (dropna col)).

Definition Qsum (l : list Q) : Q := fold_left Qplus l 0%Q.

(** ["mean"]: over the cells that are not null; NaN when there is none. *)
Definition mean (col : list (option Q)) : option Q :=
  match dropna col with
  | [] => None
  | vs => Some (Qsum vs / inject_Z (Z.of_nat (length vs)))%Q
  end.

(** [Series.quantile(q)]: linear interpolation between the order
    statistics of the cells that are not null. *)
Definition quantile (q : Q) (col : list (option Q)) : option Q :=
  match Sort.sort Qle_bool (dropna col) with
  | [] => None
  | v :: vs' =>
      let vs := v :: vs' in
      let pos := (q * inject_Z (Z.of_nat (length vs) - 1))%Q in
      let lo := Qfloor pos in
      let frac := (pos - inject_Z lo)%Q in
      let a := nth (Z.to_nat lo) vs v in
      let b := nth (Z.to_nat lo + 1) vs a in
      Some (a + (b - a) * frac)%Q
  end.

Section Std.
(** The square root, which the rationals lack. *)
Variable sqrt : Q -> Q.

(** ["std"]: the sample standard deviation (ddof = 1); NaN on fewer
    than two cells. *)
Definition std (col : list (option Q)) : option Q :=
  match dropna col with
  | [] | [_] => None
  | vs =>
      let n := inject_Z (Z.of_nat (length vs)) in
      let m := (Qsum vs / n)%Q in
      let ss := Qsum (map (fun v => (v - m) * (v - m))%Q vs) in
      Some (sqrt (ss / (n - 1))%Q)
  end.
End Std.

Definition Zsum (l : list Z) : Z := fold_left Z.add l 0.

End Pd.

(** ** audio_quality_daily.py *)

Module AudioDaily.
Import Pd.

(** One row of audio_quality.csv, as [read_csv] loads it when it reads the
    [date] column as datetimes; a cell left blank is [None] (NaT, NaN). *)
Record audio_row : Type := mkAudioRow {
  date : option Timestamp;
  relative_path : option string;
  duration_sec : option Q;
  rms_dbfs : option Q;
  zcr : option Q;
  file_size_bytes : option Q
}.

Record daily_row : Type := mkDaily {
  d_date : Timestamp;
  n_audio : Z;
  rms_dbfs_mean : option Q;
  rms_dbfs_p10 : option Q;
  rms_dbfs_p90 : option Q;
  zcr_mean : option Q;
  zcr_std : option Q;
  duration_mean : option Q;
  file_size_mean : option Q
}.

(** [df["date"] = df["date"].dt.normalize()] *)
Definition normalize_dates (df : list audio_row) : list audio_row :=
  map (fun r =>
         mkAudioRow (option_map normalize (date r)) (relative_path r)
                    (duration_sec r) (rms_dbfs r) (zcr r) (file_size_bytes r))
      df.

Section Aggregate.
Variable sqrt : Q -> Q.

Definition agg (g : Z * list audio_row) : daily_row :=
  let '(k, rows) := g in
  mkDaily k
          (count (map relative_path rows))
          (mean (map rms_dbfs rows))
          (quantile (10 # 100) (map rms_dbfs rows))
          (quantile (90 # 100) (map rms_dbfs rows))
          (mean (map zcr rows))
          (std sqrt (map zcr rows))
          (mean (map duration_sec rows))
          (mean (map file_size_bytes rows)).

(** [df.groupby("date").agg(...).reset_index().sort_values("date")]:
    the groups already come in increasing order of the key. *)
Definition aggregate (df : list audio_row) : list daily_row :=
  Sort.sort (fun a b => d_date a <=? d_date b)
            (map agg (groupby date df)).

(** [main], on the content of [INPUT_CSV] ([None] when it is missing).
    [read_csv] turns the [date] column into datetimes only when the file
    has a record; on a file that has none the column keeps the type
    [object], and [df["date"].dt] raises [AttributeError]. *)
Definition main (input_csv : option (list audio_row))
  : outcome (list daily_row) :=
  match input_csv with
  | None => Failed FileNotFoundError
  | Some [] => Failed AttributeError
  | Some df0 =>
      let df := normalize_dates df0 in
      let daily := aggregate df in
      if Zsum (map n_audio daily) =? Z.of_nat (length df)
      then Wrote daily
      else Failed AssertionError
  end.
End Aggregate.

(** The columns the additivity property is about. *)
Record count_mean : Type := mkCountMean {
  cm_date : Timestamp;
  cm_count : Z;
  cm_rms_dbfs_mean : option Q;
  cm_zcr_mean : option Q;
  cm_duration_mean : option Q;
  cm_file_size_mean : option Q
}.

Definition count_and_means (r : daily_row) : count_mean :=
  mkCountMean (d_date r) (n_audio r) (rms_dbfs_mean r) (zcr_mean r)
              (duration_mean r) (file_size_mean r).

Definition dates_of (df : list audio_row) : list Timestamp :=
  dropna (map date df).

End AudioDaily.

(** ** image_quality_daily.py *)

Module ImageDaily.
Import Pd.

Record image_row : Type := mkImageRow {
  date : option Timestamp;
  file_name : option string;
  blur_laplacian_var : option Q;
  brightness_mean : option Q;
  contrast_std : option Q;
  file_size_bytes : option Q
}.

Record daily_row : Type := mkDaily {
  d_date : Timestamp;
  n_images : Z;
  blur_mean : option Q;
  blur_p10 : option Q;
  d_brightness_mean : option Q;
  contrast_mean : option Q;
  file_size_mean : option Q
}.

Definition agg (g : Z * list image_row) : daily_row :=
  let '(k, rows) := g in
  mkDaily k
          (count (map file_name rows))
          (mean (map blur_laplacian_var rows))
          (quantile (10 # 100) (map blur_laplacian_var rows))
          (mean (map brightness_mean rows))
          (mean (map contrast_std rows))
          (mean (map file_size_bytes rows)).

Definition aggregate (df : list image_row) : list daily_row :=
  Sort.sort (fun a b => d_date a <=? d_date b)
            (map agg (groupby date df)).

Definition main (input_csv : option (list image_row))
  : outcome (list daily_row) :=
  match input_csv with
  | None => Failed FileNotFoundError
  | Some df =>
      let daily := aggregate df in
      if Zsum (map n_images daily) =? Z.of_nat (length df)
      then Wrote daily
      else Failed AssertionError
  end.

End ImageDaily.

(** ** audio_amplitude_scan_sampled.py

    Amplitudes are IEEE 754 binary32 numbers, the sample type of
    [librosa.load]. *)

Module AmplitudeScan.

Definition prec : Z := 24.
Definition emax : Z := 128.

Definition MAX_FILES_PER_DAY : Z := 25.
Definition MAX_TOTAL_FILES : Z := 50000.
Definition RANDOM_SEED : Z := 42.

Definition zero : spec_float := S754_zero false.

(** [peak / rms if rms > 0 else np.nan] *)
Definition crest_factor_of (rms peak : spec_float) : spec_float :=
  if SFltb zero rms then SFdiv prec emax peak rms else S754_nan.

(** What loading one file gives: an exception, an empty signal
    ([y.size == 0]), or the values of [np.sqrt(np.mean(y ** 2))] and
    [np.max(np.abs(y))]. *)
Record snd_file : Type := mkSnd {
  fp_name : string;
  loaded : result (option (spec_float * spec_float))
}.

Record day_dir : Type := mkDay {
  dir_name : string;
  wavs : list snd_file;                (* [day_dir.glob("*.wav")] *)
  mp3s : list snd_file                 (* [day_dir.glob("*.mp3")] *)
}.

Record file_row : Type := mkRow {
  file : string;
  date : string;
  rms_amplitude : spec_float;
  peak_amplitude : spec_float;
  crest_factor : spec_float
}.

Definition make_row (fp : snd_file) (date_str : string)
           (rms peak : spec_float) : file_row :=
  mkRow (fp_name fp) date_str rms peak (crest_factor_of rms peak).

(** [for fp in files]; the flag says that the global cap was reached. *)
Fixpoint files_loop (date_str : string) (files : list snd_file)
         (rows : list file_row) : list file_row * bool :=
  match files with
  | [] => (rows, false)
  | fp :: rest =>
      match loaded fp with
      | Ok None => files_loop date_str rest rows             (* continue *)
      | Ok (Some (rms, peak)) =>
          let rows' := rows ++ [make_row fp date_str rms peak] in
          if MAX_TOTAL_FILES <=? Z.of_nat (length rows') then (rows', true)
          else files_loop date_str rest rows'
      | Raise _ =>
          if MAX_TOTAL_FILES <=? Z.of_nat (length rows) then (rows, true)
          else files_loop date_str rest rows
      end
  end.

Section Sampling.
(** [random.sample] and the state of the generator it advances. *)
Variable rng : Type.
Variable seed : Z -> rng.
Variable random_sample : rng -> list snd_file -> Z -> list snd_file * rng.

(** [for day_dir in day_dirs] *)
Fixpoint days_loop (g : rng) (day_dirs : list day_dir)
         (rows : list file_row) : list file_row :=
  match day_dirs with
  | [] => rows
  | d :: rest =>
      let date_str := hd EmptyString (Str.split "_" (dir_name d)) in
      let files := wavs d ++ mp3s d in
      match files with
      | [] => days_loop g rest rows                          (* continue *)
      | _ =>
          let '(files, g') :=
            if MAX_FILES_PER_DAY <? Z.of_nat (length files)
            then random_sample g files MAX_FILES_PER_DAY
            else (files, g) in
          let '(rows', _) := files_loop date_str files rows in
          if MAX_TOTAL_FILES <=? Z.of_nat (length rows') then rows'
          else days_loop g' rest rows'
      end
  end.

(** [pd.to_datetime(df["date"], format="%Y-%m-%d", errors="coerce")]
    followed by [dropna(subset=["date"])]. *)
Definition parse_and_drop (rows : list file_row)
  : list (calendar_date * file_row) :=
  flat_map (fun r => match Strptime.strptime (date r) with
                     | Ok d => [(d, r)]
                     | Raise _ => []
                     end) rows.

(** [main], on the day folders under [AUDIO_ROOT] ([None] when the root
    is missing). *)
Definition main (audio_root : option (list day_dir))
  : outcome (list (calendar_date * file_row)) :=
  match audio_root with
  | None => Failed FileNotFoundError
  | Some dirs =>
      let day_dirs :=
        Sort.sort (fun a b => String.leb (dir_name a) (dir_name b)) dirs in
      let rows := days_loop (seed RANDOM_SEED) day_dirs [] in
      match rows with
      | [] => Failed RuntimeError
      | _ => Wrote (parse_and_drop rows)
      end
  end.
End Sampling.

End AmplitudeScan.

(** ** audio_quality.py *)

Module AudioQuality.

Definition AUDIO_EXTENSIONS : list string := [".mp3"; ".wav"; ".flac"].

Section Extract.
(** The tuple [extract_audio_metrics] returns. *)
Variable metrics : Type.

(** One path under the audio root: its first component, its path
    relative to the root, its lower-cased suffix, and what
    [extract_audio_metrics] does on it. *)
Record audio_file : Type := mkFile {
  top : string;
  rel : string;
  suffix_lower : string;
  extracted : result metrics
}.

Inductive worker_result : Type :=
| Row (date : string) (relative_path : string) (m : metrics)
| Error (path : string).

Definition infer_date_from_path (f : audio_file) : string :=
  Str.take 10 (top f).

Definition worker (f : audio_file) : worker_result :=
  match extracted f with
  | Ok m => Row (infer_date_from_path f) (rel f) m
  | Raise _ => Error (rel f)
  end.

Definition is_error (r : worker_result) : bool :=
  match r with Error _ => true | Row _ _ _ => false end.

Definition mem (s : string) (l : list string) : bool :=
  existsb (String.eqb s) l.

(** [main].  [calendar] is [None] when [--calendar] is empty,
    [Some None] when the calendar file is missing, and otherwise the
    dates the file lists.  [files] lists the paths under the root in the
    order in which the pool hands their results back. *)
Definition main (calendar : option (option (list string)))
           (files : list audio_file)
  : outcome (list worker_result * Z) :=
  match calendar with
  | Some None => Failed FileNotFoundError
  | _ =>
      let calendar_dates :=
        match calendar with Some (Some ds) => Some ds | _ => None end in
      let all_files :=
        filter (fun p =>
                  mem (suffix_lower p) AUDIO_EXTENSIONS
                  && match calendar_dates with
                     | None => true
                     | Some ds => mem (infer_date_from_path p) ds
                     end)
               files in
      let results := map worker all_files in
      let rows := filter (fun r => negb (is_error r)) results in
      let errors := Z.of_nat (length (filter is_error results)) in
      Wrote (rows, errors)
  end.
End Extract.

End AudioQuality.

(** ** daily_join.py: loading a daily table *)

Module DailyJoin.

(** A CSV file: its header and its records, cell by cell. *)
Record csv : Type := mkCsv {
  columns : list string;
  records : list (list string)
}.

Record frame : Type := mkFrame {
  f_columns : list string;
  f_date : list (option Z);            (* the parsed ["date"] column *)
  f_records : list (list string)
}.

Fixpoint index_of (c : string) (cols : list string) : option nat :=
  match cols with
  | [] => None
  | c' :: cols' =>
      if String.eqb c' c then Some O else option_map S (index_of c cols')
  end.

Section Load.
(** [pd.to_datetime(..., errors="coerce").dt.date] on a column: for each
    cell the day's ordinal, or NaT.  The column is parsed as a whole, since
    the format [to_datetime] reads the cells in is the one it infers from
    the first of them. *)
Variable to_date : list string -> list (option Z).

(** [load_csv], on what the path holds ([None] when nothing is there). *)
Definition load_csv (path : option csv) : result frame :=
  match path with
  | None => Raise FileNotFoundError
  | Some df =>
      match index_of "date" (columns df) with
      | None => Raise ValueError
      | Some i =>
          Ok (mkFrame (columns df)
                      (to_date (map (fun r => nth i r EmptyString) (records df)))
                      (records df))
      end
  end.
End Load.

End DailyJoin.

(** ** join_audio_quality_and_sensor_daily.py *)

Module SensorJoin.

(** A row of audio_quality_daily.csv, after the dates are parsed. *)
Record aq_row : Type := mkAq {
  aq_date : option Z;
  n_audio : Z
}.

(** A row of audio_sensor_daily.csv, after the dates are parsed and the
    numeric columns coerced ([pd.to_numeric(..., errors="coerce")]). *)
Record sensor_row : Type := mkSensor {
  s_date : option Z;
  dba_mean : option Q;
  n_events : option Q
}.

Record joined_row : Type := mkJoined {
  j_date : option Z;
  j_n_audio : Z;
  j_dba_mean : option Q;
  j_n_events : option Q;
  sensor_missing : bool;
  sensor_present : bool;
  flag_capture_failure_candidate : bool
}.

Definition isna {A : Type} (o : option A) : bool :=
  match o with None => true | Some _ => false end.

Definition same_key (a b : option Z) : bool :=
  match a, b with
  | Some x, Some y => x =? y
  | None, None => true                 (* [merge] matches null keys *)
  | _, _ => false
  end.

(** [aq.merge(asens, on="date", how="left")]: every left row, in order,
    once per right row with its key, or once with nulls. *)
Definition merge_left (aq : list aq_row) (asens : list sensor_row)
  : list (aq_row * option sensor_row) :=
  flat_map
    (fun l =>
       match filter (fun r => same_key (s_date r) (aq_date l)) asens with
       | [] => [(l, None)]
       | ms => map (fun r => (l, Some r)) ms
       end)
    aq.

Definition flags (p : aq_row * option sensor_row) : joined_row :=
  let '(l, r) := p in
  let dba := match r with Some s => dba_mean s | None => None end in
  let ev := match r with Some s => n_events s | None => None end in
  let missing := isna ev in
  mkJoined (aq_date l) (n_audio l) dba ev
           missing (negb missing)
           (match dba with
            | Some v => (n_audio l <=? 2) && Qle_bool 75 v
            | None => false
            end).

(** The script, from the parsed tables to the table it writes. *)
Definition joined (aq : list aq_row) (asens : list sensor_row)
  : outcome (list joined_row) :=
  if negb (Z.of_nat (length (filter (fun r => isna (aq_date r)) aq)) =? 0)
  then Failed AssertionError
  else if negb (Z.of_nat (length (filter (fun r => isna (s_date r)) asens)) =? 0)
  then Failed AssertionError
  else Wrote (map flags (merge_left aq asens)).

End SensorJoin.

(** ** utils.py: the year check and the folder lists built on it *)

Module YearCheck.
Import Utils.

(** The characters [int] strips from both ends of its argument. *)
Definition is_int_space (c : ascii) : bool :=
  let n := nat_of_ascii c in
  ((9 <=? n) && (n <=? 13))%nat || (n =? 32)%nat || (n =? 133)%nat
  || (n =? 160)%nat.

Fixpoint lstrip_int (s : string) : string :=
  match s with
  | EmptyString => EmptyString
  | String a s' => if is_int_space a then lstrip_int s' else s
  end.

Definition strip_int (s : string) : string :=
  Str.rev (lstrip_int (Str.rev (lstrip_int s))).

(** The digits of a decimal literal, with single underscores allowed
    between digits; [prev] says that the character before was a digit. *)
Fixpoint literal_value (prev : bool) (acc : Z) (s : string) : option Z :=
  match s with
  | EmptyString => if prev then Some acc else None
  | String c s' =>
      if Str.is_digit c
      then literal_value true (10 * acc + Str.digit_value c) s'
      else if Ascii.eqb c "_"
           then (if prev then literal_value false acc s' else None)
           else None
  end.

(** [int(s)] *)
Definition int (s : string) : result Z :=
  let t := strip_int s in
  let '(negative, body) :=
    match t with
    | String c b =>
        if Ascii.eqb c "-" then (true, b)
        else if Ascii.eqb c "+" then (false, b)
        else (false, t)
    | EmptyString => (false, t)
    end in
  match literal_value false 0 body with
  | Some v => Ok (if negative then - v else v)
  | None => Raise ValueError
  end.

Definition is_valid_year (date_str : string) : bool :=
  match int (Str.take 4 date_str) with
  | Ok y => (VALID_YEAR_MIN <=? y) && (y <=? VALID_YEAR_MAX)
  | Raise _ => false
  end.

Definition list_valid_folders (root : option node) : result (list string) :=
  candidates <- list_candidate_folders root ;;
  Ok (Str.sorted (filter (fun d => is_valid_year (extract_date d)) candidates)).

Definition list_invalid_year_folders (root : option node)
  : result (list string) :=
  candidates <- list_candidate_folders root ;;
  Ok (Str.sorted
        (filter (fun d => negb (is_valid_year (extract_date d))) candidates)).

End YearCheck.

(** ** folder_pairing.py *)

Module FolderPairing.
Import Utils YearCheck.

(** [sorted(set(l))] *)
Definition sorted_set (l : list string) : list string :=
  Str.sorted (nodup string_dec l).

(** [d in s] *)
Definition mem (d : string) (s : list string) : bool :=
  existsb (String.eqb d) s.

Record pairing_row : Type := mkPairing {
  date : string;
  has_image : bool;
  has_audio : bool;
  pair_status : string
}.

Definition status_of (has_image has_audio : bool) : string :=
  if has_image && has_audio then "paired"
  else if has_image then "image_only"
  else if has_audio then "audio_only"
  else "missing_both".

Record pairing : Type := mkSummary {
  paired_dates : list string;
  img_only_dates : list string;
  snd_only_dates : list string;
  summary : list pairing_row           (* the table written to [OUTPUT_CSV] *)
}.

(** [main], on the two roots. *)
Definition main (img_root snd_root : option node) : result pairing :=
  img_valid_folders <- list_valid_folders img_root ;;
  snd_valid_folders <- list_valid_folders snd_root ;;
  let img_dates := sorted_set (map extract_date img_valid_folders) in
  let snd_dates := sorted_set (map extract_date snd_valid_folders) in
  let img_set := img_dates in
  let snd_set := snd_dates in
  let union := sorted_set (img_set ++ snd_set) in
  Ok (mkSummary
        (Str.sorted (filter (fun d => mem d snd_set) img_set))
        (Str.sorted (filter (fun d => negb (mem d snd_set)) img_set))
        (Str.sorted (filter (fun d => negb (mem d img_set)) snd_set))
        (map (fun d => mkPairing d (mem d img_set) (mem d snd_set)
                                 (status_of (mem d img_set) (mem d snd_set)))
             union)).

End FolderPairing.

(** * Properties *)

(** ** Strings and sorting *)

Lemma sort_perm (A : Type) (leb : A -> A -> bool) (l : list A) :
  Permutation (Sort.sort leb l) l.
Proof.
  assert (Hins : forall x l', Permutation (Sort.insert leb x l') (x :: l')).
  { intros x l'. induction l' as [|y l' IH]; simpl.
    - apply Permutation_refl.
    - destruct (leb x y).
      + apply Permutation_refl.
      + eapply Permutation_trans.
        * apply perm_skip. exact IH.
        * apply perm_swap. }
  induction l as [|x l IH]; simpl.
  - constructor.
  - eapply Permutation_trans; [apply Hins|]. now apply perm_skip.
Qed.

Lemma sorted_in (l : list string) (s : string) :
  In s (Str.sorted l) <-> In s l.
Proof.
  split; apply Permutation_in.
  - apply sort_perm.
  - apply Permutation_sym, sort_perm.
Qed.

(** ** The folder-name pattern *)

Section FolderPattern.
Import Utils Re.

Local Opaque Str.is_digit.

Local Ltac crunch E :=
  repeat first
    [ discriminate E
    | match type of E with
      | context [step _ (_, ?x)] => is_var x; destruct x as [|? x]; cbn in E
      | context [at_eol ?x] => is_var x; destruct x as [|? x]; cbn in E
      | context [match ?x with EmptyString => _ | String _ _ => _ end] =>
          is_var x; destruct x as [|? x]; cbn in E
      | context [if ?b then _ else _] => destruct b eqn:?; cbn in E
      end ].

Lemma ascii_eqb_true (a b : ascii) : Ascii.eqb a b = true -> a = b.
Proof. apply Ascii.eqb_eq. Qed.

Local Ltac chars :=
  repeat match goal with
         | H : (_ || _)%bool = true |- _ =>
             apply orb_prop in H; destruct H as [H | H]
         | H : Ascii.eqb _ _ = true |- _ => apply ascii_eqb_true in H
         end;
  unfold Str.newline in *; subst; try discriminate.

Local Ltac digits :=
  cbn;
  repeat match goal with
         | H : Str.is_digit _ = true |- _ => rewrite H; clear H
         end;
  reflexivity.

Local Ltac shaped :=
  unfold date_shaped; do 8 eexists; split; [|reflexivity]; digits.

Local Ltac drop_last t :=
  match t with
  | String _ EmptyString => constr:(EmptyString)
  | String ?c ?r => let r' := drop_last r in constr:(String c r')
  end.

Local Ltac form :=
  match goal with
  | |- folder_form
         (String ?c1 (String ?c2 (String ?c3 (String ?c4 (String ?c5
         (String ?c6 (String ?c7 (String ?c8 (String ?c9 (String ?c10 _)))))))))) =>
      exists (String c1 (String c2 (String c3 (String c4 (String c5
             (String c6 (String c7 (String c8 (String c9 (String c10 ""))))))))));
      split;
      [ shaped
      | first [ left; reflexivity
              | right; left; reflexivity
              | right; right; reflexivity ] ]
  end.

(** What [FOLDER_PATTERN.match] accepts: the three documented forms, and
    each of them followed by one newline. *)
Lemma folder_pattern_accepts (s : string) :
  is_valid_folder_name s = true ->
  folder_form s \/
  exists s0, folder_form s0 /\ s = (s0 ++ String Str.newline "")%string.
Proof.
  unfold is_valid_folder_name, match_. intro H.
  destruct (run FOLDER_PATTERN (0%nat, s)) as [|st sts] eqn:E; [discriminate|].
  clear H. cbn in E. crunch E; chars.
  all: try solve [ left; form ].
  all: right;
    match goal with
    | |- exists s0, _ /\ ?t = _ =>
        let t' := drop_last t in exists t'; split; [form | reflexivity]
    end.
Qed.

Lemma folder_form_accepted (s : string) :
  folder_form s -> is_valid_folder_name s = true.
Proof.
  intros (d & (y1 & y2 & y3 & y4 & m1 & m2 & d1 & d2 & Hd & ->) & Hs).
  cbn in Hd. repeat (apply andb_prop in Hd; destruct Hd as [? Hd]).
  unfold is_valid_folder_name, match_.
  destruct Hs as [-> | [-> | ->]]; cbn;
    repeat (match goal with
            | H : Str.is_digit _ = true |- _ => rewrite H; clear H
            end; cbn); reflexivity.
Qed.

Lemma folder_form_newline_accepted (s : string) :
  folder_form s ->
  is_valid_folder_name (s ++ String Str.newline "") = true.
Proof.
  intros (d & (y1 & y2 & y3 & y4 & m1 & m2 & d1 & d2 & Hd & ->) & Hs).
  cbn in Hd. repeat (apply andb_prop in Hd; destruct Hd as [? Hd]).
  unfold is_valid_folder_name, match_.
  destruct Hs as [-> | [-> | ->]]; cbn;
    repeat (match goal with
            | H : Str.is_digit _ = true |- _ => rewrite H; clear H
            end; cbn); reflexivity.
Qed.

End FolderPattern.

Section FolderNames.
Import Utils.

(** The documented forms end in a digit, [h] or [l]: never in a newline. *)
Lemma folder_form_no_trailing_newline (s : string) :
  folder_form s -> ~ folder_form (s ++ String Str.newline "").
Proof.
  intros (d & (y1 & y2 & y3 & y4 & m1 & m2 & d1 & d2 & _ & ->) & Hs)
         (d' & (z1 & z2 & z3 & z4 & n1 & n2 & e1 & e2 & _ & ->) & Hs').
  unfold Str.newline in Hs'.
  destruct Hs as [-> | [-> | ->]]; destruct Hs' as [H | [H | H]];
    cbn in H; discriminate H.
Qed.

(** The exact set [is_valid_folder_name] accepts. *)
Lemma is_valid_folder_name_spec (s : string) :
  is_valid_folder_name s = true <->
  folder_form s \/
  exists s0, folder_form s0 /\ s = (s0 ++ String Str.newline "")%string.
Proof.
  split.
  - apply folder_pattern_accepts.
  - intros [H | (s0 & H & ->)].
    + now apply folder_form_accepted.
    + now apply folder_form_newline_accepted.
Qed.

Lemma digit_not_underscore (c : ascii) :
  Str.is_digit c = true -> Ascii.eqb c "_" = false.
Proof.
  destruct c as [[] [] [] [] [] [] [] []]; intro H;
    first [reflexivity | discriminate H].
Qed.

(** A date-shaped text holds no underscore. *)
Lemma date_shaped_no_underscore (d : string) :
  date_shaped d -> Str.contains "_" d = false.
Proof.
  intros (y1 & y2 & y3 & y4 & m1 & m2 & d1 & d2 & Hd & ->).
  cbn [forallb] in Hd. repeat (apply andb_prop in Hd; destruct Hd as [? Hd]).
  cbn [string_of_list_ascii Str.contains].
  repeat match goal with
         | H : Str.is_digit ?c = true |- _ =>
             rewrite (digit_not_underscore c H); clear H
         end.
  reflexivity.
Qed.

Lemma str_app_nil_r (a : string) : (a ++ "")%string = a.
Proof. induction a as [|x a IH]; simpl; [reflexivity | now rewrite IH]. Qed.

Lemma str_app_assoc (a b c : string) :
  ((a ++ b) ++ c)%string = (a ++ (b ++ c))%string.
Proof. induction a as [|x a IH]; simpl; [reflexivity | now rewrite IH]. Qed.

Lemma contains_app (c : ascii) (a b : string) :
  Str.contains c (a ++ b) = Str.contains c a || Str.contains c b.
Proof.
  induction a as [|x a IH]; simpl; [reflexivity|].
  rewrite IH. apply orb_assoc.
Qed.

Lemma split_without_sep (c : ascii) (a : string) :
  Str.contains c a = false -> Str.split c a = [a].
Proof.
  induction a as [|x a IH]; simpl; [reflexivity|].
  intro H. apply orb_false_elim in H. destruct H as [Hx Ha].
  rewrite Hx, (IH Ha). reflexivity.
Qed.

Lemma split_at_sep (c : ascii) (a b : string) :
  Str.contains c a = false ->
  Str.split c (a ++ String c b) = a :: Str.split c b.
Proof.
  induction a as [|x a IH]; simpl.
  - intros _. now rewrite Ascii.eqb_refl.
  - intro H. apply orb_false_elim in H. destruct H as [Hx Ha].
    rewrite Hx, (IH Ha). reflexivity.
Qed.

(** The name of a candidate folder parses: its text before the underscore,
    or the whole of it, and the quality after it. *)
Lemma parse_accepted (s : string) :
  is_valid_folder_name s = true ->
  parse_folder_name s = Ok (extract_date s, quality_of s).
Proof.
  intro H. apply folder_pattern_accepts in H.
  assert (Hsep : forall d q,
             date_shaped d -> Str.contains "_" q = false ->
             parse_folder_name (d ++ String "_" q)
             = Ok (extract_date (d ++ String "_" q),
                   quality_of (d ++ String "_" q))).
  { intros d q Hd Hq. apply date_shaped_no_underscore in Hd.
    assert (E : parse_folder_name (d ++ String "_" q) = Ok (d, q)).
    { unfold parse_folder_name.
      rewrite contains_app, Hd. cbn [Str.contains orb].
      rewrite Ascii.eqb_refl. cbn [orb].
      rewrite (@split_at_sep _ _ q Hd), (@split_without_sep _ _ Hq). reflexivity. }
    unfold quality_of, extract_date. rewrite E.
    rewrite (@split_at_sep _ _ q Hd). reflexivity. }
  assert (Hn : forall d q,
             date_shaped d -> Str.contains "_" q = false ->
             parse_folder_name (d ++ q)
             = Ok (extract_date (d ++ q), quality_of (d ++ q))).
  { intros d q Hd Hq. apply date_shaped_no_underscore in Hd.
    assert (Hc : Str.contains "_" (d ++ q) = false)
      by (rewrite contains_app, Hd, Hq; reflexivity).
    unfold quality_of, extract_date, parse_folder_name.
    rewrite Hc, (@split_without_sep _ _ Hc). reflexivity. }
  destruct H as [(d & Hd & Hs) | (s0 & (d & Hd & Hs) & ->)].
  - destruct Hs as [-> | [-> | ->]].
    + rewrite <- (str_app_nil_r d). now apply Hn.
    + now apply (Hsep d "h").
    + now apply (Hsep d "l").
  - destruct Hs as [-> | [-> | ->]].
    + now apply Hn.
    + rewrite str_app_assoc. now apply (Hsep d (String "h" (String Str.newline ""))).
    + rewrite str_app_assoc. now apply (Hsep d (String "l" (String Str.newline ""))).
Qed.

(** The scanner's loop splits the candidates in two: each goes to the valid
    list when its date is valid, and to the invalid list otherwise. *)
Lemma scan_loop_partition (root : option node) (m : modality)
      (cands : list string) (v : list valid_record) (i : list invalid_record) :
  Forall (fun d => is_valid_folder_name d = true) cands ->
  scan_loop root m cands (v, i)
  = Ok (v ++ map (valid_of root m)
               (filter (fun d => is_valid_date (extract_date d)) cands),
        i ++ map (invalid_of root m)
               (filter (fun d => negb (is_valid_date (extract_date d))) cands)).
Proof.
  intro H. revert v i.
  induction H as [|d cands Hd _ IH]; intros v i; simpl.
  - now rewrite !app_nil_r.
  - unfold scan_step. rewrite (parse_accepted _ Hd). cbn [bind].
    destruct (compute_folder_stats (Fs.join root d)) as [c t] eqn:Ec.
    assert (Ev : valid_of root m d
                 = mkValid (extract_date d) m (quality_of d) c t)
      by (unfold valid_of; now rewrite Ec).
    assert (Ei : invalid_of root m d
                 = mkInvalid d (extract_date d) m (quality_of d) c t
                             "invalid_year_or_bad_date")
      by (unfold invalid_of; now rewrite Ec).
    destruct (is_valid_date (extract_date d)); cbn [bind negb map];
      rewrite IH, <- app_assoc; cbn [app]; now rewrite ?Ev, ?Ei.
Qed.

Lemma candidates_accepted (root : option node) (cands : list string) :
  list_candidate_folders root = Ok cands ->
  Forall (fun d => is_valid_folder_name d = true) cands.
Proof.
  unfold list_candidate_folders.
  destruct (Fs.listdir root) as [entries | e].
  - intro H. injection H as <-. apply Forall_forall. intros d Hd.
    apply sorted_in, filter_In in Hd. destruct Hd as [_ Hd].
    now apply andb_prop in Hd.
  - destruct e; try discriminate. intro H. injection H as <-. constructor.
Qed.

(** The candidates of a root: its sub-directories with an accepted name. *)
Lemma candidates_spec (es : list (string * node)) (d : string) :
  exists cands,
    list_candidate_folders (Some (Dir es)) = Ok cands /\
    (In d cands <->
     In d (map fst es) /\ is_valid_folder_name d = true
     /\ Fs.isdir (Fs.join (Some (Dir es)) d) = true).
Proof.
  eexists. split; [reflexivity|].
  rewrite sorted_in, filter_In, andb_true_iff. reflexivity.
Qed.

(** The scanner never fails on a root that is a directory or is missing, and
    its two lists split the candidates. *)
Lemma scan_modality_root_partition (root : option node) (m : modality)
      (cands : list string) :
  list_candidate_folders root = Ok cands ->
  scan_modality_root root m
  = Ok (map (valid_of root m)
            (filter (fun d => is_valid_date (extract_date d)) cands),
        map (invalid_of root m)
            (filter (fun d => negb (is_valid_date (extract_date d))) cands)).
Proof.
  intro H. unfold scan_modality_root. rewrite H. cbn [bind].
  now rewrite (scan_loop_partition root m nil nil (candidates_accepted root H)).
Qed.

(** *** The date check *)

Lemma digit_in_digits (c : ascii) :
  Str.is_digit c = true -> In c Strptime.digits.
Proof.
  destruct c as [[] [] [] [] [] [] [] []]; intro H;
    first [discriminate H | simpl; tauto].
Qed.

Lemma md_agree_all_true : Strptime.md_agree_all = true.
Proof. vm_compute. reflexivity. Qed.

Lemma md_parsed_expected (m1 m2 d1 d2 : ascii) :
  Str.is_digit m1 = true -> Str.is_digit m2 = true ->
  Str.is_digit d1 = true -> Str.is_digit d2 = true ->
  Strptime.md_parsed m1 m2 d1 d2 = Strptime.md_expected m1 m2 d1 d2.
Proof.
  intros H1 H2 H3 H4.
  pose proof md_agree_all_true as H. unfold Strptime.md_agree_all in H.
  rewrite forallb_forall in H. specialize (H m1 (digit_in_digits _ H1)).
  rewrite forallb_forall in H. specialize (H m2 (digit_in_digits _ H2)).
  rewrite forallb_forall in H. specialize (H d1 (digit_in_digits _ H3)).
  rewrite forallb_forall in H. specialize (H d2 (digit_in_digits _ H4)).
  unfold Strptime.md_agree in H.
  destruct (Strptime.md_parsed m1 m2 d1 d2) as [[m d]|],
           (Strptime.md_expected m1 m2 d1 d2) as [[m' d']|];
    try discriminate H; [|reflexivity].
  apply andb_prop in H. destruct H as [Hm Hd].
  apply Z.eqb_eq in Hm. apply Z.eqb_eq in Hd. now subst.
Qed.

Lemma run_year (y1 y2 y3 y4 : ascii) (rest : string) :
  forallb Str.is_digit [y1; y2; y3; y4] = true ->
  Re.run Strptime.re_Y
         (0%nat, String y1 (String y2 (String y3 (String y4 rest))))
  = [(4%nat, rest)].
Proof.
  intro H. cbn [forallb] in H.
  repeat (apply andb_prop in H; destruct H as [? H]).
  unfold Strptime.re_Y. cbn [Re.run Re.iter Re.step flat_map app].
  repeat (match goal with
          | Hd : Str.is_digit _ = true |- _ => rewrite Hd; clear Hd
          end; cbn [Re.run Re.iter Re.step flat_map app]).
  reflexivity.
Qed.

Lemma int_of_digits4 (a b c d : ascii) :
  Str.int_of_digits (String a (String b (String c (String d ""))))
  = Strptime.num4 a b c d.
Proof.
  unfold Str.int_of_digits, Strptime.num4.
  cbn [list_ascii_of_string fold_left]. lia.
Qed.

(** [strptime] on a date-shaped text: the year is its first four digits,
    and the month and the day are read when they lie in [1..12] and
    [1..31]. *)
Lemma strptime_shaped (y1 y2 y3 y4 m1 m2 d1 d2 : ascii) :
  forallb Str.is_digit [y1; y2; y3; y4; m1; m2; d1; d2] = true ->
  Strptime.strptime
    (String y1 (String y2 (String y3 (String y4
       (Strptime.md_text m1 m2 d1 d2)))))
  = match Strptime.md_expected m1 m2 d1 d2 with
    | Some (m, d) => make_date (Strptime.num4 y1 y2 y3 y4) m d
    | None => Raise ValueError
    end.
Proof.
  intro H.
  assert (Hy : forallb Str.is_digit [y1; y2; y3; y4] = true).
  { cbn [forallb] in *.
    repeat (apply andb_prop in H; destruct H as [? H]).
    repeat match goal with
           | Hd : Str.is_digit _ = true |- _ => rewrite Hd; clear Hd
           end.
    reflexivity. }
  cbn [forallb] in H.
  repeat (apply andb_prop in H; destruct H as [? H]).
  rewrite <- md_parsed_expected by assumption.
  unfold Strptime.strptime, Strptime.md_parsed, Strptime.format_groups.
  change (Re.groups (Strptime.re_Y :: ?rs) ?st)
    with (flat_map
            (fun st' =>
               map (fun '(caps, st'') =>
                      (Str.take (fst st' - fst st) (snd st) :: caps, st''))
                   (Re.groups rs st'))
            (Re.run Strptime.re_Y st)).
  rewrite (run_year _ _ _ _ _ Hy).
  cbn [flat_map fst snd]. rewrite app_nil_r.
  destruct (Re.groups _ (4%nat, Strptime.md_text m1 m2 d1 d2))
    as [|[caps [pos r]] l]; [reflexivity|].
  cbn [map].
  change (Str.take (4 - 0)
            (String y1 (String y2 (String y3 (String y4
               (Strptime.md_text m1 m2 d1 d2))))))
    with (String y1 (String y2 (String y3 (String y4 "")))).
  change (String.length
            (String y1 (String y2 (String y3 (String y4
               (Strptime.md_text m1 m2 d1 d2))))))
    with 10%nat.
  destruct caps as [|c1 [|c2 [|c3 [|c4 [|c5 caps]]]]]; try reflexivity.
  rewrite int_of_digits4. destruct (pos =? 10)%nat; reflexivity.
Qed.

Lemma days_in_month_bounds (y m : Z) : 28 <= days_in_month y m <= 31.
Proof.
  unfold days_in_month.
  destruct (is_leap y); destruct m as [|p|p]; try lia;
    do 4 (try (destruct p as [p|p|]; cbn)); lia.
Qed.

(** The date check accepts a date-shaped text exactly when it names a real
    calendar date whose year lies in the valid range. *)
Lemma is_valid_date_spec (y1 y2 y3 y4 m1 m2 d1 d2 : ascii) :
  forallb Str.is_digit [y1; y2; y3; y4; m1; m2; d1; d2] = true ->
  is_valid_date
    (string_of_list_ascii
       [y1; y2; y3; y4; "-"%char; m1; m2; "-"%char; d1; d2]) = true
  <-> real_date_in_range (Strptime.num4 y1 y2 y3 y4)
                         (Strptime.num2 m1 m2) (Strptime.num2 d1 d2).
Proof.
  intro H. unfold is_valid_date.
  change (string_of_list_ascii
            [y1; y2; y3; y4; "-"%char; m1; m2; "-"%char; d1; d2])
    with (String y1 (String y2 (String y3 (String y4
            (Strptime.md_text m1 m2 d1 d2))))).
  rewrite (strptime_shaped _ _ _ _ _ _ _ _ H).
  unfold Strptime.md_expected, real_date_in_range, make_date.
  set (y := Strptime.num4 y1 y2 y3 y4).
  set (m := Strptime.num2 m1 m2).
  set (d := Strptime.num2 d1 d2).
  unfold VALID_YEAR_MIN, VALID_YEAR_MAX.
  pose proof (days_in_month_bounds y m) as Hdim.
  destruct ((1 <=? m) && (m <=? 12) && (1 <=? d) && (d <=? 31)) eqn:E.
  - apply andb_prop in E. destruct E as [E E4].
    apply andb_prop in E. destruct E as [E E3].
    apply andb_prop in E. destruct E as [E1 E2].
    apply Z.leb_le in E1, E2, E3, E4.
    destruct ((1 <=? y) && (y <=? 9999) && (1 <=? m) && (m <=? 12)
              && (1 <=? d) && (d <=? days_in_month y m)) eqn:E'.
    + cbn [year].
      repeat (apply andb_prop in E'; destruct E' as [E' ?]).
      rewrite andb_true_iff, !Z.leb_le.
      repeat match goal with
             | Hb : (_ <=? _) = true |- _ => apply Z.leb_le in Hb
             end.
      lia.
    + split; [discriminate|]. intro Hr. exfalso.
      assert (Ht : (1 <=? y) && (y <=? 9999) && (1 <=? m) && (m <=? 12)
                   && (1 <=? d) && (d <=? days_in_month y m) = true).
      { rewrite !andb_true_iff, !Z.leb_le. lia. }
      congruence.
  - split; [discriminate|]. intro Hr. exfalso.
    assert (Ht : (1 <=? m) && (m <=? 12) && (1 <=? d) && (d <=? 31) = true).
    { rewrite !andb_true_iff, !Z.leb_le. lia. }
    congruence.
Qed.


(** The date portion of a name of a documented form. *)
Lemma extract_date_form (d suffix : string) :
  date_shaped d ->
  suffix = "" \/ suffix = "_h" \/ suffix = "_l" ->
  extract_date (d ++ suffix) = d.
Proof.
  intros Hd Hs. apply date_shaped_no_underscore in Hd. unfold extract_date.
  destruct Hs as [-> | [-> | ->]].
  - rewrite str_app_nil_r, (@split_without_sep _ _ Hd). reflexivity.
  - rewrite (@split_at_sep _ _ "h" Hd). reflexivity.
  - rewrite (@split_at_sep _ _ "l" Hd). reflexivity.
Qed.

(** On the folders whose names have a documented form, the scanner does what
    is asked of it: such a sub-directory of the root is a candidate, the
    candidates are split between the two lists, and the folder goes to the
    valid one exactly when its date portion is a real calendar date whose
    year lies in the valid range. *)
Lemma scan_documented_form (es : list (string * node)) (m : modality)
      (y1 y2 y3 y4 m1 m2 d1 d2 : ascii) (suffix : string) :
  let root := Some (Dir es) in
  let d := string_of_list_ascii
             [y1; y2; y3; y4; "-"%char; m1; m2; "-"%char; d1; d2] in
  let name := (d ++ suffix)%string in
  forallb Str.is_digit [y1; y2; y3; y4; m1; m2; d1; d2] = true ->
  suffix = "" \/ suffix = "_h" \/ suffix = "_l" ->
  In name (map fst es) ->
  Fs.isdir (Fs.join root name) = true ->
  exists cands,
    list_candidate_folders root = Ok cands /\
    In name cands /\
    scan_modality_root root m
    = Ok (map (valid_of root m)
              (filter (fun f => is_valid_date (extract_date f)) cands),
          map (invalid_of root m)
              (filter (fun f => negb (is_valid_date (extract_date f))) cands)) /\
    (is_valid_date (extract_date name) = true
     <-> real_date_in_range (Strptime.num4 y1 y2 y3 y4)
                            (Strptime.num2 m1 m2) (Strptime.num2 d1 d2)).
Proof.
  intros root d name Hdig Hsuf Hin Hdir.
  assert (Hshape : date_shaped d).
  { exists y1, y2, y3, y4, m1, m2, d1, d2. split; [exact Hdig | reflexivity]. }
  assert (Hform : folder_form name).
  { exists d. split; [exact Hshape|]. unfold name.
    destruct Hsuf as [-> | [-> | ->]]; [left | right; left | right; right];
      first [reflexivity | apply str_app_nil_r]. }
  destruct (candidates_spec es name) as (cands & Hc & Hmem).
  exists cands. split; [exact Hc|]. split; [|split].
  - apply Hmem. repeat split; auto. now apply folder_form_accepted.
  - now apply scan_modality_root_partition.
  - unfold name. rewrite (extract_date_form Hshape Hsuf).
    now apply is_valid_date_spec.
Qed.

(** C5: [is_valid_folder_name] is meant to accept exactly [YYYY-MM-DD],
    [YYYY-MM-DD_h] and [YYYY-MM-DD_l].  It accepts ['2023-13-01'] and
    rejects ['20230101'] as stated, but it also accepts ['2023-01-01\n'],
    which has none of the three forms: [$] matches before a final
    newline. *)
Theorem C5_is_valid_folder_name_trailing_newline :
  is_valid_folder_name "2023-13-01" = true /\
  is_valid_folder_name "20230101" = false /\
  is_valid_folder_name ("2023-01-01" ++ String Str.newline "") = true /\
  ~ folder_form ("2023-01-01" ++ String Str.newline "").
Proof.
  repeat split; try reflexivity.
  apply folder_form_no_trailing_newline.
  exists "2023-01-01". split.
  - exists "2"%char, "0"%char, "2"%char, "3"%char,
           "0"%char, "1"%char, "0"%char, "1"%char.
    split; reflexivity.
  - left. reflexivity.
Qed.

(** C2: the scanner is meant to leave every folder whose name is not of
    the form [YYYY-MM-DD[_h|_l]] out of both lists.  A folder named
    ['2023-01-01_h\n'] is not of that form, yet it is listed as valid,
    with quality ['h\n']. *)
Theorem C2_scan_modality_root_lists_unpatterned_folder :
  let name := ("2023-01-01_h" ++ String Str.newline "")%string in
  ~ folder_form name /\
  scan_modality_root (Some (Dir [(name, Dir [])])) image
  = Ok ([mkValid "2023-01-01" image ("h" ++ String Str.newline "") 0 0], []).
Proof.
  split.
  - apply folder_form_no_trailing_newline.
    exists "2023-01-01". split.
    + exists "2"%char, "0"%char, "2"%char, "3"%char,
             "0"%char, "1"%char, "0"%char, "1"%char.
      split; reflexivity.
    + right. left. reflexivity.
  - reflexivity.
Qed.

End FolderNames.

(** ** Missing inputs *)

(** C3, as stated, fails on the Folder Scanner: for a root directory that
    does not exist, [scan_modality_root] raises nothing and returns two
    empty lists. *)
Lemma C3_counterexample_scan_missing_root :
  Fs.exists_ None = false /\
  Utils.scan_modality_root None Utils.image = Ok ([], []) /\
  ~ (exists e, Utils.scan_modality_root None Utils.image = Raise e).
Proof.
  repeat split.
  intros [e He]. discriminate He.
Qed.

(** C3, amended: when their input is missing, the daily aggregators, the
    joiner's [load_csv], the amplitude scan and, for its calendar file, the
    audio extractor raise [FileNotFoundError], and the log parser exits with
    status 1; each of these runs ends with a nonzero exit status and writes
    nothing.  The Folder Scanner instead takes a missing root for an empty
    one and returns two empty lists. *)
Theorem C3_missing_input :
  (forall sqrt, AudioDaily.main sqrt None = Failed FileNotFoundError) /\
  ImageDaily.main None = Failed FileNotFoundError /\
  (forall to_date, DailyJoin.load_csv to_date None = Raise FileNotFoundError) /\
  (forall (rng : Type) (seed : Z -> rng) sample,
      AmplitudeScan.main seed sample None = Failed FileNotFoundError) /\
  (forall json_loads max_lines,
      ParseLogsMain.main json_loads max_lines None = SysExit 1) /\
  (forall (metrics : Type) (files : list (AudioQuality.audio_file metrics)),
      AudioQuality.main (Some None) files = Failed FileNotFoundError) /\
  (forall (T : Type) (e : exn),
      exit_status (@Failed T e) = 1 /\ written (@Failed T e) = None) /\
  (forall T : Type,
      exit_status (@SysExit T 1) = 1 /\ written (@SysExit T 1) = None) /\
  (forall m, Utils.scan_modality_root None m = Ok ([], [])).
Proof.
  repeat split.
Qed.

(** ** Runs that keep no row *)



(** ** Crest factor *)

(** C9: when [rms == 0] the crest factor of the row is NaN (no division
    takes place, so there is neither an error nor an infinity); when
    [rms > 0] it is [peak / rms]. *)
Theorem C9_crest_factor (fp : AmplitudeScan.snd_file) (date_str : string)
        (rms peak : spec_float) :
  (SFeqb rms AmplitudeScan.zero = true ->
   AmplitudeScan.crest_factor (AmplitudeScan.make_row fp date_str rms peak)
   = S754_nan) /\
  (SFltb AmplitudeScan.zero rms = true ->
   AmplitudeScan.crest_factor (AmplitudeScan.make_row fp date_str rms peak)
   = SFdiv AmplitudeScan.prec AmplitudeScan.emax peak rms).
Proof.
  unfold AmplitudeScan.make_row, AmplitudeScan.crest_factor_of; cbn [AmplitudeScan.crest_factor].
  split; intro H.
  - destruct rms as [s | s | | s m e]; try reflexivity;
      destruct s; cbn in H; discriminate H.
  - rewrite H. reflexivity.
Qed.

(** A silent file and a file whose peak equals its rms. *)
Lemma C9_crest_factor_witness :
  let silent := AmplitudeScan.mkSnd "a.wav" (Ok None) in
  let one := S754_finite false 8388608 (-23) in
  AmplitudeScan.crest_factor
    (AmplitudeScan.make_row silent "2024-06-01" (S754_zero false) one)
  = S754_nan /\
  AmplitudeScan.crest_factor
    (AmplitudeScan.make_row silent "2024-06-01" one one)
  = one.
Proof.
  split.
  - apply (proj1 (C9_crest_factor
                    (AmplitudeScan.mkSnd "a.wav" (Ok None)) "2024-06-01"
                    (S754_zero false) (S754_finite false 8388608 (-23)))).
    reflexivity.
  - rewrite (proj2 (C9_crest_factor
                      (AmplitudeScan.mkSnd "a.wav" (Ok None)) "2024-06-01"
                      (S754_finite false 8388608 (-23))
                      (S754_finite false 8388608 (-23)))).
    + vm_compute. reflexivity.
    + reflexivity.
Defined.

(** ** The line cap of the log parser *)

Section LineCap.
Import ParseLogsMain.

Variable json_loads : string -> result json.

Lemma total_lines_process_line (name : string) (st : log_state) (line : string) :
  total_lines (process_line json_loads name st line) = total_lines st + 1.
Proof.
  unfold process_line.
  destruct (String.length (Str.strip line) =? 0)%nat; [reflexivity|].
  destruct (bind _ _); reflexivity.
Qed.

Lemma total_lines_fold (name : string) (lines : list string) (st : log_state) :
  total_lines (fold_left (process_line json_loads name) lines st)
  = total_lines st + Z.of_nat (length lines).
Proof.
  revert st. induction lines as [|l lines IH]; intro st; simpl.
  - lia.
  - rewrite IH, total_lines_process_line. lia.
Qed.

Lemma process_all_app (l1 l2 : list (string * string)) (st : log_state) :
  process_all json_loads (l1 ++ l2) st
  = process_all json_loads l2 (process_all json_loads l1 st).
Proof. unfold process_all. apply fold_left_app. Qed.

Lemma process_all_file (name : string) (lines : list string) (st : log_state) :
  process_all json_loads (map (pair name) lines) st
  = fold_left (process_line json_loads name) lines st.
Proof.
  unfold process_all. revert st.
  induction lines as [|l lines IH]; intro st; simpl; [reflexivity | apply IH].
Qed.

Lemma total_lines_process_all (ls : list (string * string)) (st : log_state) :
  total_lines (process_all json_loads ls st)
  = total_lines st + Z.of_nat (length ls).
Proof.
  unfold process_all. revert st.
  induction ls as [|l ls IH]; intro st; simpl.
  - lia.
  - rewrite IH, total_lines_process_line. lia.
Qed.

(** Without a cap, or with a cap of 0, the inner loop reads every line. *)
Lemma lines_loop_no_cap (max_lines : option Z) (name : string)
      (lines : list string) (st : log_state) :
  max_lines = None \/ max_lines = Some 0 ->
  lines_loop json_loads max_lines name lines st
  = (fold_left (process_line json_loads name) lines st, false).
Proof.
  intro Hm. revert st.
  induction lines as [|l lines IH]; intro st; simpl; [reflexivity|].
  replace (cap_reached max_lines st) with false; [apply IH|].
  destruct Hm as [-> | ->]; reflexivity.
Qed.

Lemma files_loop_no_cap (max_lines : option Z)
      (files : list (string * list string)) (st : log_state) :
  max_lines = None \/ max_lines = Some 0 ->
  files_loop json_loads max_lines files st
  = process_all json_loads (all_lines files) st.
Proof.
  intro Hm. revert st.
  induction files as [|[name lines] files IH]; intro st; simpl; [reflexivity|].
  rewrite (lines_loop_no_cap name lines st Hm), IH.
  rewrite process_all_app, process_all_file. reflexivity.
Qed.

(** With a cap [n > 0], the inner loop reads the lines that the cap leaves
    room for, and returns when one more line is there. *)
Lemma lines_loop_cap (n : Z) (name : string) (lines : list string)
      (st : log_state) :
  0 < n ->
  let k := Z.to_nat (n - total_lines st) in
  lines_loop json_loads (Some n) name lines st
  = (fold_left (process_line json_loads name) (firstn k lines) st,
     (k <? length lines)%nat).
Proof.
  intro Hn. revert st.
  induction lines as [|l lines IH]; intro st; cbn zeta.
  - simpl. rewrite firstn_nil. reflexivity.
  - simpl lines_loop. unfold cap_reached.
    replace (negb (n =? 0)) with true by (symmetry; apply negb_true_iff; lia).
    cbn [andb].
    destruct (n <=? total_lines st) eqn:E.
    + apply Z.leb_le in E.
      replace (Z.to_nat (n - total_lines st)) with 0%nat by lia.
      reflexivity.
    + apply Z.leb_gt in E.
      specialize (IH (process_line json_loads name st l)). cbn zeta in IH.
      rewrite IH, total_lines_process_line.
      replace (Z.to_nat (n - total_lines st))
        with (S (Z.to_nat (n - (total_lines st + 1)))) by lia.
      reflexivity.
Qed.

Lemma files_loop_cap (n : Z) (files : list (string * list string))
      (st : log_state) :
  0 < n ->
  files_loop json_loads (Some n) files st
  = process_all json_loads
      (firstn (Z.to_nat (n - total_lines st)) (all_lines files)) st.
Proof.
  intro Hn. revert st.
  induction files as [|[name lines] files IH]; intro st.
  - simpl. rewrite firstn_nil. reflexivity.
  - simpl files_loop. rewrite (lines_loop_cap name lines st Hn).
    simpl all_lines. rewrite firstn_app, process_all_app, length_map.
    set (k := Z.to_nat (n - total_lines st)).
    destruct (k <? length lines)%nat eqn:E.
    + apply Nat.ltb_lt in E.
      replace (k - length lines)%nat with 0%nat by lia.
      rewrite firstn_map, process_all_file. reflexivity.
    + apply Nat.ltb_ge in E.
      rewrite IH, firstn_map, process_all_file.
      rewrite (firstn_all2 lines) by exact E.
      rewrite total_lines_fold.
      replace (Z.to_nat (n - (total_lines st + Z.of_nat (length lines))))
        with (k - length lines)%nat by (unfold k; lia).
      reflexivity.
Qed.

End LineCap.

(** C10: [--max-lines 0] caps nothing: the run reads every line of every
    log file, as a run without the flag does; [--max-lines n] with [n > 0]
    reads the first [n] lines and no more. *)
Theorem C10_max_lines (json_loads : string -> result json)
        (files : list (string * list string))
        (logs_root : option (list (string * list string))) :
  ParseLogsMain.main json_loads (Some 0) logs_root
  = ParseLogsMain.main json_loads None logs_root /\
  ParseLogsMain.files_loop json_loads (Some 0) files ParseLogsMain.init
  = ParseLogsMain.process_all json_loads (ParseLogsMain.all_lines files)
                              ParseLogsMain.init /\
  ParseLogsMain.total_lines
    (ParseLogsMain.files_loop json_loads (Some 0) files ParseLogsMain.init)
  = Z.of_nat (length (ParseLogsMain.all_lines files)) /\
  (forall n : Z,
      0 < n ->
      ParseLogsMain.files_loop json_loads (Some n) files ParseLogsMain.init
      = ParseLogsMain.process_all json_loads
          (firstn (Z.to_nat n) (ParseLogsMain.all_lines files))
          ParseLogsMain.init /\
      ParseLogsMain.total_lines
        (ParseLogsMain.files_loop json_loads (Some n) files ParseLogsMain.init)
      = Z.min n (Z.of_nat (length (ParseLogsMain.all_lines files)))).
Proof.
  split; [|split; [|split]].
  - unfold ParseLogsMain.main.
    destruct (ParseLogsMain.iter_log_files logs_root) as [|f fs]; [reflexivity|].
    rewrite !files_loop_no_cap by auto. reflexivity.
  - apply files_loop_no_cap. auto.
  - rewrite files_loop_no_cap by auto.
    rewrite total_lines_process_all. reflexivity.
  - intros n Hn. rewrite (files_loop_cap json_loads files ParseLogsMain.init Hn).
    cbn [ParseLogsMain.total_lines ParseLogsMain.init].
    rewrite Z.sub_0_r. split; [reflexivity|].
    rewrite total_lines_process_all, length_firstn.
    cbn [ParseLogsMain.total_lines ParseLogsMain.init]. lia.
Qed.

(** One log file of three lines, capped at two. *)
Lemma C10_max_lines_witness :
  let loads := fun _ : string => Ok (JDict []) in
  let files := [("traffic.txt", ["{}"; "{}"; "{}"])] in
  ParseLogsMain.files_loop loads (Some 2) files ParseLogsMain.init
  = ParseLogsMain.process_all loads
      (firstn 2 (ParseLogsMain.all_lines files)) ParseLogsMain.init /\
  ParseLogsMain.total_lines
    (ParseLogsMain.files_loop loads (Some 2) files ParseLogsMain.init) = 2.
Proof.
  refine (proj2 (proj2 (proj2
            (C10_max_lines (fun _ : string => Ok (JDict []))
                           [("traffic.txt", ["{}"; "{}"; "{}"])] None))) 2 _).
  reflexivity.
Defined.

(** ** Group-by *)

Section GroupByFacts.
Import Pd.

Lemma Zsum_from (l : list Z) (a : Z) : fold_left Z.add l a = a + Zsum l.
Proof.
  unfold Zsum. revert a.
  induction l as [|x l IH]; intro a; simpl.
  - lia.
  - rewrite IH, (IH x). lia.
Qed.

Lemma Zsum_cons (x : Z) (l : list Z) : Zsum (x :: l) = x + Zsum l.
Proof. unfold Zsum at 1. simpl. apply Zsum_from. Qed.

Lemma Zsum_perm (l l' : list Z) : Permutation l l' -> Zsum l = Zsum l'.
Proof.
  induction 1 as [| x l l' _ IH | x y l | l l' l'' _ IH1 _ IH2].
  - reflexivity.
  - rewrite !Zsum_cons, IH. reflexivity.
  - rewrite !Zsum_cons. lia.
  - now rewrite IH1.
Qed.

Lemma in_insert_key (k x : Z) (l : list Z) :
  In k (insert_key x l) <-> k = x \/ In k l.
Proof.
  induction l as [|y l IH]; simpl.
  - intuition.
  - destruct (x <? y); [simpl; intuition|].
    destruct (x =? y) eqn:E.
    + apply Z.eqb_eq in E. subst y. simpl. intuition.
    + simpl. rewrite IH. intuition.
Qed.

Lemma insert_key_sorted (x : Z) (l : list Z) :
  StronglySorted Z.lt l -> StronglySorted Z.lt (insert_key x l).
Proof.
  induction 1 as [|y l Hs IH Hy]; simpl.
  - constructor; constructor.
  - destruct (x <? y) eqn:E1.
    + apply Z.ltb_lt in E1. constructor.
      * now constructor.
      * constructor; [exact E1|].
        rewrite Forall_forall in *. intros z Hz. specialize (Hy z Hz). lia.
    + destruct (x =? y) eqn:E2.
      * now constructor.
      * apply Z.ltb_ge in E1. apply Z.eqb_neq in E2.
        constructor; [exact IH|].
        rewrite Forall_forall in *. intros z Hz.
        apply in_insert_key in Hz. destruct Hz as [-> | Hz]; [lia | now apply Hy].
Qed.

Lemma sorted_lt_nodup (l : list Z) : StronglySorted Z.lt l -> NoDup l.
Proof.
  induction 1 as [|y l Hs IH Hy]; constructor; [|exact IH].
  intro Hin. rewrite Forall_forall in Hy. specialize (Hy y Hin). lia.
Qed.

Variable R : Type.
Variable key : R -> option Z.

Lemma keys_sorted (df : list R) : StronglySorted Z.lt (keys key df).
Proof.
  unfold keys. induction (dropna (map key df)) as [|k l IH]; simpl.
  - constructor.
  - now apply insert_key_sorted.
Qed.

Lemma keys_nodup (df : list R) : NoDup (keys key df).
Proof. apply sorted_lt_nodup, keys_sorted. Qed.

Lemma in_dropna (A : Type) (l : list (option A)) (a : A) :
  In a (dropna l) <-> In (Some a) l.
Proof.
  induction l as [|[b|] l IH]; simpl.
  - tauto.
  - rewrite IH. split; intros [H | H]; auto; left; congruence.
  - rewrite IH. split; [auto | intros [H | H]; [discriminate | exact H]].
Qed.

Lemma in_keys (df : list R) (k : Z) :
  In k (keys key df) <-> In k (dropna (map key df)).
Proof.
  unfold keys. induction (dropna (map key df)) as [|x l IH]; simpl.
  - tauto.
  - rewrite in_insert_key, IH. intuition.
Qed.

Lemma group_app (k : Z) (a b : list R) :
  group key k (a ++ b) = group key k a ++ group key k b.
Proof. apply filter_app. Qed.

Lemma group_absent (k : Z) (df : list R) :
  ~ In k (dropna (map key df)) -> group key k df = [].
Proof.
  intro H. unfold group.
  induction df as [|r df IH]; simpl; [reflexivity|].
  unfold has_key at 1. simpl in H.
  destruct (key r) as [k'|] eqn:E.
  - simpl in H. destruct (k' =? k) eqn:E'.
    + apply Z.eqb_eq in E'. exfalso. apply H. now left.
    + apply IH. intro. apply H. now right.
  - now apply IH.
Qed.

(** The keys of a frame made of two parts with no key in common. *)
Lemma keys_app_perm (a b : list R) :
  (forall k, In k (dropna (map key a)) -> ~ In k (dropna (map key b))) ->
  Permutation (keys key (a ++ b)) (keys key a ++ keys key b).
Proof.
  intro Hdisj. apply NoDup_Permutation.
  - apply keys_nodup.
  - apply NoDup_app.
    + apply keys_nodup.
    + apply keys_nodup.
    + intros k Ha Hb. apply in_keys in Ha. apply in_keys in Hb.
      exact (Hdisj k Ha Hb).
  - intro k. rewrite in_app_iff, !in_keys, !in_dropna, map_app, in_app_iff.
    reflexivity.
Qed.

(** Grouping the concatenation of two parts with no key in common gives the
    groups of the first and the groups of the second. *)
Lemma groupby_app_perm (a b : list R) :
  (forall k, In k (dropna (map key a)) -> ~ In k (dropna (map key b))) ->
  Permutation (groupby key (a ++ b)) (groupby key a ++ groupby key b).
Proof.
  intro Hdisj. unfold groupby.
  eapply Permutation_trans.
  - apply Permutation_map. apply keys_app_perm. exact Hdisj.
  - rewrite map_app. apply Permutation_app; apply Permutation_refl'.
    + apply map_ext_in. intros k Hk. apply in_keys in Hk.
      rewrite group_app, (group_absent k b (Hdisj k Hk)), app_nil_r.
      reflexivity.
    + apply map_ext_in. intros k Hk. apply in_keys in Hk.
      rewrite group_app, (group_absent k a), app_nil_l; [reflexivity|].
      intro Ha. exact (Hdisj k Ha Hk).
Qed.

End GroupByFacts.

(** ** Counting the rows of the groups *)

Section GroupCounts.
Import Pd.

Variable R : Type.
Variable key : R -> option Z.
Variable A : Type.
Variable col : R -> option A.

Let has_value (r : R) : bool := notna (col r).
Let keyed (r : R) : bool := notna (key r).

Lemma count_as_filter (l : list R) :
  count (map col l) = Z.of_nat (length (filter has_value l)).
Proof.
  unfold count. f_equal.
  induction l as [|r l IH]; simpl; [reflexivity|].
  unfold has_value, notna at 1. destruct (col r); simpl; now rewrite IH.
Qed.

Lemma filter_twice (p q : R -> bool) (l : list R) :
  filter q (filter p l) = filter (fun r => p r && q r) l.
Proof.
  induction l as [|r l IH]; simpl; [reflexivity|].
  destruct (p r); simpl; [destruct (q r)|]; now rewrite IH.
Qed.

Lemma filter_disjoint_length (p q : R -> bool) (l : list R) :
  (forall r, p r = true -> q r = true -> False) ->
  (length (filter p l) + length (filter q l))%nat
  = length (filter (fun r => p r || q r) l).
Proof.
  intro H. induction l as [|r l IH]; simpl; [reflexivity|].
  destruct (p r) eqn:Ep, (q r) eqn:Eq; simpl; try lia.
  exfalso. eauto.
Qed.

Lemma has_key_in (ks : list Z) (r : R) :
  existsb (fun k => has_key key k r) ks = true ->
  exists k, In k ks /\ key r = Some k.
Proof.
  intro H. apply existsb_exists in H. destruct H as (k & Hk & H).
  exists k. split; [exact Hk|].
  unfold has_key in H. destruct (key r) as [k'|]; [|discriminate].
  apply Z.eqb_eq in H. now subst.
Qed.

(** Over distinct keys, the groups count each keyed row once. *)
Lemma sum_group_counts (ks : list Z) (df : list R) :
  NoDup ks ->
  Zsum (map (fun k => count (map col (group key k df))) ks)
  = Z.of_nat
      (length (filter (fun r => existsb (fun k => has_key key k r) ks && has_value r)
                      df)).
Proof.
  induction 1 as [|k ks Hk Hnd IH]; simpl map.
  - simpl. unfold Zsum. simpl. induction df; simpl; auto.
  - rewrite Zsum_cons, IH, count_as_filter. unfold group.
    rewrite filter_twice, <- Nat2Z.inj_add. f_equal.
    rewrite filter_disjoint_length.
    + apply f_equal, filter_ext. intro r. simpl.
      destruct (has_key key k r), (existsb _ ks), (has_value r); reflexivity.
    + intros r H1 H2.
      apply andb_prop in H1. destruct H1 as [H1 _].
      apply andb_prop in H2. destruct H2 as [H2 _].
      apply has_key_in in H2. destruct H2 as (k' & Hin & Hkey).
      unfold has_key in H1. rewrite Hkey in H1.
      apply Z.eqb_eq in H1. subst k'. contradiction.
Qed.

Lemma keyed_in_keys (df : list R) (r : R) :
  In r df -> existsb (fun k => has_key key k r) (keys key df) = keyed r.
Proof.
  intro Hr. unfold keyed, notna. destruct (key r) as [k|] eqn:E.
  - apply existsb_exists. exists k. split.
    + apply in_keys, in_dropna. rewrite <- E. now apply in_map.
    + unfold has_key. rewrite E. apply Z.eqb_refl.
  - destruct (existsb _ _) eqn:E'; [|reflexivity].
    apply has_key_in in E'. destruct E' as (k & _ & H). congruence.
Qed.

(** The counts of all the groups add up to the number of rows that have a
    key and a value in the counted column. *)
Lemma groupby_counts (df : list R) :
  Zsum (map (fun g => count (map col (snd g))) (groupby key df))
  = Z.of_nat (length (filter (fun r => keyed r && has_value r) df)).
Proof.
  unfold groupby. rewrite map_map. simpl.
  rewrite sum_group_counts by apply keys_nodup.
  f_equal. f_equal. apply filter_ext_in.
  intros r Hr. now rewrite keyed_in_keys.
Qed.

Lemma filter_length_le (p : R -> bool) (l : list R) :
  (length (filter p l) <= length l)%nat.
Proof.
  induction l as [|r l IH]; simpl; [lia|]. destruct (p r); simpl; lia.
Qed.

Lemma filter_length_all (p : R -> bool) (l : list R) :
  length (filter p l) = length l <-> forallb p l = true.
Proof.
  induction l as [|r l IH]; simpl; [tauto|].
  pose proof (filter_length_le p l).
  destruct (p r); simpl.
  - rewrite <- IH. lia.
  - split; [lia | discriminate].
Qed.

End GroupCounts.

(** ** The daily aggregators *)

Section DailyCounts.
Import Pd.

Variable sqrt : Q -> Q.

(** The per-date counts of the audio table add up to the number of rows
    that have a date and a path. *)
Lemma audio_counts (df : list AudioDaily.audio_row) :
  Zsum (map AudioDaily.n_audio (AudioDaily.aggregate sqrt df))
  = Z.of_nat
      (length (filter (fun r => notna (AudioDaily.date r)
                                && notna (AudioDaily.relative_path r)) df)).
Proof.
  unfold AudioDaily.aggregate.
  rewrite (Zsum_perm (Permutation_map _ (sort_perm _ _))).
  rewrite map_map.
  etransitivity;
    [| apply (groupby_counts AudioDaily.date AudioDaily.relative_path df)].
  f_equal. apply map_ext. intros [k rows]. reflexivity.
Qed.

Lemma image_counts (df : list ImageDaily.image_row) :
  Zsum (map ImageDaily.n_images (ImageDaily.aggregate df))
  = Z.of_nat
      (length (filter (fun r => notna (ImageDaily.date r)
                                && notna (ImageDaily.file_name r)) df)).
Proof.
  unfold ImageDaily.aggregate.
  rewrite (Zsum_perm (Permutation_map _ (sort_perm _ _))).
  rewrite map_map.
  etransitivity;
    [| apply (groupby_counts ImageDaily.date ImageDaily.file_name df)].
  f_equal. apply map_ext. intros [k rows]. reflexivity.
Qed.

(** Cutting the time of day off the dates changes neither which rows have
    a date nor which have a path. *)
Lemma normalize_keeps_complete (df : list AudioDaily.audio_row) :
  length (filter (fun r => notna (AudioDaily.date r)
                           && notna (AudioDaily.relative_path r))
                 (AudioDaily.normalize_dates df))
  = length (filter (fun r => notna (AudioDaily.date r)
                             && notna (AudioDaily.relative_path r)) df).
Proof.
  unfold AudioDaily.normalize_dates.
  induction df as [|r df IH]; simpl; [reflexivity|].
  destruct (AudioDaily.date r), (AudioDaily.relative_path r); simpl;
    now rewrite IH.
Qed.

Lemma audio_normalized_counts (df : list AudioDaily.audio_row) :
  Zsum (map AudioDaily.n_audio
            (AudioDaily.aggregate sqrt (AudioDaily.normalize_dates df)))
  = Z.of_nat
      (length (filter (fun r => notna (AudioDaily.date r)
                                && notna (AudioDaily.relative_path r)) df)).
Proof. now rewrite audio_counts, normalize_keeps_complete. Qed.

(** The three ways the audio aggregator ends on a file that exists: on a
    table without rows [.dt] raises; otherwise the table is written when
    every row has a date and a path, and the assertion fails when one
    lacks them. *)
Lemma audio_main_cases (df : list AudioDaily.audio_row) :
  AudioDaily.main sqrt (Some df)
  = match df with
    | [] => Failed AttributeError
    | _ =>
        if forallb (fun r => notna (AudioDaily.date r)
                             && notna (AudioDaily.relative_path r)) df
        then Wrote (AudioDaily.aggregate sqrt (AudioDaily.normalize_dates df))
        else Failed AssertionError
    end.
Proof.
  destruct df as [|r0 df0]; [reflexivity|].
  set (df := r0 :: df0). unfold AudioDaily.main. fold df.
  rewrite audio_normalized_counts.
  unfold AudioDaily.normalize_dates. rewrite length_map.
  pose proof (filter_length_all
                (fun r => notna (AudioDaily.date r)
                          && notna (AudioDaily.relative_path r)) df) as H.
  destruct (forallb _ df).
  - rewrite (proj2 H eq_refl). now rewrite Z.eqb_refl.
  - destruct (Z.eqb_spec
                (Z.of_nat (length (filter (fun r => notna (AudioDaily.date r)
                                           && notna (AudioDaily.relative_path r))
                                          df)))
                (Z.of_nat (length df))) as [E | E]; [|reflexivity].
    apply Nat2Z.inj in E. apply H in E. discriminate E.
Qed.

Lemma image_main_writes (df : list ImageDaily.image_row) :
  ImageDaily.main (Some df)
  = if forallb (fun r => notna (ImageDaily.date r)
                         && notna (ImageDaily.file_name r)) df
    then Wrote (ImageDaily.aggregate df)
    else Failed AssertionError.
Proof.
  unfold ImageDaily.main. rewrite image_counts.
  pose proof (filter_length_all
                (fun r => notna (ImageDaily.date r)
                          && notna (ImageDaily.file_name r)) df) as H.
  destruct (forallb _ df).
  - rewrite (proj2 H eq_refl). now rewrite Z.eqb_refl.
  - destruct (Z.eqb_spec
                (Z.of_nat (length (filter (fun r => notna (ImageDaily.date r)
                                           && notna (ImageDaily.file_name r))
                                          df)))
                (Z.of_nat (length df))) as [E | E]; [|reflexivity].
    apply Nat2Z.inj in E. apply H in E. discriminate E.
Qed.

End DailyCounts.

(** C1: in both daily aggregators the per-date counts add up to the number
    of input rows that have a date and a value in the counted column
    ([relative_path], [file_name]); the table is written only when that
    number is the number of all input rows, and it is then the table of the
    groups.  When the two numbers differ the run ends with an
    [AssertionError] before anything is written.  (On an audio table
    without rows the run ends earlier, with the [AttributeError] of [.dt],
    and writes nothing either.) *)
Theorem C1_aggregation_integrity (sqrt : Q -> Q)
        (audio_df : list AudioDaily.audio_row)
        (image_df : list ImageDaily.image_row) :
  (let daily :=
     AudioDaily.aggregate sqrt (AudioDaily.normalize_dates audio_df) in
   Pd.Zsum (map AudioDaily.n_audio daily)
   = Z.of_nat
       (length (filter (fun r => Pd.notna (AudioDaily.date r)
                                 && Pd.notna (AudioDaily.relative_path r))
                       audio_df)) /\
   match AudioDaily.main sqrt (Some audio_df) with
   | Wrote out =>
       out = daily /\
       Pd.Zsum (map AudioDaily.n_audio daily) = Z.of_nat (length audio_df)
   | Failed e =>
       (e = AssertionError /\
        Pd.Zsum (map AudioDaily.n_audio daily) <> Z.of_nat (length audio_df))
       \/ (e = AttributeError /\ audio_df = [])
   | SysExit _ => False
   end) /\
  (let daily := ImageDaily.aggregate image_df in
   Pd.Zsum (map ImageDaily.n_images daily)
   = Z.of_nat
       (length (filter (fun r => Pd.notna (ImageDaily.date r)
                                 && Pd.notna (ImageDaily.file_name r))
                       image_df)) /\
   match ImageDaily.main (Some image_df) with
   | Wrote out =>
       out = daily /\
       Pd.Zsum (map ImageDaily.n_images daily) = Z.of_nat (length image_df)
   | Failed e =>
       e = AssertionError /\
       Pd.Zsum (map ImageDaily.n_images daily) <> Z.of_nat (length image_df)
   | SysExit _ => False
   end).
Proof.
  split; cbv zeta.
  - split; [apply audio_normalized_counts|].
    rewrite audio_main_cases, audio_normalized_counts.
    pose proof (filter_length_all
                  (fun r => Pd.notna (AudioDaily.date r)
                            && Pd.notna (AudioDaily.relative_path r))
                  audio_df) as H.
    destruct audio_df as [|r0 df0]; [right; split; reflexivity|].
    destruct (forallb _ (r0 :: df0)).
    + split; [reflexivity|]. now rewrite (proj2 H eq_refl).
    + left. split; [reflexivity|]. intro E.
      apply Nat2Z.inj in E. apply H in E. discriminate E.
  - split; [apply image_counts|].
    rewrite image_main_writes, image_counts.
    pose proof (filter_length_all
                  (fun r => Pd.notna (ImageDaily.date r)
                            && Pd.notna (ImageDaily.file_name r))
                  image_df) as H.
    destruct (forallb _ image_df).
    + split; [reflexivity|]. now rewrite (proj2 H eq_refl).
    + split; [reflexivity|]. intro E.
      apply Nat2Z.inj in E. apply H in E. discriminate E.
Qed.

Section DailyAdditivity.
Import Pd.

Variable sqrt : Q -> Q.

Lemma aggregate_perm (df : list AudioDaily.audio_row) :
  Permutation (AudioDaily.aggregate sqrt df)
              (map (AudioDaily.agg sqrt) (groupby AudioDaily.date df)).
Proof. apply sort_perm. Qed.

(** One row per date. *)
Lemma aggregate_dates (df : list AudioDaily.audio_row) :
  Permutation (map AudioDaily.d_date (AudioDaily.aggregate sqrt df))
              (keys AudioDaily.date df).
Proof.
  eapply Permutation_trans.
  - apply Permutation_map, aggregate_perm.
  - unfold groupby. rewrite !map_map. simpl. rewrite map_id.
    apply Permutation_refl.
Qed.

Lemma aggregate_app_perm (a b : list AudioDaily.audio_row) :
  (forall d, In d (AudioDaily.dates_of a) -> ~ In d (AudioDaily.dates_of b)) ->
  Permutation (AudioDaily.aggregate sqrt (a ++ b))
              (AudioDaily.aggregate sqrt a ++ AudioDaily.aggregate sqrt b).
Proof.
  intro Hdisj.
  eapply Permutation_trans; [apply aggregate_perm|].
  eapply Permutation_trans.
  - apply Permutation_map, groupby_app_perm. exact Hdisj.
  - rewrite map_app. apply Permutation_sym.
    apply Permutation_app; apply aggregate_perm.
Qed.

End DailyAdditivity.

(** C8: when two parts of a metric table share no date, aggregating their
    concatenation gives, date by date, the counts and the means of the rows
    obtained by aggregating each part on its own; the concatenation has one
    row per date. *)
Theorem C8_aggregate_disjoint_additive (sqrt : Q -> Q)
        (a b : list AudioDaily.audio_row) :
  (forall d, In d (AudioDaily.dates_of a) -> ~ In d (AudioDaily.dates_of b)) ->
  Permutation
    (map AudioDaily.count_and_means (AudioDaily.aggregate sqrt (a ++ b)))
    (map AudioDaily.count_and_means (AudioDaily.aggregate sqrt a)
     ++ map AudioDaily.count_and_means (AudioDaily.aggregate sqrt b)) /\
  NoDup (map AudioDaily.cm_date
             (map AudioDaily.count_and_means
                  (AudioDaily.aggregate sqrt (a ++ b)))).
Proof.
  intro Hdisj. split.
  - rewrite <- map_app. apply Permutation_map.
    now apply aggregate_app_perm.
  - rewrite map_map. simpl.
    eapply Permutation_NoDup.
    + apply Permutation_sym. apply (aggregate_dates sqrt (a ++ b)).
    + apply keys_nodup.
Qed.

(** Two rows of one day and one row of the next. *)
Lemma C8_aggregate_disjoint_additive_witness :
  let r1 := AudioDaily.mkAudioRow (Some 0) (Some "2024-06-01/a.mp3")
              (Some (3 # 1)) (Some (1 # 10)) (Some (1 # 2)) (Some (100 # 1)) in
  let r2 := AudioDaily.mkAudioRow (Some 0) (Some "2024-06-01/b.mp3")
              (Some (5 # 1)) (Some (3 # 10)) None (Some (300 # 1)) in
  let r3 := AudioDaily.mkAudioRow (Some Pd.day_ns) (Some "2024-06-02/c.mp3")
              (Some (4 # 1)) (Some (2 # 10)) (Some (1 # 4)) (Some (200 # 1)) in
  let sqrt := fun q : Q => q in
  Permutation
    (map AudioDaily.count_and_means (AudioDaily.aggregate sqrt ([r1; r2] ++ [r3])))
    (map AudioDaily.count_and_means (AudioDaily.aggregate sqrt [r1; r2])
     ++ map AudioDaily.count_and_means (AudioDaily.aggregate sqrt [r3])) /\
  NoDup (map AudioDaily.cm_date
             (map AudioDaily.count_and_means
                  (AudioDaily.aggregate sqrt ([r1; r2] ++ [r3])))).
Proof.
  intros r1 r2 r3 sqrt.
  apply (C8_aggregate_disjoint_additive sqrt [r1; r2] [r3]).
  intros d Ha Hb. simpl in Ha, Hb.
  destruct Hb as [Hb | []]. subst d.
  destruct Ha as [Ha | [Ha | []]]; discriminate Ha.
Defined.

(** ** The left join of the audio tables *)

Section LeftJoin.
Import SensorJoin.

Lemma same_key_eq (a b : option Z) : same_key a b = true <-> a = b.
Proof.
  destruct a as [x|], b as [y|]; simpl; try (split; congruence).
  rewrite Z.eqb_eq. split; congruence.
Qed.

(** A key the right table does not hold matches none of its rows. *)
Lemma matches_absent (k : option Z) (asens : list sensor_row) :
  ~ In k (map s_date asens) ->
  filter (fun r => same_key (s_date r) k) asens = [].
Proof.
  intro H. induction asens as [|r asens IH]; simpl; [reflexivity|].
  destruct (same_key (s_date r) k) eqn:E.
  - apply same_key_eq in E. exfalso. apply H. now left.
  - apply IH. intro. apply H. now right.
Qed.

(** A key the right table holds once matches exactly one of its rows. *)
Lemma matches_unique (k : option Z) (asens : list sensor_row) :
  NoDup (map s_date asens) ->
  In k (map s_date asens) ->
  exists r, In r asens /\ s_date r = k /\
            filter (fun r => same_key (s_date r) k) asens = [r].
Proof.
  induction asens as [|r asens IH]; simpl; intros Hnd Hin; [contradiction|].
  inversion Hnd as [|? ? Hnotin Hnd']; subst.
  destruct (same_key (s_date r) k) eqn:E.
  - apply same_key_eq in E. exists r. repeat split; auto.
    f_equal. apply matches_absent. now rewrite <- E.
  - destruct Hin as [Hin | Hin].
    + apply same_key_eq in Hin. congruence.
    + destruct (IH Hnd' Hin) as (r' & Hr' & Hk & Hf).
      exists r'. repeat split; auto.
Qed.

Lemma no_nat_dates (A : Type) (f : A -> option Z) (l : list A) (ds : list Z) :
  Permutation (map f l) (map Some ds) ->
  filter (fun r => isna (f r)) l = [].
Proof.
  intro HP. induction l as [|r l IH] in ds, HP |- *; simpl; [reflexivity|].
  assert (Hin : In (f r) (map Some ds)).
  { eapply Permutation_in; [exact HP | now left]. }
  apply in_map_iff in Hin. destruct Hin as (d & Hd & Hin).
  rewrite <- Hd. simpl.
  apply in_split in Hin. destruct Hin as (l1 & l2 & ->).
  apply (IH (l1 ++ l2)).
  simpl in HP. rewrite <- Hd in HP. rewrite map_app in *. simpl in HP.
  apply Permutation_cons_app_inv in HP. exact HP.
Qed.

End LeftJoin.

(** C7: a primary table with the three distinct dates d1, d2, d3 left-joined
    with a secondary table with the dates d1, d3, whose rows all have a
    value in [n_events], gives three rows, the rows of the primary in their
    order, and [sensor_missing] is true on the row of d2 and on no other. *)
Theorem C7_left_join_sensor_missing
        (aq : list SensorJoin.aq_row) (asens : list SensorJoin.sensor_row)
        (d1 d2 d3 : Z) :
  NoDup [d1; d2; d3] ->
  Permutation (map SensorJoin.aq_date aq) [Some d1; Some d2; Some d3] ->
  Permutation (map SensorJoin.s_date asens) [Some d1; Some d3] ->
  Forall (fun s => SensorJoin.n_events s <> None) asens ->
  exists rows,
    SensorJoin.joined aq asens = Wrote rows /\
    length rows = 3%nat /\
    map SensorJoin.j_date rows = map SensorJoin.aq_date aq /\
    forall r, In r rows ->
              (SensorJoin.sensor_missing r = true
               <-> SensorJoin.j_date r = Some d2).
Proof.
  intros Hnd Haq Hs Hev.
  assert (Hd12 : d1 <> d2 /\ d2 <> d3).
  { inversion Hnd as [|? ? H1 Hnd']; subst.
    inversion Hnd' as [|? ? H2 _]; subst. simpl in H1, H2. split; intuition. }
  assert (Hds : NoDup (map SensorJoin.s_date asens)).
  { eapply Permutation_NoDup; [apply Permutation_sym; exact Hs|].
    inversion Hnd as [|? ? H1 _]; subst.
    constructor; [|constructor; [simpl; tauto | constructor]].
    simpl in *. intros [H | []]. apply H1. right. left. congruence. }
  exists (map SensorJoin.flags (SensorJoin.merge_left aq asens)).
  assert (Hrow : forall l, In l aq ->
            exists m,
              filter (fun r => SensorJoin.same_key (SensorJoin.s_date r)
                                                   (SensorJoin.aq_date l)) asens
              = m /\
              ((m = [] /\ SensorJoin.aq_date l = Some d2) \/
               (exists r, m = [r] /\ SensorJoin.n_events r <> None /\
                          SensorJoin.aq_date l <> Some d2))).
  { intros l Hl. eexists. split; [reflexivity|].
    assert (Hin : In (SensorJoin.aq_date l) [Some d1; Some d2; Some d3]).
    { eapply Permutation_in; [exact Haq | now apply in_map]. }
    simpl in Hin. destruct Hin as [H | [H | [H | []]]].
    - right.
      destruct (@matches_unique (SensorJoin.aq_date l) asens Hds) as (r & Hr & _ & Hf).
      { eapply Permutation_in; [apply Permutation_sym; exact Hs|].
        rewrite <- H. now left. }
      exists r. repeat split; [exact Hf | | ].
      + rewrite Forall_forall in Hev. now apply Hev.
      + rewrite <- H. intro E. injection E. tauto.
    - left. split; [|now symmetry].
      apply matches_absent. intro Hin.
      eapply Permutation_in in Hin; [|exact Hs].
      rewrite <- H in Hin. simpl in Hin.
      destruct Hin as [E | [E | []]]; injection E; intuition.
    - right.
      destruct (@matches_unique (SensorJoin.aq_date l) asens Hds) as (r & Hr & _ & Hf).
      { eapply Permutation_in; [apply Permutation_sym; exact Hs|].
        rewrite <- H. right. now left. }
      exists r. repeat split; [exact Hf | | ].
      + rewrite Forall_forall in Hev. now apply Hev.
      + rewrite <- H. intro E. injection E. intuition. }
  assert (Hmerge : SensorJoin.merge_left aq asens
                   = map (fun l =>
                            (l, hd_error
                                  (filter (fun r => SensorJoin.same_key
                                                      (SensorJoin.s_date r)
                                                      (SensorJoin.aq_date l))
                                          asens))) aq).
  { unfold SensorJoin.merge_left. clear Haq.
    induction aq as [|l aq IH]; [reflexivity|].
    cbn [flat_map]. rewrite map_cons.
    rewrite IH by (intros; apply Hrow; now right).
    destruct (Hrow l (or_introl eq_refl)) as (m & <- & [[-> _] | (r & -> & _)]);
      reflexivity. }
  split; [|split; [|split]].
  - unfold SensorJoin.joined.
    rewrite (@no_nat_dates _ SensorJoin.aq_date aq [d1; d2; d3] Haq).
    rewrite (@no_nat_dates _ SensorJoin.s_date asens [d1; d3] Hs).
    reflexivity.
  - rewrite length_map, Hmerge, length_map.
    change 3%nat with (length [Some d1; Some d2; Some d3]).
    rewrite <- (Permutation_length Haq). now rewrite length_map.
  - rewrite Hmerge, !map_map. reflexivity.
  - intros r Hr. rewrite Hmerge, map_map in Hr.
    apply in_map_iff in Hr. destruct Hr as (l & <- & Hl).
    destruct (Hrow l Hl) as (m & <- & [[-> Hd] | (s & -> & Hne & Hd)]); simpl.
    + split; [intros _; exact Hd | reflexivity].
    + destruct (SensorJoin.n_events s); [|congruence]. simpl.
      split; [discriminate | intro; contradiction].
Qed.

(** Three days of recordings, sensor data for the first and the third. *)
Lemma C7_left_join_sensor_missing_witness :
  let aq := [SensorJoin.mkAq (Some 1) 10; SensorJoin.mkAq (Some 2) 1;
             SensorJoin.mkAq (Some 3) 7] in
  let asens := [SensorJoin.mkSensor (Some 3) (Some (60 # 1)) (Some (5 # 1));
                SensorJoin.mkSensor (Some 1) (Some (80 # 1)) (Some (2 # 1))] in
  exists rows,
    SensorJoin.joined aq asens = Wrote rows /\
    length rows = 3%nat /\
    map SensorJoin.j_date rows = map SensorJoin.aq_date aq /\
    forall r, In r rows ->
              (SensorJoin.sensor_missing r = true
               <-> SensorJoin.j_date r = Some 2).
Proof.
  intros aq asens.
  apply (@C7_left_join_sensor_missing aq asens 1 2 3).
  - repeat constructor; simpl; intuition discriminate.
  - apply Permutation_refl.
  - apply perm_swap.
  - repeat constructor; discriminate.
Defined.

(** ** Flattening a log record *)

Section Flatten.
Import Py ParseLogs.

Lemma index_or_none_list (l : list json) (i : nat) :
  index_or_none (JList l) i = Ok (nth i l JNull).
Proof.
  unfold index_or_none. simpl.
  destruct (i <? length l)%nat eqn:E.
  - apply Nat.ltb_lt in E.
    destruct (nth_error l i) as [x|] eqn:En.
    + now rewrite (nth_error_nth l i JNull En).
    + apply nth_error_None in En. lia.
  - apply Nat.ltb_ge in E. now rewrite nth_overflow.
Qed.

Lemma index_or_none_array (v : json) (i : nat) :
  array_or_null v = true ->
  index_or_none (or_empty_list v) i = Ok (elem v i).
Proof.
  destruct v as [| | | | | l |]; try discriminate; intros _.
  - simpl. now destruct i.
  - unfold or_empty_list. simpl truthy.
    destruct l as [|x l]; simpl negb; cbv iota.
    + simpl. now destruct i.
    + apply index_or_none_list.
Qed.

Lemma index_or_none_elem (v : json) (i : nat) :
  is_list v = true -> index_or_none v i = Ok (elem v i).
Proof.
  destruct v; try discriminate. intros _. apply index_or_none_list.
Qed.

Lemma cross_pair_array (v : json) (i : nat) :
  array_or_null v = true ->
  cross_pair (or_empty_list v) i = Ok (elem (elem v i) 0, elem (elem v i) 1).
Proof.
  assert (Hlist : forall l, cross_pair (JList l) i
                            = Ok (elem (nth i l JNull) 0, elem (nth i l JNull) 1)).
  { intro l. unfold cross_pair. simpl.
    destruct (i <? length l)%nat eqn:E.
    - apply Nat.ltb_lt in E.
      destruct (nth_error l i) as [x|] eqn:En.
      + rewrite (nth_error_nth l i JNull En). simpl.
        destruct x; simpl; try reflexivity.
        rewrite !index_or_none_list. reflexivity.
      + apply nth_error_None in En. lia.
    - apply Nat.ltb_ge in E. now rewrite nth_overflow. }
  destruct v as [| | | | | l |]; try discriminate; intros _.
  - simpl. now destruct i.
  - unfold or_empty_list. simpl truthy.
    destruct l as [|x l]; simpl negb; cbv iota.
    + rewrite Hlist. now destruct i.
    + apply Hlist.
Qed.

(** The box is taken for empty unless it is a non-empty array. *)
Lemma box_elem (v : json) (i : nat) :
  index_or_none
    (if is_list (or_empty_list v) then or_empty_list v else JList []) i
  = Ok (elem v i).
Proof.
  destruct (is_list (or_empty_list v)) eqn:E.
  - unfold or_empty_list in *. destruct (truthy v) eqn:Et.
    + now apply index_or_none_elem.
    + rewrite index_or_none_list.
      destruct v as [| | | | | l |]; simpl; try now destruct i.
      destruct l; [now destruct i | discriminate Et].
  - rewrite index_or_none_list.
    unfold or_empty_list in E. destruct (truthy v) eqn:Et; [|discriminate E].
    destruct v; simpl; now destruct i.
Qed.

Lemma frame_dto_shaped (v : json) :
  tokens_at_least 2 v = true ->
  exists d t, date_time_of_frame_dto v = Ok (d, t).
Proof.
  destruct v as [| | | | s | |];
    cbn [tokens_at_least date_time_of_frame_dto];
    try (intros _; now eexists; eexists).
  destruct (Str.contains " " s); [|intros _; now eexists; eexists].
  intro H. apply Nat.leb_le in H.
  destruct (Str.split_ws s) as [|d [|t l]]; cbn [length] in H; try lia.
  cbn [firstn]. now eexists; eexists.
Qed.

Lemma dto_shaped (v : json) (d : option string) :
  tokens_at_least 1 v = true ->
  exists d', date_of_dto d v = Ok d'.
Proof.
  destruct d as [d|]; [intros _; now eexists|].
  destruct v as [| | | | s | |];
    cbn [tokens_at_least date_of_dto]; try (intros _; now eexists).
  destruct (Str.contains " " s); [|intros _; now eexists].
  intro H. apply Nat.leb_le in H.
  destruct (Str.split_ws s) as [|d0 l]; cbn [length] in H; try lia.
  now eexists.
Qed.

End Flatten.

(** C6, as stated, fails: a dictionary whose [intersection] is a number
    flattens to no record ([len] raises [TypeError]), and a dictionary whose
    [dto] is a single space raises [IndexError]. *)
Lemma C6_counterexample_flatten_raises :
  ParseLogs.flatten_log_record (JDict [("intersection", JInt 5)]) "traffic.txt"
  = Raise TypeError /\
  ParseLogs.flatten_log_record (JDict [("dto", JStr " ")]) "traffic.txt"
  = Raise IndexError.
Proof.
  split; reflexivity.
Qed.

(** C6, amended: a JSON log record whose [intersection] and [cross] are
    absent, null or arrays, and whose [frame_dto] and [dto], when they are
    strings with a space, split on whitespace into at least two tokens and
    at least one token, flattens to a record with the fixed column schema,
    in which the box, intersection and cross arrays are destructured into
    their named columns, with null for every position the source lacks.
    The line [{"dto": "2024-06-01 10:00:00", "probs": 0.9, "box": [1,2,3,4]}]
    flattens to [date="2024-06-01"], [box_x1=1], [box_y1=2], [box_x2=3],
    [box_y2=4], [probs=0.9]. *)
Theorem C6_flatten_log_record :
  (forall (kvs : list (string * json)) (log_file : string),
      ParseLogs.well_shaped kvs = true ->
      exists row,
        ParseLogs.flatten_log_record (JDict kvs) log_file = Ok row /\
        map fst row = ParseLogs.fieldnames /\
        Py.get row "box_x1" = ParseLogs.elem (Py.get kvs "box") 0 /\
        Py.get row "box_y1" = ParseLogs.elem (Py.get kvs "box") 1 /\
        Py.get row "box_x2" = ParseLogs.elem (Py.get kvs "box") 2 /\
        Py.get row "box_y2" = ParseLogs.elem (Py.get kvs "box") 3 /\
        Py.get row "intersection_0"
        = ParseLogs.elem (Py.get kvs "intersection") 0 /\
        Py.get row "intersection_1"
        = ParseLogs.elem (Py.get kvs "intersection") 1 /\
        Py.get row "cross_0_0"
        = ParseLogs.elem (ParseLogs.elem (Py.get kvs "cross") 0) 0 /\
        Py.get row "cross_0_1"
        = ParseLogs.elem (ParseLogs.elem (Py.get kvs "cross") 0) 1 /\
        Py.get row "cross_1_0"
        = ParseLogs.elem (ParseLogs.elem (Py.get kvs "cross") 1) 0 /\
        Py.get row "cross_1_1"
        = ParseLogs.elem (ParseLogs.elem (Py.get kvs "cross") 1) 1 /\
        Py.get row "probs" = Py.get kvs "probs" /\
        Py.get row "log_file" = JStr log_file) /\
  (exists row,
      ParseLogs.flatten_log_record
        (JDict [("dto", JStr "2024-06-01 10:00:00");
                ("probs", JFloat 0.9);
                ("box", JList [JInt 1; JInt 2; JInt 3; JInt 4])])
        "traffic.txt" = Ok row /\
      Py.get row "date" = JStr "2024-06-01" /\
      Py.get row "box_x1" = JInt 1 /\
      Py.get row "box_y1" = JInt 2 /\
      Py.get row "box_x2" = JInt 3 /\
      Py.get row "box_y2" = JInt 4 /\
      Py.get row "probs" = JFloat 0.9).
Proof.
  split.
  - intros kvs log_file. unfold ParseLogs.well_shaped. intro H.
    apply andb_prop in H. destruct H as [H Hcross].
    apply andb_prop in H. destruct H as [H Hinter].
    apply andb_prop in H. destruct H as [Hframe Hdto].
    destruct (frame_dto_shaped _ Hframe) as (d & t & Ef).
    destruct (dto_shaped _ d Hdto) as (d' & Ed).
    unfold ParseLogs.flatten_log_record.
    rewrite Ef. cbn [bind]. rewrite Ed. cbn [bind].
    rewrite !(index_or_none_array _ _ Hinter). cbn [bind].
    rewrite !(cross_pair_array _ _ Hcross). cbn [bind].
    rewrite !box_elem. cbn [bind].
    eexists. split; [reflexivity|].
    repeat split.
  - eexists. split; [vm_compute; reflexivity|].
    repeat split.
Qed.

(** The log line of the example is well shaped. *)
Lemma C6_flatten_log_record_witness :
  let kvs := [("dto", JStr "2024-06-01 10:00:00");
              ("probs", JFloat 0.9);
              ("box", JList [JInt 1; JInt 2; JInt 3; JInt 4])] in
  exists row,
    ParseLogs.flatten_log_record (JDict kvs) "traffic.txt" = Ok row /\
    map fst row = ParseLogs.fieldnames /\
    Py.get row "box_x1" = ParseLogs.elem (Py.get kvs "box") 0 /\
    Py.get row "box_y1" = ParseLogs.elem (Py.get kvs "box") 1 /\
    Py.get row "box_x2" = ParseLogs.elem (Py.get kvs "box") 2 /\
    Py.get row "box_y2" = ParseLogs.elem (Py.get kvs "box") 3 /\
    Py.get row "intersection_0"
    = ParseLogs.elem (Py.get kvs "intersection") 0 /\
    Py.get row "intersection_1"
    = ParseLogs.elem (Py.get kvs "intersection") 1 /\
    Py.get row "cross_0_0"
    = ParseLogs.elem (ParseLogs.elem (Py.get kvs "cross") 0) 0 /\
    Py.get row "cross_0_1"
    = ParseLogs.elem (ParseLogs.elem (Py.get kvs "cross") 0) 1 /\
    Py.get row "cross_1_0"
    = ParseLogs.elem (ParseLogs.elem (Py.get kvs "cross") 1) 0 /\
    Py.get row "cross_1_1"
    = ParseLogs.elem (ParseLogs.elem (Py.get kvs "cross") 1) 1 /\
    Py.get row "probs" = Py.get kvs "probs" /\
    Py.get row "log_file" = JStr "traffic.txt".
Proof.
  intro kvs.
  apply (proj1 C6_flatten_log_record kvs "traffic.txt").
  reflexivity.
Defined.

(** * Further properties of the code *)

(** ** Sorted output *)

Section SortSorted.
Variable A : Type.
Variable leb : A -> A -> bool.
Hypothesis leb_total : forall a b, leb a b = true \/ leb b a = true.

Let le (a b : A) : Prop := leb a b = true.

Lemma insert_hd (x a : A) (l : list A) :
  le a x -> HdRel le a l -> HdRel le a (Sort.insert leb x l).
Proof.
  intros Hax Hl. destruct l as [|y l]; simpl.
  - now constructor.
  - destruct (leb x y); constructor; auto. now inversion Hl.
Qed.

Lemma insert_sorted (x : A) (l : list A) :
  Sorted le l -> Sorted le (Sort.insert leb x l).
Proof.
  induction 1 as [|y l Hs IH Hy]; simpl.
  - repeat constructor.
  - destruct (leb x y) eqn:E.
    + constructor; [now constructor | now constructor].
    + constructor; [exact IH|].
      apply insert_hd; [|exact Hy].
      destruct (leb_total x y) as [H | H]; [congruence | exact H].
Qed.

Lemma sort_sorted (l : list A) : Sorted le (Sort.sort leb l).
Proof.
  induction l as [|x l IH]; simpl; [constructor | now apply insert_sorted].
Qed.

End SortSorted.

Lemma sorted_strings (l : list string) :
  Sorted (fun a b => String.leb a b = true) (Str.sorted l).
Proof. apply sort_sorted. apply String.leb_total. Qed.

(** ** Folder names *)

Section FolderNameParts.
Import Utils.

Lemma split_nonempty (sep : ascii) (s : string) : Str.split sep s <> [].
Proof.
  destruct s as [|a s]; simpl; [discriminate|].
  destruct (Ascii.eqb a sep); [discriminate|].
  destruct (Str.split sep s); discriminate.
Qed.

(** [split] cuts at each separator and nowhere else. *)
Lemma split_head (sep : ascii) (s a : string) (rest : list string) :
  Str.split sep s = a :: rest ->
  Str.contains sep a = false /\
  match rest with
  | [] => s = a
  | _ :: _ => exists s', s = (a ++ String sep s')%string
                         /\ Str.split sep s' = rest
  end.
Proof.
  revert a rest.
  induction s as [|c s IH]; intros a rest H; simpl in H.
  - injection H as <- <-. split; reflexivity.
  - destruct (Ascii.eqb c sep) eqn:E.
    + injection H as <- <-. split; [reflexivity|].
      apply Ascii.eqb_eq in E. subst c.
      pose proof (split_nonempty sep s) as Hne.
      destruct (Str.split sep s) as [|w ws] eqn:Es; [contradiction|].
      exists s. split; [reflexivity | exact Es].
    + destruct (Str.split sep s) as [|w ws] eqn:Es.
      * exfalso. exact (split_nonempty sep s Es).
      * injection H as <- <-.
        destruct (IH w ws eq_refl) as [Hw Hrest].
        split; [simpl; now rewrite E, Hw|].
        destruct ws as [|w' ws].
        -- now subst s.
        -- destruct Hrest as (s' & -> & Hs'). exists s'. split; auto.
Qed.

Lemma contains_split_length (sep : ascii) (s : string) :
  Str.contains sep s = negb (length (Str.split sep s) =? 1)%nat.
Proof.
  induction s as [|c s IH]; simpl; [reflexivity|].
  destruct (Ascii.eqb c sep); simpl.
  - pose proof (split_nonempty sep s).
    destruct (Str.split sep s); [contradiction | reflexivity].
  - rewrite IH. pose proof (split_nonempty sep s).
    destruct (Str.split sep s) as [|w ws]; [contradiction | reflexivity].
Qed.

End FolderNameParts.

(** X1: among the names whose characters are code points below 256, which
    are the strings of this development, [is_valid_folder_name] accepts
    exactly the texts of the forms [YYYY-MM-DD], [YYYY-MM-DD_h],
    [YYYY-MM-DD_l], written with the digits [0-9], and each of these
    followed by one newline.  (Above 255 the pattern's [\d] matches the
    other decimal digits of Unicode too; names that hold such characters
    are not in the range of the statement.) *)
Theorem X1_is_valid_folder_name_accepted_set (s : string) :
  Utils.is_valid_folder_name s = true <->
  Utils.folder_form s \/
  exists s0, Utils.folder_form s0 /\ s = (s0 ++ String Str.newline "")%string.
Proof.
  split.
  - intro H. now apply folder_pattern_accepts.
  - intros [H | (s0 & H & ->)].
    + now apply folder_form_accepted.
    + now apply folder_form_newline_accepted.
Qed.

(** X2: [parse_folder_name] cuts a name at its underscore.  When it returns
    [(date_str, q)], [date_str] is what [extract_date] returns; a name without
    underscore comes back whole with quality ['u'], and a name with one
    underscore is [date_str + '_' + q], with [q] what [extract_quality]
    returns.  It raises, and only [ValueError], exactly on the names with two
    underscores or more. *)
Theorem X2_parse_folder_name_parts (s : string) :
  match Utils.parse_folder_name s with
  | Ok (date_str, q) =>
      Utils.extract_date s = date_str /\
      Str.contains "_" date_str = false /\
      if Str.contains "_" s
      then s = (date_str ++ String "_" q)%string
           /\ Str.contains "_" q = false
           /\ Utils.extract_quality s = Ok q
      else s = date_str /\ q = "u"
  | Raise e =>
      e = ValueError /\ (3 <= length (Str.split "_" s))%nat
  end.
Proof.
  unfold Utils.parse_folder_name, Utils.extract_date, Utils.extract_quality.
  pose proof (contains_split_length "_" s) as Hc.
  pose proof (split_nonempty "_" s) as Hne.
  destruct (Str.split "_" s) as [|a rest] eqn:Es; [contradiction|].
  destruct (split_head _ _ Es) as [Ha Hrest].
  destruct (Str.contains "_" s) eqn:E.
  - destruct rest as [|b [|c rest]]; try discriminate Hc.
    + destruct Hrest as (s' & -> & Hs').
      destruct (split_head _ _ Hs') as [Hb ->].
      repeat split; auto.
    + split; [reflexivity | simpl; lia].
  - destruct rest as [|b rest]; try discriminate Hc.
    subst s. simpl. repeat split; auto.
Qed.

(** ** The date check and the year check *)

Section DateAndYear.
Import Utils YearCheck.

Local Opaque Str.is_digit.

(** The year group matches four digits or nothing. *)
Lemma run_year_inv (d : string) :
  Re.run Strptime.re_Y (0%nat, d) = [] \/
  exists y1 y2 y3 y4 rest,
    forallb Str.is_digit [y1; y2; y3; y4] = true /\
    d = String y1 (String y2 (String y3 (String y4 rest))) /\
    Re.run Strptime.re_Y (0%nat, d) = [(4%nat, rest)].
Proof.
  unfold Strptime.re_Y.
  destruct d as [|y1 [|y2 [|y3 [|y4 rest]]]];
    cbn [Re.run Re.iter Re.step flat_map app]; auto;
    destruct (Str.is_digit y1) eqn:E1;
    cbn [Re.run Re.iter Re.step flat_map app]; auto;
    destruct (Str.is_digit y2) eqn:E2;
    cbn [Re.run Re.iter Re.step flat_map app]; auto;
    destruct (Str.is_digit y3) eqn:E3;
    cbn [Re.run Re.iter Re.step flat_map app]; auto;
    destruct (Str.is_digit y4) eqn:E4;
    cbn [Re.run Re.iter Re.step flat_map app]; auto.
  right. exists y1, y2, y3, y4, rest.
  cbn [forallb]. rewrite E1, E2, E3, E4. auto.
Qed.

(** A text that [strptime] parses starts with four digits, which are the
    year of the date. *)
Lemma strptime_year (d : string) (dt : calendar_date) :
  Strptime.strptime d = Ok dt ->
  exists y1 y2 y3 y4 rest,
    forallb Str.is_digit [y1; y2; y3; y4] = true /\
    d = String y1 (String y2 (String y3 (String y4 rest))) /\
    year dt = Strptime.num4 y1 y2 y3 y4.
Proof.
  unfold Strptime.strptime, Strptime.format_groups.
  change (Re.groups (Strptime.re_Y :: ?rs) ?st)
    with (flat_map
            (fun st' =>
               map (fun '(caps, st'') =>
                      (Str.take (fst st' - fst st) (snd st) :: caps, st''))
                   (Re.groups rs st'))
            (Re.run Strptime.re_Y st)).
  destruct (run_year_inv d) as [-> | (y1 & y2 & y3 & y4 & rest & Hd & -> & ->)];
    [discriminate|].
  intro H. exists y1, y2, y3, y4, rest. split; [exact Hd|]. split; [reflexivity|].
  cbn [flat_map fst snd] in H. rewrite app_nil_r in H.
  destruct (Re.groups _ (4%nat, rest)) as [|[caps [pos r]] l]; [discriminate|].
  cbn [map] in H.
  assert (Et : Str.take (4 - 0)
                 (String y1 (String y2 (String y3 (String y4 rest))))
               = String y1 (String y2 (String y3 (String y4 ""))))
    by (destruct rest; reflexivity).
  rewrite Et in H. clear Et.
  destruct caps as [|c1 [|c2 [|c3 [|c4 [|c5 caps]]]]]; try discriminate H.
  destruct (pos =? _)%nat; [|discriminate].
  rewrite int_of_digits4 in H. unfold make_date in H.
  destruct (_ && _); [|discriminate]. injection H as <-. reflexivity.
Qed.

(** [int] reads four digits as the number they write. *)
Lemma int_four_digits_all :
  forallb (fun y1 =>
    forallb (fun y2 =>
      forallb (fun y3 =>
        forallb (fun y4 =>
          match int (String y1 (String y2 (String y3 (String y4 "")))) with
          | Ok v => v =? Strptime.num4 y1 y2 y3 y4
          | Raise _ => false
          end) Strptime.digits) Strptime.digits) Strptime.digits)
    Strptime.digits = true.
Proof. vm_compute. reflexivity. Qed.

Lemma int_four_digits (y1 y2 y3 y4 : ascii) :
  forallb Str.is_digit [y1; y2; y3; y4] = true ->
  int (String y1 (String y2 (String y3 (String y4 ""))))
  = Ok (Strptime.num4 y1 y2 y3 y4).
Proof.
  intro H. cbn [forallb] in H.
  repeat (apply andb_prop in H; destruct H as [? H]).
  pose proof int_four_digits_all as Hall.
  rewrite forallb_forall in Hall. specialize (Hall y1 (digit_in_digits _ H0)).
  rewrite forallb_forall in Hall. specialize (Hall y2 (digit_in_digits _ H1)).
  rewrite forallb_forall in Hall. specialize (Hall y3 (digit_in_digits _ H2)).
  rewrite forallb_forall in Hall. specialize (Hall y4 (digit_in_digits _ H3)).
  destruct (int _) as [v | e]; [|discriminate].
  apply Z.eqb_eq in Hall. now subst.
Qed.

(** The year check on a text that starts with four digits. *)
Lemma is_valid_year_digits (y1 y2 y3 y4 : ascii) (rest : string) :
  forallb Str.is_digit [y1; y2; y3; y4] = true ->
  is_valid_year (String y1 (String y2 (String y3 (String y4 rest))))
  = (VALID_YEAR_MIN <=? Strptime.num4 y1 y2 y3 y4)
    && (Strptime.num4 y1 y2 y3 y4 <=? VALID_YEAR_MAX).
Proof.
  intro H. unfold is_valid_year.
  change (Str.take 4 (String y1 (String y2 (String y3 (String y4 rest)))))
    with (String y1 (String y2 (String y3 (String y4 (Str.take 0 rest))))).
  replace (Str.take 0 rest) with EmptyString by (now destruct rest).
  now rewrite (int_four_digits _ _ _ _ H).
Qed.

End DateAndYear.

(** X3: on a text of the shape [YYYY-MM-DD], [is_valid_date] answers True
    exactly when the text names a real calendar date (month in 1..12, day
    within the month, 29 February in leap years only) whose year lies in
    [VALID_YEAR_MIN..VALID_YEAR_MAX]. *)
Theorem X3_is_valid_date_real_dates (y1 y2 y3 y4 m1 m2 d1 d2 : ascii) :
  forallb Str.is_digit [y1; y2; y3; y4; m1; m2; d1; d2] = true ->
  Utils.is_valid_date
    (string_of_list_ascii
       [y1; y2; y3; y4; "-"%char; m1; m2; "-"%char; d1; d2]) = true
  <-> Utils.real_date_in_range (Strptime.num4 y1 y2 y3 y4)
                               (Strptime.num2 m1 m2) (Strptime.num2 d1 d2).
Proof.
  intro H. split; intro Hv.
  - now apply (is_valid_date_spec _ _ _ _ _ _ _ _ H).
  - now apply (is_valid_date_spec _ _ _ _ _ _ _ _ H).
Qed.

(** 29 February 2024 is a date; 29 February 2023 is not. *)
Lemma X3_is_valid_date_real_dates_witness :
  (Utils.is_valid_date "2024-02-29" = true
   <-> Utils.real_date_in_range 2024 2 29) /\
  (Utils.is_valid_date "2023-02-29" = true
   <-> Utils.real_date_in_range 2023 2 29) /\
  Utils.is_valid_date "2024-02-29" = true /\
  Utils.is_valid_date "2023-02-29" = false.
Proof.
  split; [|split; [|split; reflexivity]].
  - apply (X3_is_valid_date_real_dates "2" "0" "2" "4" "0" "2" "2" "9").
    reflexivity.
  - apply (X3_is_valid_date_real_dates "2" "0" "2" "3" "0" "2" "2" "9").
    reflexivity.
Defined.

(** X4: whatever text [is_valid_date] accepts, [is_valid_year] accepts too:
    the folders the scanner lists as valid are among those
    [list_valid_folders] keeps. *)
Theorem X4_valid_date_has_valid_year (date_str : string) :
  Utils.is_valid_date date_str = true ->
  YearCheck.is_valid_year date_str = true.
Proof.
  unfold Utils.is_valid_date. intro H.
  destruct (Strptime.strptime date_str) as [dt | e] eqn:E; [|discriminate].
  destruct (strptime_year _ E) as (y1 & y2 & y3 & y4 & rest & Hd & -> & Hy).
  rewrite (is_valid_year_digits _ _ _ _ rest Hd), <- Hy. exact H.
Qed.

Lemma X4_valid_date_has_valid_year_witness :
  YearCheck.is_valid_year "2024-05-01" = true.
Proof.
  apply (X4_valid_date_has_valid_year "2024-05-01"). reflexivity.
Defined.

(** ** Folder statistics *)

Section FolderStats.
Import Utils.

Lemma lookup_nodup (es : list (string * node)) (n : string) (x : node) :
  NoDup (map fst es) -> In (n, x) es -> Fs.lookup n es = Some x.
Proof.
  induction es as [|[n' x'] es IH]; simpl; intros Hnd Hin; [contradiction|].
  inversion Hnd as [|? ? Hnotin Hnd']; subst.
  destruct Hin as [Hin | Hin].
  - injection Hin as -> ->. now rewrite String.eqb_refl.
  - destruct (String.eqb_spec n' n) as [-> | _].
    + exfalso. apply Hnotin. change n with (fst (n, x)). now apply in_map.
    + now apply IH.
Qed.

Let counted (e : string * node) : Z :=
  match snd e with File _ => 1 | Dir _ => 0 end.

Let sized (e : string * node) : Z :=
  match snd e with File (Some sz) => sz | _ => 0 end.

Lemma stats_fold (es l : list (string * node)) (c t : Z) :
  (forall e, In e l -> Fs.lookup (fst e) es = Some (snd e)) ->
  fold_left (stats_step (Some (Dir es))) (map fst l) (c, t)
  = (c + fold_right Z.add 0 (map counted l),
     t + fold_right Z.add 0 (map sized l)).
Proof.
  revert c t. induction l as [|[n x] l IH]; intros c t H.
  - simpl. f_equal; lia.
  - pose proof (H (n, x) (or_introl eq_refl)) as Hn. simpl in Hn.
    cbn [map fold_left fold_right fst].
    unfold stats_step at 2. cbn [Fs.join]. rewrite Hn.
    unfold counted at 1, sized at 1. cbn [snd].
    destruct x as [[sz|]|sub]; cbn [Fs.isfile];
      rewrite IH by (intros; apply H; now right); f_equal; lia.
Qed.

End FolderStats.

(** X5: in a folder whose entries have distinct names,
    [compute_folder_stats] counts the entries that are files, sub-folders
    left out, and adds up the sizes of the files whose size can be read; a
    file whose size cannot be read is counted and adds nothing.  A folder
    that is missing, or is not a directory, gives [(0, 0)]. *)
Theorem X5_compute_folder_stats (es : list (string * node)) :
  NoDup (map fst es) ->
  Utils.compute_folder_stats (Some (Dir es))
  = (Z.of_nat
       (length (filter (fun e => match snd e with File _ => true | Dir _ => false end)
                       es)),
     fold_right Z.add 0
       (map (fun e => match snd e with File (Some sz) => sz | _ => 0 end) es))
  /\ Utils.compute_folder_stats None = (0, 0)
  /\ (forall sz, Utils.compute_folder_stats (Some (File sz)) = (0, 0)).
Proof.
  intro Hnd. split; [|split; [reflexivity | intro; reflexivity]].
  unfold Utils.compute_folder_stats. cbn [Fs.listdir].
  rewrite (stats_fold es es 0 0)
    by (intros [n x] Hin; now apply lookup_nodup).
  cbn [Z.add]. f_equal.
  induction es as [|[n x] es IH]; [reflexivity|].
  inversion Hnd as [|? ? _ Hnd']; subst.
  cbn [map fold_right filter snd].
  destruct x as [sz|sub]; cbn [length]; rewrite IH by exact Hnd'; lia.
Qed.

(** Two files, one of them unreadable, and a sub-folder. *)
Lemma X5_compute_folder_stats_witness :
  Utils.compute_folder_stats
    (Some (Dir [("a.jpg", File (Some 300)); ("b.jpg", File None);
                ("thumbs", Dir [("c.jpg", File (Some 50))])]))
  = (2, 300).
Proof.
  refine (proj1 (X5_compute_folder_stats
                   [("a.jpg", File (Some 300)); ("b.jpg", File None);
                    ("thumbs", Dir [("c.jpg", File (Some 50))])] _)).
  repeat constructor; simpl; intuition discriminate.
Defined.

(** X6: for a root that is a directory, [list_candidate_folders] returns,
    in sorted order, its sub-directories whose name the pattern accepts and
    nothing else; a missing root gives the empty list, and a root that is a
    file raises [NotADirectoryError]. *)
Theorem X6_list_candidate_folders (es : list (string * node)) :
  (exists cands,
      Utils.list_candidate_folders (Some (Dir es)) = Ok cands /\
      Sorted (fun a b => String.leb a b = true) cands /\
      Permutation cands
        (filter (fun d => Utils.is_valid_folder_name d
                          && Fs.isdir (Fs.lookup d es))
                (map fst es))) /\
  Utils.list_candidate_folders None = Ok [] /\
  (forall sz, Utils.list_candidate_folders (Some (File sz))
              = Raise NotADirectoryError).
Proof.
  split; [|split; [reflexivity | intro; reflexivity]].
  eexists. split; [reflexivity|]. split.
  - apply sorted_strings.
  - apply sort_perm.
Qed.

Lemma filter_split_length (A : Type) (p : A -> bool) (l : list A) :
  (length (filter p l) + length (filter (fun x => negb (p x)) l))%nat
  = length l.
Proof.
  induction l as [|x l IH]; simpl; [reflexivity|].
  destruct (p x); simpl; lia.
Qed.

(** X7: on a root that is a directory, [scan_modality_root] raises nothing
    and splits the candidate folders between its two lists: every candidate
    gives one record, the valid records are those whose date passes
    [is_valid_date], and each invalid record keeps the folder name, has a
    date that fails the check and carries the reason
    ['invalid_year_or_bad_date']. *)
Theorem X7_scan_modality_root_splits (es : list (string * node))
        (m : Utils.modality) :
  exists cands valid invalid,
    Utils.list_candidate_folders (Some (Dir es)) = Ok cands /\
    Utils.scan_modality_root (Some (Dir es)) m = Ok (valid, invalid) /\
    (length valid + length invalid = length cands)%nat /\
    Forall (fun r => Utils.is_valid_date (Utils.v_date r) = true
                     /\ Utils.v_modality r = m) valid /\
    Forall (fun r => Utils.is_valid_date (Utils.i_parsed_date r) = false
                     /\ Utils.is_valid_folder_name (Utils.i_folder_name r) = true
                     /\ Utils.i_modality r = m
                     /\ Utils.i_reason r = "invalid_year_or_bad_date") invalid /\
    map Utils.i_folder_name invalid
    = filter (fun d => negb (Utils.is_valid_date (Utils.extract_date d))) cands.
Proof.
  destruct (candidates_spec es EmptyString) as (cands & Hc & _).
  pose proof (candidates_accepted _ Hc) as Hacc.
  exists cands. do 2 eexists.
  split; [exact Hc|].
  split; [exact (scan_modality_root_partition (Some (Dir es)) m Hc)|].
  split; [|split; [|split]].
  - rewrite !length_map. apply filter_split_length.
  - apply Forall_forall. intros r Hr.
    apply in_map_iff in Hr. destruct Hr as (d & <- & Hd).
    apply filter_In in Hd. destruct Hd as [_ Hd].
    unfold Utils.valid_of. destruct (Utils.compute_folder_stats _). auto.
  - apply Forall_forall. intros r Hr.
    apply in_map_iff in Hr. destruct Hr as (d & <- & Hd).
    apply filter_In in Hd. destruct Hd as [Hin Hd].
    apply negb_true_iff in Hd.
    rewrite Forall_forall in Hacc.
    unfold Utils.invalid_of. destruct (Utils.compute_folder_stats _).
    cbn. auto.
  - rewrite map_map. erewrite map_ext; [apply map_id|].
    intro d. unfold Utils.invalid_of.
    now destruct (Utils.compute_folder_stats _).
Qed.

(** ** The folder lists by year *)

Section YearLists.
Import Utils YearCheck.

Lemma filter_partition_perm (A : Type) (p : A -> bool) (l : list A) :
  Permutation (filter p l ++ filter (fun x => negb (p x)) l) l.
Proof.
  induction l as [|x l IH]; simpl; [constructor|].
  destruct (p x); simpl.
  - now constructor.
  - apply Permutation_sym, Permutation_cons_app. now apply Permutation_sym.
Qed.

(** The date portion of a candidate: a date-shaped text, or one followed by
    a newline. *)
Lemma extract_date_accepted (s : string) :
  is_valid_folder_name s = true ->
  exists d, date_shaped d /\
            (extract_date s = d
             \/ extract_date s = (d ++ String Str.newline "")%string).
Proof.
  intro H. apply folder_pattern_accepts in H.
  destruct H as [(d & Hd & Hs) | (s0 & (d & Hd & Hs) & ->)]; exists d;
    (split; [exact Hd|]).
  - left. destruct Hs as [-> | [-> | ->]].
    + rewrite <- (str_app_nil_r d) at 1. apply extract_date_form; auto.
    + apply extract_date_form; auto.
    + apply extract_date_form; auto.
  - pose proof (date_shaped_no_underscore Hd) as Hn.
    unfold extract_date. destruct Hs as [-> | [-> | ->]].
    + right. rewrite (@split_without_sep "_" (d ++ String Str.newline ""));
        [reflexivity|].
      rewrite contains_app, Hn. reflexivity.
    + left. rewrite str_app_assoc. cbn [append].
      now rewrite (@split_at_sep _ _ (String "h" (String Str.newline "")) Hn).
    + left. rewrite str_app_assoc. cbn [append].
      now rewrite (@split_at_sep _ _ (String "l" (String Str.newline "")) Hn).
Qed.

End YearLists.

(** X8: [list_valid_folders] and [list_invalid_year_folders] split the
    candidates of a root between them: together they hold each candidate
    once, no folder is in both, and each list is sorted. *)
Theorem X8_year_lists_split_candidates (es : list (string * node)) :
  exists cands valid invalid,
    Utils.list_candidate_folders (Some (Dir es)) = Ok cands /\
    YearCheck.list_valid_folders (Some (Dir es)) = Ok valid /\
    YearCheck.list_invalid_year_folders (Some (Dir es)) = Ok invalid /\
    Permutation (valid ++ invalid) cands /\
    (forall d, In d valid -> ~ In d invalid) /\
    Sorted (fun a b => String.leb a b = true) valid /\
    Sorted (fun a b => String.leb a b = true) invalid.
Proof.
  do 3 eexists. split; [reflexivity|]. split; [reflexivity|].
  split; [reflexivity|]. split; [|split; [|split]].
  - eapply Permutation_trans; [|apply filter_partition_perm].
    apply Permutation_app; apply sort_perm.
  - intros d Hv Hi.
    apply sorted_in, filter_In in Hv. apply sorted_in, filter_In in Hi.
    destruct Hv as [_ Hv], Hi as [_ Hi]. rewrite Hv in Hi. discriminate Hi.
  - apply sorted_strings.
  - apply sorted_strings.
Qed.

(** X9: [list_valid_folders] looks at the year only.  The name of a
    candidate starts with four digits, and [is_valid_year] keeps the folder
    exactly when the number they write lies in
    [VALID_YEAR_MIN..VALID_YEAR_MAX], whatever month and day follow. *)
Theorem X9_is_valid_year_on_candidates (name : string) :
  Utils.is_valid_folder_name name = true ->
  exists y1 y2 y3 y4 rest,
    name = String y1 (String y2 (String y3 (String y4 rest))) /\
    YearCheck.is_valid_year (Utils.extract_date name)
    = (Utils.VALID_YEAR_MIN <=? Strptime.num4 y1 y2 y3 y4)
      && (Strptime.num4 y1 y2 y3 y4 <=? Utils.VALID_YEAR_MAX).
Proof.
  intro H.
  destruct (extract_date_accepted _ H)
    as (d & (y1 & y2 & y3 & y4 & m1 & m2 & d1 & d2 & Hdig & ->) & He).
  assert (Hy : forallb Str.is_digit [y1; y2; y3; y4] = true).
  { cbn [forallb] in *.
    repeat (apply andb_prop in Hdig; destruct Hdig as [? Hdig]).
    repeat match goal with
           | Hd : Str.is_digit _ = true |- _ => rewrite Hd; clear Hd
           end.
    reflexivity. }
  apply folder_pattern_accepts in H.
  assert (Hname : exists rest,
             name = String y1 (String y2 (String y3 (String y4 rest)))).
  { pose proof (@split_head "_" name) as Hsplit.
    unfold Utils.extract_date in He.
    pose proof (split_nonempty "_" name) as Hne.
    destruct (Str.split "_" name) as [|a rest] eqn:Es; [contradiction|].
    destruct (Hsplit a rest eq_refl) as [_ Hrest]. simpl in He.
    destruct rest as [|b rest].
    - subst name. destruct He as [-> | ->]; eexists; reflexivity.
    - destruct Hrest as (s' & -> & _).
      destruct He as [-> | ->]; eexists; reflexivity. }
  destruct Hname as (rest & ->).
  exists y1, y2, y3, y4, rest. split; [reflexivity|].
  destruct He as [-> | ->]; apply (is_valid_year_digits _ _ _ _ _ Hy).
Qed.

(** A folder of the thirteenth month of 2023 passes the year check. *)
Lemma X9_is_valid_year_on_candidates_witness :
  exists y1 y2 y3 y4 rest,
    "2023-13-45_h" = String y1 (String y2 (String y3 (String y4 rest))) /\
    YearCheck.is_valid_year (Utils.extract_date "2023-13-45_h")
    = (Utils.VALID_YEAR_MIN <=? Strptime.num4 y1 y2 y3 y4)
      && (Strptime.num4 y1 y2 y3 y4 <=? Utils.VALID_YEAR_MAX).
Proof.
  apply (X9_is_valid_year_on_candidates "2023-13-45_h"). reflexivity.
Defined.

(** ** Folder pairing *)

Section Pairing.
Import FolderPairing.

Lemma in_sorted_set (l : list string) (d : string) :
  In d (sorted_set l) <-> In d l.
Proof. unfold sorted_set. rewrite sorted_in. apply nodup_In. Qed.

Lemma sorted_set_nodup (l : list string) : NoDup (sorted_set l).
Proof.
  unfold sorted_set, Str.sorted.
  eapply Permutation_NoDup; [apply Permutation_sym, sort_perm|].
  apply NoDup_nodup.
Qed.

Lemma mem_in (d : string) (s : list string) : mem d s = true <-> In d s.
Proof.
  unfold mem. rewrite existsb_exists. split.
  - intros (x & Hx & E). apply String.eqb_eq in E. now subst.
  - intro H. exists d. split; [exact H | apply String.eqb_refl].
Qed.

Lemma sorted_filter_nodup (p : string -> bool) (l : list string) :
  NoDup l -> NoDup (Str.sorted (filter p l)).
Proof.
  intro H. eapply Permutation_NoDup; [apply Permutation_sym, sort_perm|].
  now apply NoDup_filter.
Qed.

End Pairing.

(** X10: the pairing table of [folder_pairing.py] has one row per date,
    in sorted order; no row has the status ['missing_both']; a row is
    ['paired'] exactly when the date has an image folder and an audio
    folder; and every date of the table is in exactly one of the printed
    lists of paired, image-only and audio-only dates. *)
Theorem X10_folder_pairing (img_root snd_root : option node)
        (p : FolderPairing.pairing) :
  FolderPairing.main img_root snd_root = Ok p ->
  NoDup (map FolderPairing.date (FolderPairing.summary p)) /\
  Sorted (fun a b => String.leb a b = true)
         (map FolderPairing.date (FolderPairing.summary p)) /\
  Forall (fun r =>
            FolderPairing.pair_status r <> "missing_both" /\
            (FolderPairing.pair_status r = "paired"
             <-> FolderPairing.has_image r = true
                 /\ FolderPairing.has_audio r = true))
         (FolderPairing.summary p) /\
  Permutation
    (FolderPairing.paired_dates p ++ FolderPairing.img_only_dates p
     ++ FolderPairing.snd_only_dates p)
    (map FolderPairing.date (FolderPairing.summary p)).
Proof.
  unfold FolderPairing.main. intro H.
  destruct (YearCheck.list_valid_folders img_root) as [iv | e]; [|discriminate].
  destruct (YearCheck.list_valid_folders snd_root) as [sv | e]; [|discriminate].
  cbn [bind] in H. injection H as <-.
  cbn [FolderPairing.summary FolderPairing.paired_dates
       FolderPairing.img_only_dates FolderPairing.snd_only_dates].
  set (img := FolderPairing.sorted_set (map Utils.extract_date iv)).
  set (snd := FolderPairing.sorted_set (map Utils.extract_date sv)).
  assert (Hi : NoDup img) by apply sorted_set_nodup.
  assert (Hs : NoDup snd) by apply sorted_set_nodup.
  rewrite map_map. cbn [FolderPairing.date]. rewrite map_id.
  split; [apply sorted_set_nodup|].
  split; [apply sorted_strings|].
  split.
  - apply Forall_forall. intros r Hr.
    apply in_map_iff in Hr. destruct Hr as (d & <- & Hd).
    apply in_sorted_set, in_app_iff in Hd.
    cbn [FolderPairing.pair_status FolderPairing.has_image
         FolderPairing.has_audio].
    unfold FolderPairing.status_of.
    destruct (FolderPairing.mem d img) eqn:Ei,
             (FolderPairing.mem d snd) eqn:Es; cbn.
    + split; [discriminate | tauto].
    + split; [discriminate|]. split; [discriminate | intros [_ ?]; discriminate].
    + split; [discriminate|]. split; [discriminate | intros [? _]; discriminate].
    + exfalso. destruct Hd as [Hd | Hd]; apply mem_in in Hd; congruence.
  - apply NoDup_Permutation.
    + apply NoDup_app; [now apply sorted_filter_nodup | |].
      * apply NoDup_app; [now apply sorted_filter_nodup
                         | now apply sorted_filter_nodup |].
        intros d H1 H2.
        apply sorted_in, filter_In in H1. apply sorted_in, filter_In in H2.
        destruct H1 as [H1 _], H2 as [_ H2].
        apply negb_true_iff in H2. apply mem_in in H1. congruence.
      * intros d H1 H2. apply sorted_in, filter_In in H1.
        destruct H1 as [H1 H1'].
        apply in_app_iff in H2. destruct H2 as [H2 | H2];
          apply sorted_in, filter_In in H2; destruct H2 as [H2 H2'].
        -- rewrite H1' in H2'. discriminate.
        -- apply negb_true_iff in H2'. apply mem_in in H1. congruence.
    + apply sorted_set_nodup.
    + intro d. rewrite in_sorted_set, !in_app_iff, !sorted_in, !filter_In.
      rewrite !negb_true_iff.
      destruct (FolderPairing.mem d snd) eqn:Es,
               (FolderPairing.mem d img) eqn:Ei;
        try apply mem_in in Es; try apply mem_in in Ei;
        intuition try discriminate.
      all: try (exfalso;
                match goal with
                | E : FolderPairing.mem _ _ = false, H : In _ _ |- _ =>
                    apply mem_in in H; congruence
                end).
Qed.

(** Three image folders of two dates and two audio folders. *)
Lemma X10_folder_pairing_witness :
  let img := Some (Dir [("2023-01-01", Dir []); ("2023-01-01_h", Dir []);
                        ("2023-01-02", Dir [])]) in
  let snd := Some (Dir [("2023-01-02_l", Dir []); ("2023-01-03", Dir [])]) in
  exists p,
    FolderPairing.main img snd = Ok p /\
    map FolderPairing.pair_status (FolderPairing.summary p)
    = ["image_only"; "paired"; "audio_only"] /\
    NoDup (map FolderPairing.date (FolderPairing.summary p)).
Proof.
  intros img snd. eexists. split; [reflexivity|]. split; [reflexivity|].
  refine (proj1 (@X10_folder_pairing img snd _ _)). reflexivity.
Defined.

(** ** The flattener on any record *)

Section FlattenAny.
Import Py ParseLogs.

Lemma frame_dto_cases (v : json) (d t : option string) :
  date_time_of_frame_dto v = Ok (d, t) ->
  (exists s d' t' rest,
      v = JStr s /\ Str.contains " " s = true
      /\ Str.split_ws s = d' :: t' :: rest /\ d = Some d' /\ t = Some t')
  \/ (d = None /\ t = None
      /\ forall s, v = JStr s -> Str.contains " " s = false).
Proof.
  destruct v as [| | | | s | |]; cbn [date_time_of_frame_dto];
    try (intro H; injection H as <- <-; right; repeat split;
         intros; discriminate).
  destruct (Str.contains " " s) eqn:E.
  - destruct (Str.split_ws s) as [|d' [|t' rest]] eqn:Es; cbn [firstn];
      try discriminate.
    intro H. injection H as <- <-. left. exists s, d', t', rest. auto.
  - intro H. injection H as <- <-. right. repeat split.
    intros s' Hs. injection Hs as <-. exact E.
Qed.

Lemma dto_cases (v : json) (d d' : option string) :
  date_of_dto d v = Ok d' ->
  (d <> None /\ d' = d)
  \/ (d = None
      /\ ((exists s tok rest,
              v = JStr s /\ Str.contains " " s = true
              /\ Str.split_ws s = tok :: rest /\ d' = Some tok)
          \/ (d' = None
              /\ forall s, v = JStr s -> Str.contains " " s = false))).
Proof.
  destruct d as [x|]; cbn [date_of_dto].
  - intro H. injection H as <-. left. split; [discriminate | reflexivity].
  - right. split; [reflexivity|].
    destruct v as [| | | | s | |];
      try (injection H as <-; right; split; [reflexivity | intros; discriminate]).
    destruct (Str.contains " " s) eqn:E.
    + destruct (Str.split_ws s) as [|tok rest] eqn:Es; [discriminate|].
      injection H as <-. left. exists s, tok, rest. auto.
    + injection H as <-. right. split; [reflexivity|].
      intros s' Hs. injection Hs as <-. exact E.
Qed.

End FlattenAny.

Ltac flatten_binds H :=
  repeat first
    [ discriminate H
    | match type of H with
      | context [match ?p with pair _ _ => _ end] => destruct p
      | context [bind ?r _] => destruct r eqn:?; cbn [bind] in H
      end ].

(** X11: whenever [flatten_log_record] returns a row, whatever the record,
    the row has the 25 columns of the CSV header, in the header's order;
    the record is a JSON object, whose [frame_dto], [dto], [img], [dba],
    [dba_dto], [probs], [cls], [point_len], [tid], [seq_len] and [seq_path]
    are copied unchanged, and [log_file] is the name given. *)
Theorem X11_flatten_row_schema (rec : json) (log_file : string)
        (row : ParseLogs.row) :
  ParseLogs.flatten_log_record rec log_file = Ok row ->
  map fst row = ParseLogs.fieldnames /\
  Py.get row "log_file" = JStr log_file /\
  exists kvs,
    rec = JDict kvs /\
    Py.get row "frame_dto" = Py.get kvs "frame_dto" /\
    Py.get row "dto" = Py.get kvs "dto" /\
    Py.get row "img_path" = Py.get kvs "img" /\
    Py.get row "dba" = Py.get kvs "dba" /\
    Py.get row "dba_dto" = Py.get kvs "dba_dto" /\
    Py.get row "probs" = Py.get kvs "probs" /\
    Py.get row "cls" = Py.get kvs "cls" /\
    Py.get row "point_len" = Py.get kvs "point_len" /\
    Py.get row "tid" = Py.get kvs "tid" /\
    Py.get row "seq_len" = Py.get kvs "seq_len" /\
    Py.get row "seq_path" = Py.get kvs "seq_path".
Proof.
  intro H. destruct rec as [| | | | | |kvs]; try discriminate H.
  unfold ParseLogs.flatten_log_record in H.
  flatten_binds H.
  injection H as <-.
  split; [reflexivity|]. split; [reflexivity|].
  exists kvs. repeat split.
Qed.

(** A record with a box only. *)
Lemma X11_flatten_row_schema_witness :
  exists row,
    ParseLogs.flatten_log_record
      (JDict [("box", JList [JInt 1; JInt 2]); ("cls", JStr "car")])
      "traffic.txt.1" = Ok row /\
    map fst row = ParseLogs.fieldnames /\
    Py.get row "log_file" = JStr "traffic.txt.1".
Proof.
  eexists. split; [reflexivity|].
  split.
  - refine (proj1 (@X11_flatten_row_schema
                     (JDict [("box", JList [JInt 1; JInt 2]); ("cls", JStr "car")])
                     "traffic.txt.1" _ _)).
    reflexivity.
  - reflexivity.
Defined.

(** X12: the date of a flattened row follows the order [frame_dto], then
    [dto].  When [frame_dto] is a string with a space, the date and the time
    are its first two words, whatever [dto] and [img] hold.  Otherwise the
    time is null, and when [dto] is a string with a space the date is its
    first word, whatever [img] holds. *)
Theorem X12_flatten_date_priority (kvs : list (string * json))
        (log_file : string) (row : ParseLogs.row) :
  ParseLogs.flatten_log_record (JDict kvs) log_file = Ok row ->
  (forall s, Py.get kvs "frame_dto" = JStr s -> Str.contains " " s = true ->
             exists d t rest,
               Str.split_ws s = d :: t :: rest /\
               Py.get row "date" = JStr d /\ Py.get row "time" = JStr t) /\
  ((forall s, Py.get kvs "frame_dto" = JStr s -> Str.contains " " s = false) ->
   Py.get row "time" = JNull /\
   forall s, Py.get kvs "dto" = JStr s -> Str.contains " " s = true ->
             exists d rest,
               Str.split_ws s = d :: rest /\ Py.get row "date" = JStr d).
Proof.
  intro H. unfold ParseLogs.flatten_log_record in H.
  destruct (ParseLogs.date_time_of_frame_dto (Py.get kvs "frame_dto"))
    as [[d0 t0]|] eqn:Ef; cbn [bind] in H; [|discriminate H].
  destruct (ParseLogs.date_of_dto d0 (Py.get kvs "dto")) as [d1|] eqn:Ed;
    cbn [bind] in H; [|discriminate H].
  flatten_binds H. injection H as <-.
  change (Py.get _ "date")
    with (Py.of_option (ParseLogs.date_of_img d1 (Py.get kvs "img"))).
  change (Py.get _ "time") with (Py.of_option t0).
  assert (Himg : forall x, d1 = Some x ->
             ParseLogs.date_of_img d1 (Py.get kvs "img") = Some x).
  { intros x ->. unfold ParseLogs.date_of_img.
    now destruct (Py.get kvs "img"). }
  apply frame_dto_cases in Ef. apply dto_cases in Ed.
  split.
  - intros s Hs Hc.
    destruct Ef as [(s' & d' & t' & rest & Hv & _ & Hsplit & -> & ->)
                   | (_ & _ & Hno)].
    + rewrite Hs in Hv. injection Hv as <-.
      destruct Ed as [[_ ->] | [Hnone _]]; [|discriminate Hnone].
      exists d', t', rest. rewrite (Himg d' eq_refl). auto.
    + rewrite (Hno s Hs) in Hc. discriminate Hc.
  - intro Hno.
    destruct Ef as [(s' & d' & t' & rest & Hv & Hc & _) | (-> & -> & _)].
    + rewrite (Hno s' Hv) in Hc. discriminate Hc.
    + split; [reflexivity|]. intros s Hs Hc.
      destruct Ed as [[Hne _] | [_ [(s' & tok & rest & Hv & _ & Hsplit & ->)
                                   | (_ & Hno')]]].
      * now contradiction Hne.
      * rewrite Hs in Hv. injection Hv as <-.
        exists tok, rest. rewrite (Himg tok eq_refl). auto.
      * rewrite (Hno' s Hs) in Hc. discriminate Hc.
Qed.

(** A frame timestamp overrides the record's own. *)
Lemma X12_flatten_date_priority_witness :
  exists row,
    ParseLogs.flatten_log_record
      (JDict [("frame_dto", JStr "2024-06-02 08:00:01");
              ("dto", JStr "2024-06-01 10:00:00");
              ("img", JStr "2024-05-31_h/a.jpg")])
      "traffic.txt" = Ok row /\
    Py.get row "date" = JStr "2024-06-02" /\
    Py.get row "time" = JStr "08:00:01".
Proof.
  eexists. split; [reflexivity|].
  destruct (proj1 (@X12_flatten_date_priority
                     [("frame_dto", JStr "2024-06-02 08:00:01");
                      ("dto", JStr "2024-06-01 10:00:00");
                      ("img", JStr "2024-05-31_h/a.jpg")]
                     "traffic.txt" _ eq_refl)
                  "2024-06-02 08:00:01" eq_refl eq_refl)
    as (d & t & rest & Hs & Hd & Ht).
  injection Hs as <- <- _. split; assumption.
Defined.

(** ** The parsing loop *)

Section LoopFacts.
Import ParseLogsMain.

Variable json_loads : string -> result json.

(** Whatever the cap, the loops process a prefix of the lines. *)
Lemma lines_loop_prefix (max_lines : option Z) (name : string)
      (lines : list string) (st : log_state) :
  exists k,
    (k <= length lines)%nat /\
    fst (lines_loop json_loads max_lines name lines st)
    = fold_left (process_line json_loads name) (firstn k lines) st /\
    (snd (lines_loop json_loads max_lines name lines st) = false ->
     k = length lines).
Proof.
  revert st. induction lines as [|l lines IH]; intro st.
  - exists 0%nat. simpl. auto.
  - simpl lines_loop. destruct (cap_reached max_lines st).
    + exists 0%nat. simpl. split; [lia|]. split; [reflexivity | discriminate].
    + destruct (IH (process_line json_loads name st l)) as (k & Hk & Hf & Hs).
      exists (S k). simpl. split; [lia|]. split; [exact Hf|].
      intro H. now rewrite (Hs H).
Qed.

Lemma files_loop_prefix (max_lines : option Z)
      (files : list (string * list string)) (st : log_state) :
  exists k,
    files_loop json_loads max_lines files st
    = process_all json_loads (firstn k (all_lines files)) st.
Proof.
  revert st. induction files as [|[name lines] files IH]; intro st.
  - exists 0%nat. reflexivity.
  - simpl files_loop.
    destruct (lines_loop_prefix max_lines name lines st) as (k & Hk & Hf & Hs).
    destruct (lines_loop json_loads max_lines name lines st) as [st' b].
    simpl in Hf, Hs. simpl all_lines. destruct b.
    + exists k. rewrite firstn_app, length_map.
      replace (k - length lines)%nat with 0%nat by lia.
      rewrite firstn_O, app_nil_r, firstn_map, process_all_file. exact Hf.
    + specialize (Hs eq_refl). subst k.
      destruct (IH st') as (k' & Hk').
      exists (length lines + k')%nat.
      rewrite firstn_app, length_map.
      replace (length lines + k' - length lines)%nat with k' by lia.
      rewrite process_all_app, firstn_map, process_all_file.
      rewrite (@firstn_all2 _ (length lines + k') lines) by lia.
      rewrite firstn_all in Hf. now rewrite <- Hf.
Qed.

(** What one line adds to the run: at most one row and at most one error. *)
Lemma process_line_delta (name : string) (st : log_state) (line : string) :
  let one := process_line json_loads name init line in
  rows (process_line json_loads name st line) = rows st ++ rows one /\
  parsed (process_line json_loads name st line) = parsed st + parsed one /\
  errors (process_line json_loads name st line) = errors st + errors one /\
  parsed one = Z.of_nat (length (rows one)) /\
  0 <= errors one /\
  parsed one + errors one <= 1.
Proof.
  unfold process_line.
  destruct (String.length (Str.strip line) =? 0)%nat; cbn.
  - rewrite app_nil_r. repeat split; lia.
  - destruct (bind _ _); cbn; repeat split; try lia.
    now rewrite app_nil_r.
Qed.

Lemma process_all_delta (ls : list (string * string)) (st : log_state) :
  rows (process_all json_loads ls st)
  = rows st
    ++ flat_map (fun l => rows (process_line json_loads (fst l) init (snd l))) ls
  /\ parsed (process_all json_loads ls st) - parsed st
     = Z.of_nat
         (length (flat_map
                    (fun l => rows (process_line json_loads (fst l) init (snd l)))
                    ls))
  /\ 0 <= errors (process_all json_loads ls st) - errors st
  /\ (parsed (process_all json_loads ls st) - parsed st)
     + (errors (process_all json_loads ls st) - errors st)
     <= Z.of_nat (length ls).
Proof.
  unfold process_all. revert st.
  induction ls as [|[name line] ls IH]; intro st; cbn [fold_left flat_map fst snd].
  - rewrite app_nil_r. cbn. repeat split; lia.
  - destruct (IH (process_line json_loads name st line)) as (Hr & Hp & He & Hs).
    destruct (process_line_delta name st line) as (Dr & Dp & De & Dl & D0 & D1).
    cbn zeta in *.
    rewrite Hr, Dr, <- app_assoc. split; [reflexivity|].
    rewrite length_app, Nat2Z.inj_add, <- Dl.
    cbn [length] in *. repeat split; lia.
Qed.

End LoopFacts.

(** X13: at the end of every run of the parsing loop, with or without a
    cap, [parsed] is the number of rows written, [errors] is not negative,
    and [parsed + errors] does not exceed [total_lines], which does not exceed
    the number of lines in the log files. *)
Theorem X13_parse_loop_counters (json_loads : string -> result json)
        (max_lines : option Z) (files : list (string * list string)) :
  let st := ParseLogsMain.files_loop json_loads max_lines files
                                     ParseLogsMain.init in
  ParseLogsMain.parsed st = Z.of_nat (length (ParseLogsMain.rows st)) /\
  0 <= ParseLogsMain.errors st /\
  ParseLogsMain.parsed st + ParseLogsMain.errors st
  <= ParseLogsMain.total_lines st /\
  ParseLogsMain.total_lines st
  <= Z.of_nat (length (ParseLogsMain.all_lines files)).
Proof.
  cbn zeta.
  destruct (files_loop_prefix json_loads max_lines files ParseLogsMain.init)
    as (k & ->).
  destruct (process_all_delta json_loads
              (firstn k (ParseLogsMain.all_lines files)) ParseLogsMain.init)
    as (Hr & Hp & He & Hs).
  rewrite total_lines_process_all.
  rewrite Hr. cbn [ParseLogsMain.init ParseLogsMain.rows ParseLogsMain.parsed
                   ParseLogsMain.errors ParseLogsMain.total_lines app] in *.
  rewrite length_firstn in *. repeat split; lia.
Qed.

(** X14: each line is parsed on its own.  The rows a run writes are, in
    order, the rows that the lines it read give one by one: a line that is
    blank or fails to parse adds no row and changes no other row. *)
Theorem X14_parse_loop_line_by_line (json_loads : string -> result json)
        (max_lines : option Z) (files : list (string * list string)) :
  exists k,
    ParseLogsMain.rows
      (ParseLogsMain.files_loop json_loads max_lines files ParseLogsMain.init)
    = flat_map
        (fun l => ParseLogsMain.rows
                    (ParseLogsMain.process_line json_loads (fst l)
                                                ParseLogsMain.init (snd l)))
        (firstn k (ParseLogsMain.all_lines files)) /\
    (max_lines = None \/ max_lines = Some 0 ->
     k = length (ParseLogsMain.all_lines files)).
Proof.
  destruct max_lines as [n|].
  - destruct (Z.eq_dec n 0) as [-> | Hn].
    + exists (length (ParseLogsMain.all_lines files)).
      rewrite files_loop_no_cap by auto. rewrite firstn_all.
      split; [|reflexivity].
      now destruct (process_all_delta json_loads
                      (ParseLogsMain.all_lines files) ParseLogsMain.init)
        as (-> & _).
    + destruct (files_loop_prefix json_loads (Some n) files ParseLogsMain.init)
        as (k & ->).
      exists k. split.
      * now destruct (process_all_delta json_loads
                        (firstn k (ParseLogsMain.all_lines files))
                        ParseLogsMain.init) as (-> & _).
      * intros [H | H]; [discriminate H | injection H; contradiction].
  - exists (length (ParseLogsMain.all_lines files)).
    rewrite files_loop_no_cap by auto. rewrite firstn_all.
    split; [|reflexivity].
    now destruct (process_all_delta json_loads
                    (ParseLogsMain.all_lines files) ParseLogsMain.init)
      as (-> & _).
Qed.

(** Without a cap, three lines of which one is malformed give two rows. *)
Lemma X14_parse_loop_line_by_line_witness :
  let loads := fun s : string =>
                 if String.eqb s "{}" then Ok (JDict []) else Raise JSONDecodeError in
  length (ParseLogsMain.rows
            (ParseLogsMain.files_loop loads None
               [("traffic.txt", ["{}"; "oops"; "{}"])] ParseLogsMain.init))
  = 2%nat.
Proof.
  intro loads.
  destruct (X14_parse_loop_line_by_line loads None
              [("traffic.txt", ["{}"; "oops"; "{}"])]) as (k & Hrows & Hk).
  rewrite Hrows, (Hk (or_introl eq_refl)). reflexivity.
Defined.

Section LogFileColumn.
Import ParseLogsMain.

Variable json_loads : string -> result json.

(** The column [log_file] of a row. *)
Let log_file_of (r : ParseLogs.row) : json := Py.get r "log_file".

Lemma flatten_log_file (rec : json) (name : string) (r : ParseLogs.row) :
  ParseLogs.flatten_log_record rec name = Ok r ->
  log_file_of r = JStr name.
Proof.
  intro H. destruct rec as [| | | | | |kvs]; try discriminate H.
  unfold ParseLogs.flatten_log_record in H.
  flatten_binds H.
  injection H as <-. reflexivity.
Qed.

(** The rows one line gives carry the name of the line's file. *)
Lemma process_line_log_file (name line : string) :
  map log_file_of (rows (process_line json_loads name init line))
  = repeat (JStr name)
           (length (rows (process_line json_loads name init line))).
Proof.
  unfold process_line.
  destruct (String.length (Str.strip line) =? 0)%nat; [reflexivity|].
  destruct (json_loads (Str.strip line)) as [rec | e]; cbn [bind];
    [|reflexivity].
  destruct (ParseLogs.flatten_log_record rec name) as [r | e] eqn:E;
    [|reflexivity].
  cbn. now rewrite (flatten_log_file _ _ E).
Qed.

Lemma lines_log_file (name : string) (lines : list string) :
  map log_file_of
      (flat_map (fun l => rows (process_line json_loads (fst l) init (snd l)))
                (map (pair name) lines))
  = repeat (JStr name)
      (length
         (flat_map (fun l => rows (process_line json_loads (fst l) init (snd l)))
                   (map (pair name) lines))).
Proof.
  induction lines as [|l lines IH]; [reflexivity|].
  cbn [map flat_map fst snd]. rewrite map_app, length_app, repeat_app, IH.
  now rewrite process_line_log_file.
Qed.

Lemma lines_rows_le (name : string) (lines : list string) :
  (length
     (flat_map (fun l => rows (process_line json_loads (fst l) init (snd l)))
               (map (pair name) lines))
   <= length lines)%nat.
Proof.
  induction lines as [|l lines IH]; [apply Nat.le_refl|].
  cbn [map flat_map fst snd]. rewrite length_app.
  destruct (process_line_delta json_loads name init l)
    as (_ & _ & _ & Hp & He & H1).
  cbn zeta in *. simpl (length (l :: lines)). lia.
Qed.

(** File after file, in the order of the files. *)
Lemma prefix_log_file (files : list (string * list string)) (k : nat) :
  exists counts,
    length counts = length files /\
    map log_file_of
        (flat_map (fun l => rows (process_line json_loads (fst l) init (snd l)))
                  (firstn k (all_lines files)))
    = flat_map (fun p => repeat (JStr (fst (fst p))) (snd p))
               (combine files counts) /\
    Forall2 (fun f n => (n <= length (snd f))%nat) files counts.
Proof.
  revert k. induction files as [|[name lines] files IH]; intro k.
  - exists []. rewrite firstn_nil. repeat split. constructor.
  - cbn [all_lines flat_map fst snd].
    rewrite firstn_app, flat_map_app, map_app, length_map.
    destruct (IH (k - length lines)%nat) as (counts & Hlen & Hmap & Hle).
    fold (all_lines files). rewrite Hmap, firstn_map, lines_log_file.
    exists (length
              (flat_map
                 (fun l => rows (process_line json_loads (fst l) init (snd l)))
                 (map (pair name) (firstn k lines)))
            :: counts).
    split; [cbn [length]; now rewrite Hlen|].
    split; [reflexivity|].
    constructor; [|exact Hle]. cbn [snd].
    etransitivity; [apply lines_rows_le|].
    rewrite length_firstn. apply Nat.le_min_r.
Qed.

End LogFileColumn.

(** X15: the rows the parser writes carry the name of their log file, file
    after file.  Read down the table, the column [log_file] holds the name
    of the first file as many times as that file gave rows, then the name
    of the second, and so on in the order in which the files are read; no
    file gives more rows than it has lines, so a file without lines gives
    none. *)
Theorem X15_rows_carry_log_file (json_loads : string -> result json)
        (max_lines : option Z) (files : list (string * list string)) :
  exists counts,
    length counts = length files /\
    map (fun r => Py.get r "log_file")
        (ParseLogsMain.rows
           (ParseLogsMain.files_loop json_loads max_lines files
                                     ParseLogsMain.init))
    = flat_map (fun p => repeat (JStr (fst (fst p))) (snd p))
               (combine files counts) /\
    Forall2 (fun f n => (n <= length (snd f))%nat) files counts.
Proof.
  destruct (files_loop_prefix json_loads max_lines files ParseLogsMain.init)
    as (k & ->).
  destruct (process_all_delta json_loads
              (firstn k (ParseLogsMain.all_lines files)) ParseLogsMain.init)
    as (-> & _).
  cbn [ParseLogsMain.rows ParseLogsMain.init app].
  apply prefix_log_file.
Qed.

(** ** The audio extractor *)


(** ** The sampled amplitude scan *)

Section ScanFacts.
Import AmplitudeScan.

Variable all_dirs : list day_dir.

(** The date of a row: the name of one of the day folders, cut at its first
    underscore. *)
Let date_ok (s : string) : Prop :=
  Str.contains "_" s = false /\
  exists d, In d all_dirs /\ s = hd EmptyString (Str.split "_" (dir_name d)).

(** What holds of every row: its crest factor is computed from its own rms
    and peak, and its date comes from a day folder. *)
Let row_ok (r : file_row) : Prop :=
  crest_factor r = crest_factor_of (rms_amplitude r) (peak_amplitude r)
  /\ date_ok (date r).

Lemma files_loop_inv (date_str : string) (files : list snd_file)
      (rows : list file_row) :
  date_ok date_str ->
  Forall row_ok rows ->
  Z.of_nat (length rows) < MAX_TOTAL_FILES ->
  Forall row_ok (fst (files_loop date_str files rows)) /\
  Z.of_nat (length (fst (files_loop date_str files rows))) <= MAX_TOTAL_FILES.
Proof.
  intro Hd. revert rows.
  induction files as [|fp files IH]; intros rows Hrows Hlen; simpl.
  - split; [exact Hrows | lia].
  - destruct (loaded fp) as [[[rms peak]|]|e].
    + assert (Hrows' : Forall row_ok (rows ++ [make_row fp date_str rms peak])).
      { apply Forall_app. split; [exact Hrows|].
        constructor; [|constructor]. split; [reflexivity | exact Hd]. }
      assert (Hlen' : Z.of_nat (length (rows ++ [make_row fp date_str rms peak]))
                      = Z.of_nat (length rows) + 1).
      { rewrite length_app. simpl. lia. }
      destruct (MAX_TOTAL_FILES <=? _) eqn:E.
      * simpl. split; [exact Hrows' | lia].
      * apply Z.leb_gt in E. now apply IH.
    + now apply IH.
    + destruct (MAX_TOTAL_FILES <=? _) eqn:E.
      * apply Z.leb_le in E. lia.
      * now apply IH.
Qed.

Variable rng : Type.
Variable random_sample : rng -> list snd_file -> Z -> list snd_file * rng.

Lemma days_loop_inv (g : rng) (day_dirs : list day_dir) (rows : list file_row) :
  incl day_dirs all_dirs ->
  Forall row_ok rows ->
  Z.of_nat (length rows) < MAX_TOTAL_FILES ->
  Forall row_ok (days_loop random_sample g day_dirs rows) /\
  Z.of_nat (length (days_loop random_sample g day_dirs rows))
  <= MAX_TOTAL_FILES.
Proof.
  revert g rows.
  induction day_dirs as [|d dirs IH]; intros g rows Hincl Hrows Hlen.
  - simpl. split; [exact Hrows | lia].
  - assert (Hdirs : incl dirs all_dirs)
      by (intros x Hx; apply Hincl; now right).
    simpl days_loop.
    set (date_str := hd EmptyString (Str.split "_" (dir_name d))).
    assert (Hdate : date_ok date_str).
    { split; [|exists d; split; [apply Hincl; now left | reflexivity]].
      unfold date_str. pose proof (split_nonempty "_" (dir_name d)) as Hne.
      destruct (Str.split "_" (dir_name d)) as [|a rest] eqn:Es; [contradiction|].
      now destruct (split_head _ _ Es). }
    destruct (wavs d ++ mp3s d) as [|f fs] eqn:Ef; [now apply IH|].
    destruct (if MAX_FILES_PER_DAY <? Z.of_nat (length (f :: fs))
              then random_sample g (f :: fs) MAX_FILES_PER_DAY
              else (f :: fs, g)) as [files g'].
    destruct (@files_loop_inv date_str files rows Hdate Hrows Hlen) as [Hr Hl].
    destruct (files_loop date_str files rows) as [rows' b]. simpl in Hr, Hl.
    destruct (MAX_TOTAL_FILES <=? Z.of_nat (length rows')) eqn:E.
    + split; [exact Hr | exact Hl].
    + apply Z.leb_gt in E. now apply IH.
Qed.

Lemma parse_and_drop_length (rows : list file_row) :
  (length (parse_and_drop rows) <= length rows)%nat.
Proof.
  unfold parse_and_drop. induction rows as [|r rows IH]; simpl; [lia|].
  destruct (Strptime.strptime (date r)); simpl; lia.
Qed.

End ScanFacts.

(** X17: the sampled amplitude scan never collects more than
    [MAX_TOTAL_FILES] rows, however many day folders and files there are
    and whatever [random.sample] returns; the table it writes has at most as
    many rows. *)
Theorem X17_scan_respects_total_cap (rng : Type)
        (random_sample : rng -> list AmplitudeScan.snd_file -> Z
                         -> list AmplitudeScan.snd_file * rng)
        (g : rng) (day_dirs : list AmplitudeScan.day_dir) :
  let rows := AmplitudeScan.days_loop random_sample g day_dirs [] in
  Z.of_nat (length rows) <= AmplitudeScan.MAX_TOTAL_FILES /\
  Z.of_nat (length (AmplitudeScan.parse_and_drop rows))
  <= AmplitudeScan.MAX_TOTAL_FILES.
Proof.
  cbn zeta.
  destruct (@days_loop_inv day_dirs rng random_sample g day_dirs [])
    as [_ Hlen].
  - apply incl_refl.
  - constructor.
  - reflexivity.
  - split; [exact Hlen|].
    pose proof (parse_and_drop_length
                  (AmplitudeScan.days_loop random_sample g day_dirs [])).
    lia.
Qed.

(** X18: every row the sampled scan collects has a crest factor computed
    from its own rms and peak, and its date is the name of one of the day
    folders cut at the first underscore: the quality suffix [_h] or [_l]
    never reaches the date column. *)
Theorem X18_scan_rows (rng : Type)
        (random_sample : rng -> list AmplitudeScan.snd_file -> Z
                         -> list AmplitudeScan.snd_file * rng)
        (g : rng) (day_dirs : list AmplitudeScan.day_dir) :
  Forall (fun r =>
            AmplitudeScan.crest_factor r
            = AmplitudeScan.crest_factor_of (AmplitudeScan.rms_amplitude r)
                                            (AmplitudeScan.peak_amplitude r)
            /\ Str.contains "_" (AmplitudeScan.date r) = false
            /\ exists d, In d day_dirs
                         /\ AmplitudeScan.date r
                            = hd EmptyString
                                 (Str.split "_" (AmplitudeScan.dir_name d)))
         (AmplitudeScan.days_loop random_sample g day_dirs []).
Proof.
  destruct (@days_loop_inv day_dirs rng random_sample g day_dirs [])
    as [Hrows _].
  - apply incl_refl.
  - constructor.
  - reflexivity.
  - eapply Forall_impl; [|exact Hrows].
    intros r [Hc [Hu Hd]]. auto.
Qed.

(** ** The daily tables *)

Section SortedAlready.
Variable A : Type.
Variable leb : A -> A -> bool.

(** Sorting a list that is in order leaves it as it is. *)
Lemma sort_sorted_id (l : list A) :
  Sorted (fun a b => leb a b = true) l -> Sort.sort leb l = l.
Proof.
  induction 1 as [|x l Hs IH Hx]; simpl; [reflexivity|].
  rewrite IH. destruct Hx as [|y l' Hxy]; simpl; [reflexivity|].
  now rewrite Hxy.
Qed.

End SortedAlready.

Section DailyTable.
Import Pd.

Variable R : Type.
Variable key : R -> option Z.
Variable Out : Type.
Variable agg : Z * list R -> Out.
Variable out_key : Out -> Z.
Hypothesis agg_key : forall k g, out_key (agg (k, g)) = k.

Lemma table_keys (df : list R) :
  map out_key (map agg (groupby key df)) = keys key df.
Proof.
  unfold groupby. rewrite !map_map.
  erewrite map_ext; [apply map_id|]. intro k. apply agg_key.
Qed.

Lemma sorted_lt_le (l : list Out) :
  StronglySorted Z.lt (map out_key l) ->
  Sorted (fun a b => (out_key a <=? out_key b) = true) l.
Proof.
  induction l as [|x l IH]; simpl; intro H; [constructor|].
  inversion H as [|? ? Hs Hx]; subst. constructor; [now apply IH|].
  destruct l as [|y l]; constructor.
  inversion Hx; subst. apply Z.leb_le. lia.
Qed.

(** The table of the groups is in the order of its keys: sorting it by key
    changes nothing. *)
Lemma table_sorted (df : list R) :
  Sort.sort (fun a b => out_key a <=? out_key b) (map agg (groupby key df))
  = map agg (groupby key df).
Proof.
  apply sort_sorted_id, sorted_lt_le.
  rewrite table_keys. apply keys_sorted.
Qed.

(** Two increasing lists with the same elements are the same list. *)
Lemma sorted_lt_unique (l l' : list Z) :
  StronglySorted Z.lt l -> StronglySorted Z.lt l' ->
  (forall x, In x l <-> In x l') -> l = l'.
Proof.
  intro Hl. revert l'.
  induction Hl as [|x l Hs IH Hx]; intros l' Hl' Hin.
  - destruct l' as [|y l']; [reflexivity|].
    exfalso. apply (Hin y). now left.
  - destruct Hl' as [|y l' Hs' Hy].
    + exfalso. apply (Hin x). now left.
    + rewrite Forall_forall in Hx, Hy.
      assert (x = y).
      { destruct (proj1 (Hin x) (or_introl eq_refl)) as [E | Hxl']; [auto|].
        destruct (proj2 (Hin y) (or_introl eq_refl)) as [E | Hyl]; [auto|].
        specialize (Hx y Hyl). specialize (Hy x Hxl'). lia. }
      subst y. f_equal. apply IH; [exact Hs'|].
      intro z. split; intro Hz.
      * destruct (proj1 (Hin z) (or_intror Hz)) as [E | H']; [|exact H'].
        subst z. specialize (Hx x Hz). lia.
      * destruct (proj2 (Hin z) (or_intror Hz)) as [E | H']; [|exact H'].
        subst z. specialize (Hy x Hz). lia.
Qed.

(** The keys of a frame do not depend on the order of its rows. *)
Lemma keys_perm (df df' : list R) :
  Permutation df df' -> keys key df = keys key df'.
Proof.
  intro HP. apply sorted_lt_unique; try apply keys_sorted.
  intro k. rewrite !in_keys, !in_dropna.
  split; apply Permutation_in; [|apply Permutation_sym];
    now apply Permutation_map.
Qed.

Lemma filter_perm_length (p : R -> bool) (df df' : list R) :
  Permutation df df' -> length (filter p df) = length (filter p df').
Proof.
  induction 1 as [| x l l' _ IH | x y l | l l' l'' _ IH1 _ IH2]; simpl.
  - reflexivity.
  - destruct (p x); simpl; now rewrite IH.
  - destruct (p x), (p y); reflexivity.
  - now rewrite IH1.
Qed.

End DailyTable.

Section DailyRows.
Import Pd.

Variable sqrt : Q -> Q.

Lemma audio_aggregate_table (df : list AudioDaily.audio_row) :
  AudioDaily.aggregate sqrt df
  = map (AudioDaily.agg sqrt) (groupby AudioDaily.date df).
Proof.
  apply (table_sorted AudioDaily.date (AudioDaily.agg sqrt) AudioDaily.d_date).
  reflexivity.
Qed.

Lemma image_aggregate_table (df : list ImageDaily.image_row) :
  ImageDaily.aggregate df = map ImageDaily.agg (groupby ImageDaily.date df).
Proof.
  apply (table_sorted ImageDaily.date ImageDaily.agg ImageDaily.d_date).
  reflexivity.
Qed.

Lemma audio_aggregate_dates (df : list AudioDaily.audio_row) :
  map AudioDaily.d_date (AudioDaily.aggregate sqrt df)
  = keys AudioDaily.date df.
Proof.
  rewrite audio_aggregate_table. now apply table_keys.
Qed.

Lemma image_aggregate_dates (df : list ImageDaily.image_row) :
  map ImageDaily.d_date (ImageDaily.aggregate df) = keys ImageDaily.date df.
Proof.
  rewrite image_aggregate_table. now apply table_keys.
Qed.

Lemma in_keys_column (R : Type) (key : R -> option Z) (df : list R) (t : Z) :
  In t (keys key df) <-> In (Some t) (map key df).
Proof. now rewrite in_keys, in_dropna. Qed.

Lemma audio_aggregate_counts (df : list AudioDaily.audio_row) :
  map AudioDaily.n_audio (AudioDaily.aggregate sqrt df)
  = map (fun k =>
           Z.of_nat
             (length (filter (fun x => has_key AudioDaily.date k x
                                       && notna (AudioDaily.relative_path x))
                             df)))
        (keys AudioDaily.date df).
Proof.
  rewrite audio_aggregate_table. unfold groupby. rewrite !map_map.
  apply map_ext. intro k. cbn [AudioDaily.agg AudioDaily.n_audio].
  rewrite count_as_filter. unfold group. now rewrite filter_twice.
Qed.

Lemma image_aggregate_counts (df : list ImageDaily.image_row) :
  map ImageDaily.n_images (ImageDaily.aggregate df)
  = map (fun k =>
           Z.of_nat
             (length (filter (fun x => has_key ImageDaily.date k x
                                       && notna (ImageDaily.file_name x))
                             df)))
        (keys ImageDaily.date df).
Proof.
  rewrite image_aggregate_table. unfold groupby. rewrite !map_map.
  apply map_ext. intro k. cbn [ImageDaily.agg ImageDaily.n_images].
  rewrite count_as_filter. unfold group. now rewrite filter_twice.
Qed.

Lemma counts_row_by_row (Out : Type) (d n : Out -> Z) (f : Z -> Z)
      (l : list Out) (ks : list Z) :
  map d l = ks -> map n l = map f ks ->
  Forall (fun r => n r = f (d r)) l.
Proof.
  intros <-. rewrite map_map. induction l as [|r l IH]; simpl; intro H.
  - constructor.
  - injection H as H1 H2. constructor; auto.
Qed.

End DailyRows.

(** X19: the table of a daily aggregator has one row per date that occurs
    in the input, in strictly increasing order of the date, and the count
    of a row is the number of input rows of that date whose counted column
    ([relative_path] for audio, [file_name] for images) is not null; rows
    without a date are counted nowhere. *)
Theorem X19_daily_one_row_per_date (sqrt : Q -> Q)
        (audio_df : list AudioDaily.audio_row)
        (image_df : list ImageDaily.image_row) :
  (let daily := AudioDaily.aggregate sqrt audio_df in
   StronglySorted Z.lt (map AudioDaily.d_date daily) /\
   (forall t, In t (map AudioDaily.d_date daily)
              <-> In (Some t) (map AudioDaily.date audio_df)) /\
   Forall (fun r =>
             AudioDaily.n_audio r
             = Z.of_nat
                 (length
                    (filter (fun x =>
                               Pd.has_key AudioDaily.date (AudioDaily.d_date r) x
                               && Pd.notna (AudioDaily.relative_path x))
                            audio_df)))
          daily) /\
  (let daily := ImageDaily.aggregate image_df in
   StronglySorted Z.lt (map ImageDaily.d_date daily) /\
   (forall t, In t (map ImageDaily.d_date daily)
              <-> In (Some t) (map ImageDaily.date image_df)) /\
   Forall (fun r =>
             ImageDaily.n_images r
             = Z.of_nat
                 (length
                    (filter (fun x =>
                               Pd.has_key ImageDaily.date (ImageDaily.d_date r) x
                               && Pd.notna (ImageDaily.file_name x))
                            image_df)))
          daily).
Proof.
  split; cbv zeta.
  - rewrite audio_aggregate_dates. split; [apply keys_sorted|].
    split; [intro t; apply in_keys_column|].
    apply (@counts_row_by_row _ AudioDaily.d_date AudioDaily.n_audio
             (fun k => Z.of_nat
                (length (filter (fun x => Pd.has_key AudioDaily.date k x
                                          && Pd.notna (AudioDaily.relative_path x))
                                audio_df)))
             _ (Pd.keys AudioDaily.date audio_df)).
    + apply audio_aggregate_dates.
    + apply audio_aggregate_counts.
  - rewrite image_aggregate_dates. split; [apply keys_sorted|].
    split; [intro t; apply in_keys_column|].
    apply (@counts_row_by_row _ ImageDaily.d_date ImageDaily.n_images
             (fun k => Z.of_nat
                (length (filter (fun x => Pd.has_key ImageDaily.date k x
                                          && Pd.notna (ImageDaily.file_name x))
                                image_df)))
             _ (Pd.keys ImageDaily.date image_df)).
    + apply image_aggregate_dates.
    + apply image_aggregate_counts.
Qed.

Section DailyMain.
Import Pd.

Variable sqrt : Q -> Q.

Lemma normalize_midnight (t : Timestamp) : normalize t mod day_ns = 0.
Proof.
  unfold normalize.
  rewrite Zminus_mod_idemp_r, Z.sub_diag. reflexivity.
Qed.

Lemma filter_map_length (A B : Type) (f : A -> B) (p : B -> bool)
      (l : list A) :
  length (filter p (map f l)) = length (filter (fun x => p (f x)) l).
Proof.
  induction l as [|a l IH]; simpl; [reflexivity|].
  destruct (p (f a)); simpl; now rewrite IH.
Qed.

Lemma normalized_dates (df : list AudioDaily.audio_row) (d : Z) :
  In (Some d) (map AudioDaily.date (AudioDaily.normalize_dates df))
  <-> exists t, In (Some t) (map AudioDaily.date df) /\ d = normalize t.
Proof.
  unfold AudioDaily.normalize_dates. rewrite map_map. cbn [AudioDaily.date].
  rewrite in_map_iff. split.
  - intros (x & Hx & Hin). destruct (AudioDaily.date x) as [t|] eqn:E;
      [|discriminate Hx].
    injection Hx as <-. exists t. split; [|reflexivity].
    rewrite <- E. now apply in_map.
  - intros (t & Hin & ->). apply in_map_iff in Hin.
    destruct Hin as (x & Hx & Hin). exists x. now rewrite Hx.
Qed.

Lemma pair_columns (Out : Type) (d n : Out -> Z) (l l' : list Out) :
  map d l = map d l' -> map n l = map n l' ->
  map (fun r => (d r, n r)) l = map (fun r => (d r, n r)) l'.
Proof.
  revert l'. induction l as [|r l IH]; intros [|r' l'] Hd Hn;
    try discriminate; [reflexivity|].
  simpl in *. injection Hd as Hd1 Hd2. injection Hn as Hn1 Hn2.
  rewrite Hd1, Hn1. f_equal. now apply IH.
Qed.

Lemma audio_counts_perm (df df' : list AudioDaily.audio_row) :
  Permutation df df' ->
  map (fun r => (AudioDaily.d_date r, AudioDaily.n_audio r))
      (AudioDaily.aggregate sqrt df)
  = map (fun r => (AudioDaily.d_date r, AudioDaily.n_audio r))
        (AudioDaily.aggregate sqrt df').
Proof.
  intro HP. apply pair_columns.
  - rewrite !audio_aggregate_dates. now apply keys_perm.
  - rewrite !audio_aggregate_counts, (keys_perm AudioDaily.date HP).
    apply map_ext. intro k. f_equal. now apply filter_perm_length.
Qed.

Lemma image_counts_perm (df df' : list ImageDaily.image_row) :
  Permutation df df' ->
  map (fun r => (ImageDaily.d_date r, ImageDaily.n_images r))
      (ImageDaily.aggregate df)
  = map (fun r => (ImageDaily.d_date r, ImageDaily.n_images r))
        (ImageDaily.aggregate df').
Proof.
  intro HP. apply pair_columns.
  - rewrite !image_aggregate_dates. now apply keys_perm.
  - rewrite !image_aggregate_counts, (keys_perm ImageDaily.date HP).
    apply map_ext. intro k. f_equal. now apply filter_perm_length.
Qed.

End DailyMain.

(** X20: how a daily aggregator ends on an input file that exists.  The
    image aggregator writes its table exactly when every input row has a
    date and a [file_name]; the audio aggregator writes it exactly when the
    table has a row and every row has a date and a [relative_path].  A
    single row that lacks one of them ends the run with an
    [AssertionError], an audio table without rows ends it with the
    [AttributeError] of [.dt.normalize()], and in both cases nothing is
    written. *)
Theorem X20_daily_main_needs_complete_rows (sqrt : Q -> Q)
        (audio_df : list AudioDaily.audio_row)
        (image_df : list ImageDaily.image_row) :
  AudioDaily.main sqrt (Some audio_df)
  = match audio_df with
    | [] => Failed AttributeError
    | _ =>
        if forallb (fun r => Pd.notna (AudioDaily.date r)
                             && Pd.notna (AudioDaily.relative_path r)) audio_df
        then Wrote (AudioDaily.aggregate sqrt
                      (AudioDaily.normalize_dates audio_df))
        else Failed AssertionError
    end /\
  ImageDaily.main (Some image_df)
  = (if forallb (fun r => Pd.notna (ImageDaily.date r)
                          && Pd.notna (ImageDaily.file_name r)) image_df
     then Wrote (ImageDaily.aggregate image_df)
     else Failed AssertionError).
Proof.
  split; [apply audio_main_cases | apply image_main_writes].
Qed.

(** X21: the audio table is by calendar day: its dates are the midnights of
    the days on which the input has a row, whatever the time of day of the
    input timestamps, and the count of a row is the number of input rows of
    that day that have a path. *)
Theorem X21_audio_daily_by_day (sqrt : Q -> Q)
        (df : list AudioDaily.audio_row) :
  let daily := AudioDaily.aggregate sqrt (AudioDaily.normalize_dates df) in
  (forall d, In d (map AudioDaily.d_date daily)
             <-> exists t, In (Some t) (map AudioDaily.date df)
                           /\ d = Pd.normalize t) /\
  Forall (fun r =>
            AudioDaily.d_date r mod Pd.day_ns = 0 /\
            AudioDaily.n_audio r
            = Z.of_nat
                (length
                   (filter (fun x =>
                              match AudioDaily.date x with
                              | Some t => Pd.normalize t =? AudioDaily.d_date r
                              | None => false
                              end && Pd.notna (AudioDaily.relative_path x))
                           df)))
         daily.
Proof.
  cbv zeta.
  assert (Hd : forall d,
             In d (map AudioDaily.d_date
                       (AudioDaily.aggregate sqrt (AudioDaily.normalize_dates df)))
             <-> exists t, In (Some t) (map AudioDaily.date df)
                           /\ d = Pd.normalize t).
  { intro d. rewrite audio_aggregate_dates, in_keys_column.
    apply normalized_dates. }
  split; [exact Hd|].
  apply Forall_forall. intros r Hr. split.
  - destruct (proj1 (Hd (AudioDaily.d_date r)) (in_map _ _ _ Hr))
      as (t & _ & ->).
    apply normalize_midnight.
  - pose proof (@counts_row_by_row _ AudioDaily.d_date AudioDaily.n_audio _
                  _ _ (audio_aggregate_dates sqrt (AudioDaily.normalize_dates df))
                  (audio_aggregate_counts sqrt (AudioDaily.normalize_dates df)))
      as Hc.
    rewrite Forall_forall in Hc. rewrite (Hc r Hr).
    unfold AudioDaily.normalize_dates. rewrite filter_map_length.
    f_equal. f_equal. apply filter_ext. intro x.
    unfold Pd.has_key. cbn [AudioDaily.date AudioDaily.relative_path].
    destruct (AudioDaily.date x); reflexivity.
Qed.

(** X22: the dates and the counts of a daily table do not depend on the
    order of the rows of the input file. *)
Theorem X22_daily_counts_order_independent (sqrt : Q -> Q)
        (audio_df audio_df' : list AudioDaily.audio_row)
        (image_df image_df' : list ImageDaily.image_row) :
  Permutation audio_df audio_df' ->
  Permutation image_df image_df' ->
  map (fun r => (AudioDaily.d_date r, AudioDaily.n_audio r))
      (AudioDaily.aggregate sqrt audio_df)
  = map (fun r => (AudioDaily.d_date r, AudioDaily.n_audio r))
        (AudioDaily.aggregate sqrt audio_df') /\
  map (fun r => (ImageDaily.d_date r, ImageDaily.n_images r))
      (ImageDaily.aggregate image_df)
  = map (fun r => (ImageDaily.d_date r, ImageDaily.n_images r))
        (ImageDaily.aggregate image_df').
Proof.
  intros Ha Hi. split;
    [now apply audio_counts_perm | now apply image_counts_perm].
Qed.

Lemma X22_daily_counts_order_independent_witness :
    let sqrt := fun q : Q => q in
    let a1 := AudioDaily.mkAudioRow (Some 5) (Some "a.wav"%string)
                                    None None None None in
    let a2 := AudioDaily.mkAudioRow (Some 3) None None None None None in
    let i1 := ImageDaily.mkImageRow (Some 7) (Some "x.jpg"%string)
                                    None None None None in
    let i2 := ImageDaily.mkImageRow None (Some "y.jpg"%string)
                                    None None None None in
    map (fun r => (AudioDaily.d_date r, AudioDaily.n_audio r))
        (AudioDaily.aggregate sqrt [a1; a2])
    = map (fun r => (AudioDaily.d_date r, AudioDaily.n_audio r))
          (AudioDaily.aggregate sqrt [a2; a1]) /\
    map (fun r => (ImageDaily.d_date r, ImageDaily.n_images r))
        (ImageDaily.aggregate [i1; i2])
    = map (fun r => (ImageDaily.d_date r, ImageDaily.n_images r))
          (ImageDaily.aggregate [i2; i1]).
Proof.
  intros sqrt a1 a2 i1 i2.
  apply (X22_daily_counts_order_independent sqrt); apply perm_swap.
Defined.

(** ** The join of the audio tables *)

Section SensorJoinFacts.
Import SensorJoin.

Lemma isna_none (A : Type) (f : A -> option Z) (l : list A) :
  (Z.of_nat (length (filter (fun r => isna (f r)) l)) =? 0) = true
  <-> Forall (fun r => f r <> None) l.
Proof.
  rewrite Z.eqb_eq. induction l as [|r l IH]; simpl.
  - split; [constructor | reflexivity].
  - destruct (f r) eqn:E; simpl.
    + rewrite IH. split; intro H.
      * constructor; [congruence | exact H].
      * now inversion H.
    + split; intro H; [lia|]. inversion H. congruence.
Qed.

Lemma joined_cases (aq : list aq_row) (asens : list sensor_row) :
  (Forall (fun l => aq_date l <> None) aq /\
   Forall (fun s => s_date s <> None) asens /\
   joined aq asens = Wrote (map flags (merge_left aq asens))) \/
  (~ (Forall (fun l => aq_date l <> None) aq /\
      Forall (fun s => s_date s <> None) asens) /\
   joined aq asens = Failed AssertionError).
Proof.
  unfold joined.
  pose proof (isna_none aq_date aq) as Ha.
  pose proof (isna_none s_date asens) as Hs.
  destruct (Z.of_nat (length (filter (fun r => isna (aq_date r)) aq)) =? 0).
  - destruct (Z.of_nat (length (filter (fun r => isna (s_date r)) asens)) =? 0).
    + left. simpl. repeat split; [now apply Ha | now apply Hs].
    + right. simpl. split; [|reflexivity].
      intros [_ H]. apply Hs in H. discriminate H.
  - right. simpl. split; [|reflexivity].
    intros [H _]. apply Ha in H. discriminate H.
Qed.

(** The pairs of the merge: a left row with each right row of its key, or
    with nothing when the right table has no such row. *)
Lemma merge_left_in (aq : list aq_row) (asens : list sensor_row)
      (l : aq_row) (o : option sensor_row) :
  In (l, o) (merge_left aq asens)
  <-> In l aq /\
      match o with
      | Some s => In s asens /\ s_date s = aq_date l
      | None => forall s, In s asens -> s_date s <> aq_date l
      end.
Proof.
  unfold merge_left. rewrite in_flat_map. split.
  - intros (l' & Hl' & Hin).
    destruct (filter (fun r => same_key (s_date r) (aq_date l')) asens)
      as [|m ms] eqn:Ef.
    + destruct Hin as [E | []]. injection E as <- <-. split; [exact Hl'|].
      intros s Hs Hk.
      assert (H : In s (filter (fun r => same_key (s_date r) (aq_date l'))
                               asens)).
      { apply filter_In. split; [exact Hs | now apply same_key_eq]. }
      rewrite Ef in H. exact H.
    + apply in_map_iff in Hin. destruct Hin as (s & E & Hs).
      injection E as <- <-. split; [exact Hl'|].
      rewrite <- Ef in Hs. apply filter_In in Hs. destruct Hs as [Hs Hk].
      split; [exact Hs | now apply same_key_eq].
  - intros [Hl Ho]. exists l. split; [exact Hl|].
    destruct (filter (fun r => same_key (s_date r) (aq_date l)) asens)
      as [|m ms] eqn:Ef.
    + destruct o as [s|]; [|now left].
      destruct Ho as [Hs Hk].
      assert (H : In s (filter (fun r => same_key (s_date r) (aq_date l))
                               asens)).
      { apply filter_In. split; [exact Hs | now apply same_key_eq]. }
      rewrite Ef in H. destruct H.
    + destruct o as [s|].
      * destruct Ho as [Hs Hk]. apply in_map_iff. exists s.
        split; [reflexivity|]. rewrite <- Ef. apply filter_In.
        split; [exact Hs | now apply same_key_eq].
      * exfalso.
        assert (H : In m (filter (fun r => same_key (s_date r) (aq_date l))
                                 asens)) by (rewrite Ef; now left).
        apply filter_In in H. destruct H as [Hm Hk].
        apply same_key_eq in Hk. exact (Ho m Hm Hk).
Qed.

(** Every left row is in the merge at least once. *)
Lemma merge_left_total (aq : list aq_row) (asens : list sensor_row)
      (l : aq_row) :
  In l aq -> exists o, In (l, o) (merge_left aq asens).
Proof.
  intro Hl. unfold merge_left.
  destruct (filter (fun r => same_key (s_date r) (aq_date l)) asens)
    as [|m ms] eqn:Ef.
  - exists None. apply in_flat_map. exists l. split; [exact Hl|].
    rewrite Ef. now left.
  - exists (Some m). apply in_flat_map. exists l. split; [exact Hl|].
    rewrite Ef. now left.
Qed.

Lemma merge_left_length (aq : list aq_row) (asens : list sensor_row) :
  (length aq <= length (merge_left aq asens))%nat.
Proof.
  unfold merge_left. induction aq as [|l aq IH]; [apply Nat.le_refl|].
  cbn [flat_map]. rewrite length_app.
  set (rest := flat_map _ aq) in *. clearbody rest.
  destruct (filter (fun r => same_key (s_date r) (aq_date l)) asens);
    cbn [length map]; lia.
Qed.

Lemma option_Z_eq_dec (a b : option Z) : {a = b} + {a <> b}.
Proof. decide equality. apply Z.eq_dec. Qed.

(** When the dates of the right table are distinct, the merge has the left
    rows one by one, in their order. *)
Lemma merge_left_unique (aq : list aq_row) (asens : list sensor_row) :
  NoDup (map s_date asens) ->
  map fst (merge_left aq asens) = aq.
Proof.
  intro Hnd. unfold merge_left. induction aq as [|l aq IH]; [reflexivity|].
  cbn [flat_map]. rewrite map_app, IH. clear IH.
  destruct (in_dec option_Z_eq_dec (aq_date l) (map s_date asens)) as [Hin | Hn].
  - destruct (@matches_unique (aq_date l) asens Hnd Hin) as (r & _ & _ & ->).
    reflexivity.
  - now rewrite (@matches_absent (aq_date l) asens Hn).
Qed.

Lemma flags_left (p : aq_row * option sensor_row) :
  j_date (flags p) = aq_date (fst p) /\ j_n_audio (flags p) = n_audio (fst p).
Proof. destruct p as [l o]. split; reflexivity. Qed.

End SensorJoinFacts.

(** X23: the join stops with an [AssertionError] exactly when a date of
    one of its two tables is not a date; otherwise it writes a table that
    keeps every primary row (date and count) at least once and has no row
    that does not come from a primary row. *)
Theorem X23_left_join_keeps_primary
        (aq : list SensorJoin.aq_row) (asens : list SensorJoin.sensor_row) :
  match SensorJoin.joined aq asens with
  | Wrote rows =>
      Forall (fun l => SensorJoin.aq_date l <> None) aq /\
      Forall (fun s => SensorJoin.s_date s <> None) asens /\
      (length aq <= length rows)%nat /\
      Forall (fun l => exists r, In r rows /\
                                 SensorJoin.j_date r = SensorJoin.aq_date l /\
                                 SensorJoin.j_n_audio r = SensorJoin.n_audio l)
             aq /\
      Forall (fun r => exists l, In l aq /\
                                 SensorJoin.j_date r = SensorJoin.aq_date l /\
                                 SensorJoin.j_n_audio r = SensorJoin.n_audio l)
             rows
  | Failed e =>
      e = AssertionError /\
      ~ (Forall (fun l => SensorJoin.aq_date l <> None) aq /\
         Forall (fun s => SensorJoin.s_date s <> None) asens)
  | SysExit _ => False
  end.
Proof.
  destruct (joined_cases aq asens) as [(Ha & Hs & ->) | (Hn & ->)];
    [|split; [reflexivity | exact Hn]].
  split; [exact Ha|]. split; [exact Hs|]. split; [|split].
  - rewrite length_map. apply merge_left_length.
  - apply Forall_forall. intros l Hl.
    destruct (merge_left_total aq asens l Hl) as (o & Ho).
    exists (SensorJoin.flags (l, o)). split; [now apply in_map|].
    apply (flags_left (l, o)).
  - apply Forall_forall. intros r Hr. apply in_map_iff in Hr.
    destruct Hr as ([l o] & <- & Hin). exists l.
    split; [now apply merge_left_in in Hin|]. apply (flags_left (l, o)).
Qed.

(** X24: when no two rows of the sensor table have the same date, the
    joined table has the primary rows one by one in their order, and a row
    is [sensor_present] exactly when the sensor table has a row of its date
    with a value in [n_events]. *)
Theorem X24_left_join_unique_sensor_dates
        (aq : list SensorJoin.aq_row) (asens : list SensorJoin.sensor_row)
        (rows : list SensorJoin.joined_row) :
  NoDup (map SensorJoin.s_date asens) ->
  SensorJoin.joined aq asens = Wrote rows ->
  map SensorJoin.j_date rows = map SensorJoin.aq_date aq /\
  map SensorJoin.j_n_audio rows = map SensorJoin.n_audio aq /\
  Forall (fun r =>
            SensorJoin.sensor_present r = true
            <-> exists s, In s asens /\
                          SensorJoin.s_date s = SensorJoin.j_date r /\
                          SensorJoin.n_events s <> None)
         rows.
Proof.
  intros Hnd Hj.
  destruct (joined_cases aq asens) as [(_ & _ & E) | (_ & E)];
    rewrite E in Hj; [|discriminate Hj].
  injection Hj as <-.
  pose proof (@merge_left_unique aq asens Hnd) as Hfst.
  split; [|split].
  - rewrite map_map. rewrite <- Hfst at 2. rewrite map_map.
    apply map_ext. intro p. apply flags_left.
  - rewrite map_map. rewrite <- Hfst at 2. rewrite map_map.
    apply map_ext. intro p. apply flags_left.
  - apply Forall_forall. intros r Hr. apply in_map_iff in Hr.
    destruct Hr as ([l o] & <- & Hin). apply merge_left_in in Hin.
    destruct Hin as [_ Ho]. cbn [SensorJoin.flags SensorJoin.sensor_present
                                 SensorJoin.j_date].
    destruct o as [s|].
    + destruct Ho as [Hs Hk]. split.
      * intro H. exists s. repeat split; auto.
        intro E'. rewrite E' in H. discriminate H.
      * intros (s' & Hs' & Hk' & Hev).
        assert (s' = s).
        { clear - Hnd Hs Hs' Hk Hk'. rewrite <- Hk in Hk'. clear Hk.
          induction asens as [|x xs IH]; [destruct Hs|].
          simpl in Hnd. inversion Hnd as [|? ? Hx Hnd']; subst.
          destruct Hs as [-> | Hs], Hs' as [-> | Hs'].
          - reflexivity.
          - exfalso. apply Hx. rewrite <- Hk'. now apply in_map.
          - exfalso. apply Hx. rewrite Hk'. now apply in_map.
          - now apply IH. }
        subst s'. destruct (SensorJoin.n_events s); [reflexivity | congruence].
    + split; [discriminate|].
      intros (s & Hs & Hk & _). exfalso. exact (Ho s Hs Hk).
Qed.

Lemma X24_left_join_unique_sensor_dates_witness :
  let aq := [SensorJoin.mkAq (Some 1) 3; SensorJoin.mkAq (Some 2) 0] in
  let asens := [SensorJoin.mkSensor (Some 1) (Some (80 # 1)) (Some (4 # 1))] in
  let rows := map SensorJoin.flags (SensorJoin.merge_left aq asens) in
  map SensorJoin.j_date rows = map SensorJoin.aq_date aq /\
  map SensorJoin.j_n_audio rows = map SensorJoin.n_audio aq /\
  Forall (fun r =>
            SensorJoin.sensor_present r = true
            <-> exists s, In s asens /\
                          SensorJoin.s_date s = SensorJoin.j_date r /\
                          SensorJoin.n_events s <> None)
         rows.
Proof.
  intros aq asens rows.
  apply (@X24_left_join_unique_sensor_dates aq asens rows).
  - simpl. constructor; [simpl; tauto | constructor].
  - reflexivity.
Defined.

(** X25: in the joined table [sensor_present] is the negation of
    [sensor_missing]; a day that the sensor table does not have is
    [sensor_missing], has no sensor values and is never a capture failure
    candidate; and a capture failure candidate has at most two recordings
    and a sensor row of its date whose [dba_mean] is at least 75. *)
Theorem X25_capture_failure_flag
        (aq : list SensorJoin.aq_row) (asens : list SensorJoin.sensor_row)
        (rows : list SensorJoin.joined_row) :
  SensorJoin.joined aq asens = Wrote rows ->
  Forall (fun r =>
            SensorJoin.sensor_present r = negb (SensorJoin.sensor_missing r) /\
            (~ In (SensorJoin.j_date r) (map SensorJoin.s_date asens) ->
             SensorJoin.sensor_missing r = true /\
             SensorJoin.j_dba_mean r = None /\
             SensorJoin.j_n_events r = None /\
             SensorJoin.flag_capture_failure_candidate r = false) /\
            (SensorJoin.flag_capture_failure_candidate r = true ->
             SensorJoin.j_n_audio r <= 2 /\
             exists s v, In s asens /\
                         SensorJoin.s_date s = SensorJoin.j_date r /\
                         SensorJoin.dba_mean s = Some v /\
                         (75 <= v)%Q))
         rows.
Proof.
  intro Hj.
  destruct (joined_cases aq asens) as [(_ & _ & E) | (_ & E)];
    rewrite E in Hj; [|discriminate Hj].
  injection Hj as <-.
  apply Forall_forall. intros r Hr. apply in_map_iff in Hr.
  destruct Hr as ([l o] & <- & Hin). apply merge_left_in in Hin.
  destruct Hin as [_ Ho].
  cbn [SensorJoin.flags SensorJoin.sensor_present SensorJoin.sensor_missing
       SensorJoin.j_date SensorJoin.j_dba_mean SensorJoin.j_n_events
       SensorJoin.j_n_audio SensorJoin.flag_capture_failure_candidate].
  split; [reflexivity|]. split.
  - intro Hn. destruct o as [s|]; [|repeat split; reflexivity].
    destruct Ho as [Hs Hk]. exfalso. apply Hn. rewrite <- Hk.
    now apply in_map.
  - intro Hf. destruct o as [s|]; [|discriminate Hf].
    destruct Ho as [Hs Hk].
    destruct (SensorJoin.dba_mean s) as [v|] eqn:Ev; [|discriminate Hf].
    apply andb_prop in Hf. destruct Hf as [Hn Hv].
    split; [now apply Z.leb_le|].
    exists s, v. repeat split; auto. now apply Qle_bool_iff.
Qed.

Lemma X25_capture_failure_flag_witness :
  let aq := [SensorJoin.mkAq (Some 1) 1; SensorJoin.mkAq (Some 2) 0] in
  let asens := [SensorJoin.mkSensor (Some 1) (Some (80 # 1)) (Some (4 # 1))] in
  Forall (fun r =>
            SensorJoin.sensor_present r = negb (SensorJoin.sensor_missing r) /\
            (~ In (SensorJoin.j_date r) (map SensorJoin.s_date asens) ->
             SensorJoin.sensor_missing r = true /\
             SensorJoin.j_dba_mean r = None /\
             SensorJoin.j_n_events r = None /\
             SensorJoin.flag_capture_failure_candidate r = false) /\
            (SensorJoin.flag_capture_failure_candidate r = true ->
             SensorJoin.j_n_audio r <= 2 /\
             exists s v, In s asens /\
                         SensorJoin.s_date s = SensorJoin.j_date r /\
                         SensorJoin.dba_mean s = Some v /\
                         (75 <= v)%Q))
         (map SensorJoin.flags (SensorJoin.merge_left aq asens)).
Proof.
  intros aq asens.
  apply (@X25_capture_failure_flag aq asens _). reflexivity.
Defined.
